(** * The task orchestrator of Joe-1.0, embedded and verified

    The development follows [src/orchestrator/orchestrator.py] (class
    [Orchestrator]) and [src/orchestrator/instance.py] (the start-up wiring),
    together with the stub agents of [src/agents].  Further down it
    follows the Slack events of [src/slack_interface/slack_events.py], which
    call the orchestrator, and the web search agent of
    [src/agents/web_search_agent.py].

    Python objects live in a store: a dictionary or a list is a reference
    into it, so that [dict.copy], [dict.setdefault] and item assignment
    have the sharing they have in Python.  Every operation that can raise
    in Python returns the exception here; all exceptions are instances of
    [Exception], which is what the [except] clauses of the orchestrator
    catch.  Handlers and the oracle are arbitrary functions; logging is
    left out. *)

From Stdlib Require Import ZArith Ascii String.
From stdpp Require Import base option list strings pretty.

(** ** Python [str]

    A [str] is a Rocq [string] whose characters are the code points below
    256.  The functions below are the methods of [str] that the orchestrator
    calls, on that range. *)
Module PyStr.

Definition code (c : ascii) : nat := nat_of_ascii c.

(** [str.isspace] on one character. *)
Definition is_space (c : ascii) : bool :=
  let n := code c in
  ((9 <=? n) && (n <=? 13)) || ((28 <=? n) && (n <=? 32))
  || (n =? 133) || (n =? 160).

(** [str.lower] on one character: A-Z and the upper-case letters of
    Latin-1 (0xC0-0xDE without the multiplication sign 0xD7). *)
Definition lower_char (c : ascii) : ascii :=
  let n := code c in
  if ((65 <=? n) && (n <=? 90))
     || ((192 <=? n) && (n <=? 222) && negb (n =? 215))
  then ascii_of_nat (n + 32) else c.

Fixpoint lower (s : string) : string :=
  match s with
  | EmptyString => EmptyString
  | String c t => String (lower_char c) (lower t)
  end.

(** [s.startswith(p)] *)
Fixpoint startswith (p s : string) : bool :=
  match p, s with
  | EmptyString, _ => true
  | String a p', String b s' => if ascii_dec a b then startswith p' s' else false
  | String _ _, EmptyString => false
  end.

(** [needle in hay] for two strings. *)
Fixpoint str_in (needle hay : string) : bool :=
  startswith needle hay
  || match hay with
     | EmptyString => false
     | String _ t => str_in needle t
     end.

Fixpoint lstrip (s : string) : string :=
  match s with
  | EmptyString => EmptyString
  | String c t => if is_space c then lstrip t else s
  end.

Fixpoint rstrip (s : string) : string :=
  match s with
  | EmptyString => EmptyString
  | String c t =>
      match rstrip t with
      | EmptyString => if is_space c then EmptyString else String c EmptyString
      | r => String c r
      end
  end.

Definition strip (s : string) : string := rstrip (lstrip s).

(** [s.split(sep)] for a non-empty [sep]: [skip] counts the characters of
    a separator just matched that are still to be dropped, [cur] is the
    piece being read, reversed. *)
Fixpoint split_go (sep : string) (skip : nat) (cur : string) (s : string)
  : list string :=
  match s with
  | EmptyString => [String.rev cur]
  | String c t =>
      match skip with
      | S k => split_go sep k cur t
      | O =>
          if startswith sep s
          then String.rev cur :: split_go sep (String.length sep - 1) EmptyString t
          else split_go sep O (String c cur) t
      end
  end.

Definition split (sep s : string) : list string := split_go sep 0 EmptyString s.

(** [s.split()]: the maximal runs of non-space characters. *)
Fixpoint split_ws_go (cur : option string) (s : string) : list string :=
  match s with
  | EmptyString =>
      match cur with Some w => [String.rev w] | None => [] end
  | String c t =>
      if is_space c
      then match cur with
           | Some w => String.rev w :: split_ws_go None t
           | None => split_ws_go None t
           end
      else split_ws_go (Some (String c (default EmptyString cur))) t
  end.

Definition split_ws (s : string) : list string := split_ws_go None s.

(** [sep.join(l)] *)
Fixpoint join (sep : string) (l : list string) : string :=
  match l with
  | [] => EmptyString
  | [x] => x
  | x :: t => x +:+ sep +:+ join sep t
  end.

Definition hex_digit (n : nat) : ascii :=
  if n <? 10 then ascii_of_nat (48 + n) else ascii_of_nat (87 + n).

Definition printable (c : ascii) : bool :=
  let n := code c in
  ((32 <=? n) && (n <=? 126)) || ((161 <=? n) && negb (n =? 173)).

Definition backslash : ascii := ascii_of_nat 92.
Definition dquote : ascii := ascii_of_nat 34.
Definition squote : ascii := ascii_of_nat 39.

Definition str1 (c : ascii) : string := String c EmptyString.
Definition str2 (c d : ascii) : string := String c (str1 d).

Definition escape_char (q : ascii) (c : ascii) : string :=
  let n := code c in
  if ascii_dec c q then str2 backslash c
  else if n =? 92 then str2 backslash backslash
  else if n =? 9 then str2 backslash "t"
  else if n =? 10 then str2 backslash "n"
  else if n =? 13 then str2 backslash "r"
  else if printable c then str1 c
  else String backslash (String "x" (str2 (hex_digit (n / 16)) (hex_digit (n mod 16)))).

Fixpoint escape (q : ascii) (s : string) : string :=
  match s with
  | EmptyString => EmptyString
  | String c t => escape_char q c +:+ escape q t
  end.

(** [repr(s)]: single quotes, unless the string has a single quote and no
    double quote. *)
Definition repr (s : string) : string :=
  let q := if str_in (str1 squote) s && negb (str_in (str1 dquote) s)
           then dquote else squote in
  String q (escape q s +:+ str1 q).

(** [repr] of a list of strings, as [str(list(d.keys()))] prints it. *)
Definition repr_list (l : list string) : string :=
  "[" +:+ join ", " (map repr l) +:+ "]".

End PyStr.

(** ** Python values, the object store and exceptions *)

Definition loc := nat.

(** The values the orchestrator handles: [None], booleans, integers,
    strings, and references to the mutable objects (mappings with string
    keys, and lists).  Floats, tuples, sets and bytes do not occur in the
    orchestrator's own code and are left out. *)
Inductive val : Type :=
| VNone
| VBool (b : bool)
| VInt (z : Z)
| VStr (s : string)
| VRef (l : loc).

(** A [dict] keeps its keys in insertion order. *)
Inductive obj : Type :=
| ODict (d : list (string * val))
| OList (l : list val).

Abbreviation heap := (list obj).

(** An exception: its class and [str(e)]. *)
Record exn : Type := Exn { exn_class : string; exn_msg : string }.

Inductive outcome (A : Type) : Type :=
| Ok (a : A)
| Raise (e : exn).
Arguments Ok {A} a.
Arguments Raise {A} e.

#[global] Instance val_eq_dec : EqDecision val.
Proof. solve_decision. Defined.

(** One call [agent.handle(sub_task)]: the argument, the store at the call
    and what the handler did.  The trace is written by [call_handle] only
    and read by no definition: it is there to state what was dispatched. *)
Record dispatch : Type := Dispatch {
  d_task : val;
  d_heap : heap;
  d_outcome : outcome val
}.

Record state : Type := State {
  st_heap : heap;
  st_trace : list dispatch
}.

(** Computations: they read and write the store, and return or raise. *)
Definition M (A : Type) : Type := state -> outcome A * state.

Definition ret {A} (a : A) : M A := fun s => (Ok a, s).

Definition bind {A B} (m : M A) (f : A -> M B) : M B :=
  fun s =>
    match m s with
    | (Ok a, s') => f a s'
    | (Raise e, s') => (Raise e, s')
    end.

Notation "x <- m ;; k" := (bind m (fun x => k))
  (at level 100, m at next level, right associativity).

Definition raise {A} (e : exn) : M A := fun s => (Raise e, s).

(** [try: m except Exception as e: ...] hands the outcome to the caller. *)
Definition try_ {A} (m : M A) : M (outcome A) :=
  fun s => let (o, s') := m s in (Ok o, s').

(** A computation that does not touch the store. *)
Definition lift {A} (o : outcome A) : M A := fun s => (o, s).

Definition outcome_bind {A B} (o : outcome A) (f : A -> outcome B) : outcome B :=
  match o with
  | Ok a => f a
  | Raise e => Raise e
  end.

Notation "x <-? o ;; k" := (outcome_bind o (fun x => k))
  (at level 100, o at next level, right associativity).

(** [l[i]] *)
Definition index {A} (l : list A) (i : nat) : outcome A :=
  match l !! i with
  | Some x => Ok x
  | None => Raise (Exn "IndexError" "list index out of range")
  end.

Definition get_heap : M heap := fun s => (Ok (st_heap s), s).

Definition alloc (o : obj) : M val :=
  fun s => (Ok (VRef (length (st_heap s))),
            {| st_heap := st_heap s ++ [o]; st_trace := st_trace s |}).

Definition store (l : loc) (o : obj) : M unit :=
  fun s => (Ok tt, {| st_heap := <[l := o]> (st_heap s); st_trace := st_trace s |}).

(** A capability handler, [handle(task)]: it may read and write the store,
    and returns a value or raises. *)
Definition agent := val -> heap -> outcome val * heap.

Definition call_handle (a : agent) (t : val) : M val :=
  fun s =>
    let (o, h') := a t (st_heap s) in
    (o, {| st_heap := h';
           st_trace := st_trace s ++ [Dispatch t (st_heap s) o] |}).

(** *** Mappings as association lists *)

Fixpoint assoc_get (k : string) (d : list (string * val)) : option val :=
  match d with
  | [] => None
  | (k', v) :: t => if decide (k = k') then Some v else assoc_get k t
  end.

(** [d[k] = v]: an existing key keeps its place. *)
Fixpoint assoc_set (k : string) (v : val) (d : list (string * val))
  : list (string * val) :=
  match d with
  | [] => [(k, v)]
  | (k', v') :: t =>
      if decide (k = k') then (k, v) :: t else (k', v') :: assoc_set k v t
  end.

Definition assoc_mem (k : string) (d : list (string * val)) : bool :=
  bool_decide (is_Some (assoc_get k d)).

(** *** The operations of Python the orchestrator uses *)

Definition type_name (h : heap) (v : val) : string :=
  match v with
  | VNone => "NoneType"
  | VBool _ => "bool"
  | VInt _ => "int"
  | VStr _ => "str"
  | VRef l => match h !! l with
              | Some (OList _) => "list"
              | _ => "dict"
              end
  end.

Definition as_dict (h : heap) (v : val) : option (list (string * val)) :=
  match v with
  | VRef l => match h !! l with Some (ODict d) => Some d | _ => None end
  | _ => None
  end.

Definition as_list (h : heap) (v : val) : option (list val) :=
  match v with
  | VRef l => match h !! l with Some (OList d) => Some d | _ => None end
  | _ => None
  end.

Definition AttributeError (h : heap) (v : val) (attr : string) : exn :=
  Exn "AttributeError"
      ("'" +:+ type_name h v +:+ "' object has no attribute '" +:+ attr +:+ "'").

Definition KeyError (k : string) : exn := Exn "KeyError" (PyStr.repr k).

Definition TypeError (msg : string) : exn := Exn "TypeError" msg.

(** [isinstance(v, dict)] and [isinstance(v, list)] *)
Definition isinstance_dict (v : val) : M bool :=
  h <- get_heap;; ret (bool_decide (is_Some (as_dict h v))).

Definition isinstance_list (v : val) : M bool :=
  h <- get_heap;; ret (bool_decide (is_Some (as_list h v))).

(** [o.get(k, dflt)] *)
Definition py_get (o : val) (k : string) (dflt : val) : M val :=
  h <- get_heap;;
  match as_dict h o with
  | Some d => ret (default dflt (assoc_get k d))
  | None => raise (AttributeError h o "get")
  end.

(** [o[k]] for a string [k] *)
Definition py_getitem (o : val) (k : string) : M val :=
  h <- get_heap;;
  match as_dict h o with
  | Some d =>
      match assoc_get k d with
      | Some v => ret v
      | None => raise (KeyError k)
      end
  | None =>
      raise (TypeError
        match o with
        | VStr _ => "string indices must be integers, not 'str'"
        | VRef _ => "list indices must be integers or slices, not str"
        | _ => "'" +:+ type_name h o +:+ "' object is not subscriptable"
        end)
  end.

(** [o[k] = v] for a string [k] *)
Definition py_setitem (o : val) (k : string) (v : val) : M unit :=
  h <- get_heap;;
  match o, as_dict h o with
  | VRef l, Some d => store l (ODict (assoc_set k v d))
  | VRef _, None =>
      raise (TypeError "list indices must be integers or slices, not str")
  | _, _ =>
      raise (TypeError ("'" +:+ type_name h o
                        +:+ "' object does not support item assignment"))
  end.

(** [o.copy()]: a new object with the same entries (a shallow copy). *)
Definition py_copy (o : val) : M val :=
  h <- get_heap;;
  match o with
  | VRef l =>
      match h !! l with
      | Some ob => alloc ob
      | None => raise (AttributeError h o "copy")
      end
  | _ => raise (AttributeError h o "copy")
  end.

(** [o.setdefault(k, dflt)] *)
Definition py_setdefault (o : val) (k : string) (dflt : val) : M val :=
  h <- get_heap;;
  match o, as_dict h o with
  | VRef l, Some d =>
      match assoc_get k d with
      | Some v => ret v
      | None => _ <- store l (ODict (assoc_set k dflt d));; ret dflt
      end
  | _, _ => raise (AttributeError h o "setdefault")
  end.

(** [k in o] for a string [k]: a key of a mapping, a substring of a string,
    an element of a list. *)
Definition py_contains (k : string) (o : val) : M bool :=
  h <- get_heap;;
  match o with
  | VStr s => ret (PyStr.str_in k s)
  | VRef l =>
      match h !! l with
      | Some (ODict d) => ret (assoc_mem k d)
      | Some (OList vs) => ret (bool_decide (VStr k ∈ vs))
      | None => raise (TypeError "argument of type 'object' is not iterable")
      end
  | _ => raise (TypeError ("argument of type '" +:+ type_name h o
                           +:+ "' is not iterable"))
  end.

(** The truth value of [v], as [if v] and [not v] take it. *)
Definition truthy (h : heap) (v : val) : bool :=
  match v with
  | VNone => false
  | VBool b => b
  | VInt z => negb (z =? 0)%Z
  | VStr s => negb (bool_decide (s = EmptyString))
  | VRef l =>
      match h !! l with
      | Some (ODict d) => negb (bool_decide (d = []))
      | Some (OList vs) => negb (bool_decide (vs = []))
      | None => true
      end
  end.

(** [str(v)] of a hashable value, as an f-string prints it.  (A reference
    is never printed by the code below: looking it up in the registry
    raises first.) *)
Definition py_str (v : val) : string :=
  match v with
  | VNone => "None"
  | VBool true => "True"
  | VBool false => "False"
  | VInt z => pretty z
  | VStr s => s
  | VRef _ => "<object>"
  end.

(** ** The oracle and [ast.literal_eval] *)

(** What [ast.literal_eval] returns: a tree of new objects, nothing shared. *)
#[warnings="-register-all"]
Inductive lit : Type :=
| LNone
| LBool (b : bool)
| LInt (z : Z)
| LStr (s : string)
| LList (l : list lit)
| LDict (d : list (string * lit)).

Fixpoint mapM {A B} (f : A -> M B) (l : list A) : M (list B) :=
  match l with
  | [] => ret []
  | x :: t => y <- f x;; r <- mapM f t;; ret (y :: r)
  end.

(** A mapping display [{k1: v1, ...}]: a repeated key keeps its first place
    and its last value. *)
Definition dict_of (kvs : list (string * val)) : list (string * val) :=
  fold_left (fun acc kv => assoc_set kv.1 kv.2 acc) kvs [].

(** Building the objects of a literal in the store. *)
Fixpoint alloc_lit (x : lit) : M val :=
  match x with
  | LNone => ret VNone
  | LBool b => ret (VBool b)
  | LInt z => ret (VInt z)
  | LStr s => ret (VStr s)
  | LList l => vs <- mapM alloc_lit l;; alloc (OList vs)
  | LDict d =>
      kvs <- mapM (fun '(k, y) => v <- alloc_lit y;; ret (k, v)) d;;
      alloc (ODict (dict_of kvs))
  end.

(** The prompts sent to the model.  The text of a prompt is a function of
    the data below and of the store (it prints the task), so an oracle is
    taken as a function of these. *)
Inductive prompt : Type :=
| AgentTypePrompt (descriptions : list (string * string)) (task : val)
| ClassifyPrompt (available_agents : list string) (text : val)
| DecomposePrompt (available_agents : list string) (task : val)
| QueryPrompt (query : val).

(** [generate_content_async(prompt)] followed by reading the reply's text
    ([getattr(response, 'text', '')]): the text, or the exception either
    step raised. *)
Definition oracle := prompt -> heap -> outcome string.

Definition ask (g : oracle) (p : prompt) : M string :=
  fun s => (g p (st_heap s), s).

(** ** The orchestrator *)

Record Orchestrator : Type := {
  agents : list (string * option agent);
  agent_descriptions : list (string * string);
  default_agent_type : string;
  gemini_model : option oracle
}.

Definition keys {A} (d : list (string * A)) : list string := map fst d.

(** Entry [k] of the registry, when [k] is one of its keys. *)
Fixpoint registry_get (k : string) (d : list (string * option agent))
  : option (option agent) :=
  match d with
  | [] => None
  | (k', a) :: t => if decide (k = k') then Some a else registry_get k t
  end.

Fixpoint registry_set (k : string) (a : option agent)
  (d : list (string * option agent)) : list (string * option agent) :=
  match d with
  | [] => [(k, a)]
  | (k', a') :: t =>
      if decide (k = k') then (k, a) :: t else (k', a') :: registry_set k a t
  end.

(** [self.agents.get(agent_type)]: [None] for a missing key and for a slot
    holding [None]; a mapping or a list cannot be hashed. *)
Definition agents_get (self : Orchestrator) (agent_type : val)
  : M (option agent) :=
  match agent_type with
  | VStr k => ret (mjoin (registry_get k (agents self)))
  | VRef _ =>
      h <- get_heap;;
      raise (TypeError ("unhashable type: '" +:+ type_name h agent_type +:+ "'"))
  | _ => ret None
  end.

(** [x in self.agents] *)
Definition in_agents (self : Orchestrator) (k : string) : bool :=
  bool_decide (k ∈ keys (agents self)).

Section Orchestrator.

(** [ast.literal_eval] of the standard library. *)
Variable literal_eval : string -> outcome lit.

Definition literal_eval_m (s : string) : M val :=
  match literal_eval s with
  | Ok x => alloc_lit x
  | Raise e => raise e
  end.

(** "Remove code block formatting if present" *)
Definition strip_code_block (response_text : string) : outcome string :=
  if PyStr.startswith "```python" response_text then
    a <-? index (PyStr.split "```python" response_text) 1;;
    b <-? index (PyStr.split "```" a) 0;;
    Ok (PyStr.strip b)
  else if PyStr.startswith "```json" response_text then
    a <-? index (PyStr.split "```json" response_text) 1;;
    b <-? index (PyStr.split "```" a) 0;;
    Ok (PyStr.strip b)
  else if PyStr.startswith "```" response_text then
    a <-? index (PyStr.split "```" response_text) 1;;
    Ok (PyStr.strip a)
  else Ok response_text.

(** [all(isinstance(st, dict) for st in sub_tasks)] *)
Fixpoint all_dicts (l : list val) : M bool :=
  match l with
  | [] => ret true
  | v :: t => b <- isinstance_dict v;; if b then all_dicts t else ret false
  end.

(** [decompose_task]: the list it returns is not shared with anything, so
    it is returned as the list of its elements. *)
Definition decompose_task (self : Orchestrator) (task : val)
  : M (list val) :=
  match gemini_model self with
  | None => ret [task]
  | Some model =>
      r <- try_ (
        text <- ask model (DecomposePrompt (keys (agents self)) task);;
        response_text <- lift (strip_code_block (PyStr.strip text));;
        sub_tasks <- literal_eval_m response_text;;
        h <- get_heap;;
        match as_list h sub_tasks with
        | Some l => b <- all_dicts l;; ret (if b then l else [task])
        | None => ret [task]
        end);;
      match r with
      | Ok l => ret l
      | Raise _ => ret [task]
      end
  end.

(** Line 229: [all(idx == 0 or not sub_tasks[idx]["payload"].get("input")
    for idx in range(len(sub_tasks)))], which stops at the first false. *)
Fixpoint can_run_concurrent (idx : nat) (sub_tasks : list val) : M bool :=
  match sub_tasks with
  | [] => ret true
  | sub_task :: rest =>
      b <- (if decide (idx = 0) then ret true
           else
             payload <- py_getitem sub_task "payload";;
             input <- py_get payload "input" VNone;;
             h <- get_heap;;
             ret (negb (truthy h input)));;
      if b then can_run_concurrent (S idx) rest else ret false
  end.

(** The inner function [run_agent] of the concurrent branch. *)
Definition run_agent (self : Orchestrator) (sub_task : val) (idx : nat)
  : M val :=
  agent_type <- py_get sub_task "type" VNone;;
  agent <- agents_get self agent_type;;
  match agent with
  | None =>
      alloc (ODict [("error", VStr ("No agent for type: " +:+ py_str agent_type))])
  | Some a =>
      r <- try_ (call_handle a sub_task);;
      match r with
      | Ok result => ret result
      | Raise e =>
          alloc (ODict [("error", VStr ("Agent '" +:+ py_str agent_type
                                        +:+ "' failed: " +:+ exn_msg e));
                        ("sub_task", sub_task)])
      end
  end.

(** [asyncio.gather] over [run_agent(st, idx) for idx, st in
    enumerate(sub_tasks)], without [return_exceptions]: every coroutine is
    started, in the order of the list, before the caller goes on, and the
    exception of one of them stops none of the others.  A handler is one
    atomic step here (the interleaving of handlers at their own [await]
    points is not modelled), so every [run_agent] runs to its end, in that
    order, whether or not an earlier one raised. *)
Fixpoint run_agents (self : Orchestrator) (idx : nat) (sub_tasks : list val)
  : M (list (outcome val)) :=
  match sub_tasks with
  | [] => ret []
  | sub_task :: rest =>
      r <- try_ (run_agent self sub_task idx);;
      rs <- run_agents self (S idx) rest;;
      ret (r :: rs)
  end.

(** What [await asyncio.gather(...)] gives the caller: the results in the
    order of the coroutines, or the first exception. *)
Fixpoint gathered (rs : list (outcome val)) : outcome (list val) :=
  match rs with
  | [] => Ok []
  | Ok r :: rest => results <-? gathered rest;; Ok (r :: results)
  | Raise e :: _ => Raise e
  end.

Definition gather (self : Orchestrator) (idx : nat) (sub_tasks : list val)
  : M (list val) :=
  rs <- run_agents self idx sub_tasks;;
  lift (gathered rs).

(** Lines 260-262: the sub-task handed to the agent when the previous
    result is chained. *)
Definition chain_input (sub_task prev_result : val) : M val :=
  sub_task <- py_copy sub_task;;
  empty <- alloc (ODict []);;
  _ <- py_setdefault sub_task "payload" empty;;
  payload <- py_getitem sub_task "payload";;
  _ <- py_setitem payload "input" prev_result;;
  ret sub_task.

(** The body of the sequential loop (lines 252-273): it returns the result
    to append and the new [prev_result]. *)
Definition sequential_step (self : Orchestrator) (idx : nat)
  (sub_task prev_result : val) : M (val * val) :=
  agent_type <- py_get sub_task "type" VNone;;
  agent <- agents_get self agent_type;;
  match agent with
  | None =>
      e <- alloc (ODict [("error", VStr ("No agent for type: " +:+ py_str agent_type))]);;
      ret (e, prev_result)
  | Some a =>
      sub_task <- (if bool_decide (0 < idx) && negb (bool_decide (prev_result = VNone))
                  then chain_input sub_task prev_result
                  else ret sub_task);;
      r <- try_ (call_handle a sub_task);;
      match r with
      | Ok result => ret (result, result)
      | Raise e =>
          err <- alloc (ODict [("error", VStr ("Agent '" +:+ py_str agent_type
                                              +:+ "' failed: " +:+ exn_msg e));
                              ("sub_task", sub_task)]);;
          ret (err, VNone)
      end
  end.

(** [for idx, sub_task in enumerate(sub_tasks)] *)
Fixpoint run_sequential (self : Orchestrator) (idx : nat)
  (sub_tasks : list val) (prev_result : val) (results : list val)
  : M (list val) :=
  match sub_tasks with
  | [] => ret results
  | sub_task :: rest =>
      step <- sequential_step self idx sub_task prev_result;;
      run_sequential self (S idx) rest step.2 (results ++ [step.1])
  end.

(** [isinstance(r, dict) and "error" not in r] *)
Definition error_free (r : val) : M bool :=
  b <- isinstance_dict r;;
  if b then c <- py_contains "error" r;; ret (negb c) else ret false.

Fixpoint all_error_free (results : list val) : M bool :=
  match results with
  | [] => ret true
  | r :: t => b <- error_free r;; if b then all_error_free t else ret false
  end.

(** "Return results based on success or error" (lines 275-285).  The list
    [results] is seen by nothing but the composite, so it is put in the
    store when the composite is built. *)
Definition aggregate (results : list val) : M val :=
  match results with
  | [] => alloc (ODict [("error", VStr "No results generated from task execution.")])
  | r0 :: _ =>
      single <- (if decide (length results = 1)
                then c <- py_contains "error" r0;; ret (negb c)
                else ret false);;
      if single then ret r0
      else
        ok <- all_error_free results;;
        if ok then ret (List.last results VNone)
        else
          l <- alloc (OList results);;
          alloc (ODict [("final_status", VStr "Completed with errors or multiple results");
                        ("results", l)])
  end.

(** [handle_task] after the decomposition. *)
Definition execute_sub_tasks (self : Orchestrator) (sub_tasks : list val)
  : M val :=
  can <- can_run_concurrent 0 sub_tasks;;
  results <- (if can && bool_decide (1 < length sub_tasks)
             then gather self 0 sub_tasks
             else run_sequential self 0 sub_tasks VNone []);;
  aggregate results.

Definition handle_task (self : Orchestrator) (task : val) : M val :=
  sub_tasks <- (match gemini_model self with
               | Some _ => decompose_task self task
               | None => ret [task]
               end);;
  execute_sub_tasks self sub_tasks.

(** [_get_agent_type_from_gemini] *)
Definition _get_agent_type_from_gemini (self : Orchestrator) (task : val)
  : M val :=
  match gemini_model self with
  | None => py_get task "type" VNone
  | Some model =>
      let available_agents := keys (agents self) in
      r <- try_ (
        text <- ask model (AgentTypePrompt (agent_descriptions self) task);;
        let response_text := PyStr.strip text in
        if bool_decide (response_text = EmptyString)
        then py_get task "type" VNone
        else
          determined_type <- lift (index (PyStr.split_ws response_text) 0);;
          if negb (bool_decide (determined_type = EmptyString))
             && bool_decide (determined_type ∈ available_agents)
          then ret (VStr determined_type)
          else py_get task "type" VNone);;
      match r with
      | Ok v => ret v
      | Raise _ => py_get task "type" VNone
      end
  end.

(** [x in self.agents] for a value [x] *)
Definition py_in_agents (self : Orchestrator) (x : val) : M bool :=
  match x with
  | VStr k => ret (in_agents self k)
  | VRef _ =>
      h <- get_heap;;
      raise (TypeError ("unhashable type: '" +:+ type_name h x +:+ "'"))
  | _ => ret false
  end.

Definition route_task (self : Orchestrator) (task : val) : M val :=
  r <- try_ (
    agent_type <- py_get task "type" VNone;;
    agent_type <-
      (match gemini_model self with
       | Some _ =>
           determined_agent_type <- _get_agent_type_from_gemini self task;;
           h <- get_heap;;
           known <- (if truthy h determined_agent_type
                     then py_in_agents self determined_agent_type
                     else ret false);;
           if known then ret determined_agent_type
           else if negb (truthy h agent_type)
                then ret (VStr (default_agent_type self))
                else ret agent_type
       | None => ret agent_type
       end);;
    agent <- agents_get self agent_type;;
    match agent with
    | Some a =>
        r <- try_ (call_handle a task);;
        match r with
        | Ok result => ret result
        | Raise e =>
            alloc (ODict [("error", VStr ("Sorry, the agent '" +:+ py_str agent_type
                             +:+ "' encountered an issue. Please try again later."));
                          ("details", VStr (exn_msg e))])
        end
    | None =>
        alloc (ODict [("error", VStr ("Sorry, I couldn't find an agent for your request (type: '"
                         +:+ py_str agent_type +:+ "'). Available agents: "
                         +:+ PyStr.repr_list (keys (agents self))))])
    end);;
  match r with
  | Ok v => ret v
  | Raise e =>
      alloc (ODict [("error", VStr "Sorry, something went wrong while routing your request. Please try again later.");
                    ("details", VStr (exn_msg e))])
  end.

(** The rule-based classifier of [classify_task] (lines 191-201). *)
Definition fallback_type (self : Orchestrator) (lowered : string) : string :=
  if PyStr.str_in "search" lowered then "web_search"
  else if PyStr.str_in "data" lowered || PyStr.str_in "fetch" lowered
  then "data_retrieval"
  else if PyStr.str_in "report" lowered then "report_generation"
  else if PyStr.str_in "dashboard" lowered || PyStr.str_in "analy" lowered
  then "analysis_dashboard"
  else default_agent_type self.

(** The lower-cased text of line 191: the text, or the empty string when
    the text is false, then [lower()]. *)
Definition lowered_text (text : val) : M string :=
  h <- get_heap;;
  match (if truthy h text then text else VStr EmptyString) with
  | VStr s => ret (PyStr.lower s)
  | v => raise (AttributeError h v "lower")
  end.

Definition classify_task (self : Orchestrator) (text user channel : val)
  : M val :=
  classified <-
    (match gemini_model self with
     | Some model =>
         r <- try_ (
           reply <- ask model (ClassifyPrompt (keys (agents self)) text);;
           task_dict_str <- lift (strip_code_block (PyStr.strip reply));;
           parsed_task <- literal_eval_m task_dict_str;;
           is_d <- isinstance_dict parsed_task;;
           has_type <- (if is_d then py_contains "type" parsed_task else ret false);;
           has_payload <- (if has_type then py_contains "payload" parsed_task else ret false);;
           if has_payload then
             context <- alloc (ODict [("channel", channel)]);;
             _ <- alloc (ODict [("user", user); ("context", context)]);;
             _ <- py_setitem parsed_task "user" user;;
             _ <- py_setitem parsed_task "context" context;;
             ret (Some parsed_task)
           else ret None);;
         match r with
         | Ok (Some task_dict) => ret (Some task_dict)
         | _ => ret None
         end
     | None => ret None
     end);;
  match classified with
  | Some task_dict => ret task_dict
  | None =>
      lowered <- lowered_text text;;
      let task_type := fallback_type self lowered in
      payload <- alloc (ODict [("query", text)]);;
      context <- alloc (ODict [("channel", channel)]);;
      alloc (ODict [("type", VStr task_type);
                    ("payload", payload);
                    ("user", user);
                    ("context", context)])
  end.

End Orchestrator.

(** ** The agents of [src/agents] and the wiring of [instance.py] *)

(** A handler written with the operations above. *)
Definition handler (f : val -> M val) : agent :=
  fun task h =>
    let (o, s) := f task {| st_heap := h; st_trace := [] |} in (o, st_heap s).

Definition stub (report : string) : agent :=
  handler (fun _ => alloc (ODict [("report", VStr report)])).

Definition DataRetrievalAgent : agent :=
  stub "DataRetrievalAgent is a stub. Implement your logic here.".

Definition ReportGenerationAgent : agent :=
  stub "ReportGenerationAgent is a stub. Implement your logic here.".

Definition AnalysisDashboardAgent : agent :=
  stub "AnalysisDashboardAgent is a stub. Implement your logic here.".

Definition report_data (report : val) : M val :=
  data <- alloc (OList []);;
  alloc (ODict [("report", report); ("data", data)]).

(** [LLMResponseAgent(gemini_model).handle] *)
Definition LLMResponseAgent (gemini_model : option oracle) : agent :=
  handler (fun task =>
    empty <- alloc (ODict []);;
    payload <- py_get task "payload" empty;;
    prompt <- py_get payload "query" (VStr EmptyString);;
    h <- get_heap;;
    if negb (truthy h prompt) then report_data (VStr "No input provided.")
    else
      match gemini_model with
      | None => report_data (VStr "LLM is not available.")
      | Some model =>
          text <- ask model (QueryPrompt prompt);;
          report_data (VStr text)
      end).

(** The class [DummyLLMResponseAgent] of [instance.py]. *)
Definition DummyLLMResponseAgent : agent :=
  handler (fun _ => report_data (VStr "LLM is not available.")).

Definition DataRetrievalAgent_description : string :=
  "Handles data retrieval from databases, APIs, or files. Supports SQL/NoSQL queries, API calls, and returns structured data for downstream agents.".
Definition WebSearchAgent_description : string :=
  "Handles web search queries using external search APIs (Google, Bing, etc.), returns summarized and formatted results for Slack. Supports configurable number of results.".
Definition ReportGenerationAgent_description : string :=
  "Generates reports from provided data or queries. Supports Markdown, PDF, and CSV output. Can use LLM for summarization and content generation.".
Definition AnalysisDashboardAgent_description : string :=
  "Performs data analysis and generates dashboards or visualizations. Accepts structured data, applies statistical or pattern analysis, and outputs results as Slack-formatted summaries or images.".
Definition LLMResponseAgent_description : string :=
  "Directly answers user queries using the Gemini LLM for conversational or general-purpose responses.".

(** What the process finds when it starts: the [google.generativeai]
    module when it can be imported ([configure] followed by
    [GenerativeModel], which may raise), and [GEMINI_API_KEY]. *)
Record environment : Type := {
  genai : option (string -> outcome oracle);
  GEMINI_API_KEY : option string
}.

(** [a or b] on optional strings. *)
Definition or_else (a b : option string) : option string :=
  match a with
  | Some s => if bool_decide (s = EmptyString) then b else a
  | None => b
  end.

(** [Orchestrator.__init__] *)
Definition Orchestrator_init (env : environment)
  (agents_arg : list (string * (option agent * string)))
  (gemini_api_key : option string) (default_agent_type : string)
  : Orchestrator :=
  let api_key := or_else gemini_api_key (GEMINI_API_KEY env) in
  {| agents := map (fun kv => (kv.1, kv.2.1)) agents_arg;
     agent_descriptions := map (fun kv => (kv.1, kv.2.2)) agents_arg;
     default_agent_type := default_agent_type;
     gemini_model :=
       match genai env, or_else api_key None with
       | Some make, Some key =>
           match make key with
           | Ok model => Some model
           | Raise _ => None
           end
       | _, _ => None
       end |}.

Module Instance.
Section Wiring.

Variable env : environment.

(** [WebSearchAgent().handle] queries a search service over the
    network. *)
Variable WebSearchAgent : agent.

(** The module-level dictionary [agents]. *)
Definition agents_table : list (string * (option agent * string)) :=
  [ ("web_search", (Some WebSearchAgent, WebSearchAgent_description));
    ("data_retrieval", (Some DataRetrievalAgent, DataRetrievalAgent_description));
    ("report_generation", (Some ReportGenerationAgent, ReportGenerationAgent_description));
    ("analysis_dashboard", (Some AnalysisDashboardAgent, AnalysisDashboardAgent_description));
    ("llm_response", (None, LLMResponseAgent_description)) ].

(** [orchestrator = Orchestrator(agents, ...)], before the late binding. *)
Definition constructed : Orchestrator :=
  Orchestrator_init env agents_table (GEMINI_API_KEY env) "llm_response".

Definition set_agent (o : Orchestrator) (k : string) (a : agent)
  : Orchestrator :=
  {| agents := registry_set k (Some a) (agents o);
     agent_descriptions := agent_descriptions o;
     default_agent_type := default_agent_type o;
     gemini_model := gemini_model o |}.

(** The instance the late binding writes (lines 41-51). *)
Definition llm_instance : agent :=
  match gemini_model constructed with
  | Some model => LLMResponseAgent (Some model)
  | None => DummyLLMResponseAgent
  end.

(** [orchestrator] once the module has been imported. *)
Definition orchestrator : Orchestrator :=
  set_agent constructed "llm_response" llm_instance.

End Wiring.
End Instance.

(** ** An evaluator of literals

    [ast.literal_eval] is a parameter of the orchestrator above.  The
    examples need one that runs: this one reads [None], [True], [False],
    decimal integers, quoted strings without escapes, lists and mappings
    with string keys, as Python does, and raises a [SyntaxError] on
    everything else. *)
Module LiteralEval.

Inductive token : Type :=
| TSym (c : ascii)
| TStr (s : string)
| TWord (s : string).

Inductive mode : Type :=
| Between
| InStr (q : ascii) (acc : string)
| InWord (acc : string).

Definition is_sym (c : ascii) : bool :=
  bool_decide (c ∈ ["["; "]"; "{"; "}"; ","; ":"]%char).

Definition is_word_char (c : ascii) : bool :=
  let n := PyStr.code c in
  ((48 <=? n) && (n <=? 57)) || ((65 <=? n) && (n <=? 90))
  || ((97 <=? n) && (n <=? 122)).

(** Reading [c] when no token is open. *)
Definition start (c : ascii) : option (list token * mode) :=
  if PyStr.is_space c then Some ([], Between)
  else if is_sym c then Some ([TSym c], Between)
  else if bool_decide (c = PyStr.squote) || bool_decide (c = PyStr.dquote)
  then Some ([], InStr c EmptyString)
  else if is_word_char c then Some ([], InWord (PyStr.str1 c))
  else None.

Fixpoint lex (m : mode) (s : string) : option (list token) :=
  match s with
  | EmptyString =>
      match m with
      | Between => Some []
      | InWord acc => Some [TWord (String.rev acc)]
      | InStr _ _ => None
      end
  | String c t =>
      match m with
      | Between =>
          '(out, m') ← start c; r ← lex m' t; Some (out ++ r)
      | InStr q acc =>
          if bool_decide (c = q)
          then r ← lex Between t; Some (TStr (String.rev acc) :: r)
          else if bool_decide (c = PyStr.backslash) || (PyStr.code c =? 10)
          then None
          else lex (InStr q (String c acc)) t
      | InWord acc =>
          if is_word_char c then lex (InWord (String c acc)) t
          else '(out, m') ← start c; r ← lex m' t;
               Some (TWord (String.rev acc) :: out ++ r)
      end
  end.

Fixpoint digits (acc : Z) (s : string) : option Z :=
  match s with
  | EmptyString => Some acc
  | String c t =>
      let n := PyStr.code c in
      if (48 <=? n) && (n <=? 57)
      then digits (10 * acc + Z.of_nat (n - 48)) t
      else None
  end.

Definition word (s : string) : option lit :=
  if bool_decide (s = "None") then Some LNone
  else if bool_decide (s = "True") then Some (LBool true)
  else if bool_decide (s = "False") then Some (LBool false)
  else if PyStr.startswith "0" s && negb (bool_decide (s = "0")) then None
  else LInt <$> digits 0 s.

Fixpoint value (fuel : nat) (ts : list token) : option (lit * list token) :=
  match fuel with
  | O => None
  | S fuel =>
      match ts with
      | TWord w :: r => x ← word w; Some (x, r)
      | TStr s :: r => Some (LStr s, r)
      | TSym c :: r =>
          if bool_decide (c = "["%char) then items fuel r []
          else if bool_decide (c = "{"%char) then pairs fuel r []
          else None
      | [] => None
      end
  end
with items (fuel : nat) (ts : list token) (acc : list lit)
  : option (lit * list token) :=
  match fuel with
  | O => None
  | S fuel =>
      match ts with
      | TSym "]" :: r => Some (LList (rev acc), r)
      | _ =>
          '(x, r) ← value fuel ts;
          match r with
          | TSym "," :: r' => items fuel r' (x :: acc)
          | TSym "]" :: r' => Some (LList (rev (x :: acc)), r')
          | _ => None
          end
      end
  end
with pairs (fuel : nat) (ts : list token) (acc : list (string * lit))
  : option (lit * list token) :=
  match fuel with
  | O => None
  | S fuel =>
      match ts with
      | TSym "}" :: r => Some (LDict (rev acc), r)
      | TStr k :: TSym ":" :: r =>
          '(x, r) ← value fuel r;
          match r with
          | TSym "," :: r' => pairs fuel r' ((k, x) :: acc)
          | TSym "}" :: r' => Some (LDict (rev ((k, x) :: acc)), r')
          | _ => None
          end
      | _ => None
      end
  end.

Definition literal_eval (s : string) : outcome lit :=
  match ts ← lex Between s; value (S (length ts)) ts with
  | Some (x, []) => Ok x
  | _ => Raise (Exn "SyntaxError" "invalid syntax")
  end.

End LiteralEval.

(** ** Reading the store *)

Definition is_dict (h : heap) (v : val) : bool :=
  bool_decide (is_Some (as_dict h v)).

(** The value under the chaining key ["input"] of the payload of [t]. *)
Definition payload_input (h : heap) (t : val) : option val :=
  d ← as_dict h t;
  p ← assoc_get "payload" d;
  pd ← as_dict h p;
  assoc_get "input" pd.

(** [r] is a mapping without the key ["error"]. *)
Definition error_free_in (h : heap) (r : val) : bool :=
  match as_dict h r with
  | Some d => negb (assoc_mem "error" d)
  | None => false
  end.

(** The text under the key ["error"] of the mapping [r]. *)
Definition error_text (h : heap) (r : val) : option string :=
  d ← as_dict h r;
  match assoc_get "error" d with
  | Some (VStr e) => Some e
  | _ => None
  end.

(** The value of [t.get("type")] and the handler registered for it. *)
Definition type_of (h : heap) (t : val) : option val :=
  d ← as_dict h t; Some (default VNone (assoc_get "type" d)).

Definition agent_of (self : Orchestrator) (h : heap) (t : val) : option agent :=
  ty ← type_of h t;
  match ty with
  | VStr k => mjoin (registry_get k (agents self))
  | _ => None
  end.

(** The error Results the engine builds. *)
Definition no_agent_error (ty : val) : obj :=
  ODict [("error", VStr ("No agent for type: " +:+ py_str ty))].

Definition agent_failed_error (ty : val) (e : exn) (sub_task : val) : obj :=
  ODict [("error", VStr ("Agent '" +:+ py_str ty +:+ "' failed: " +:+ exn_msg e));
         ("sub_task", sub_task)].

(** [st] has a payload and it is a mapping. *)
Definition has_payload (h : heap) (st : val) : bool :=
  match as_dict h st with
  | Some d =>
      match assoc_get "payload" d with
      | Some p => is_dict h p
      | None => false
      end
  | None => false
  end.

(** [st] comes with a true value under the chaining key of its payload:
    [sub_task["payload"].get("input")] is true. *)
Definition declares_input (h : heap) (st : val) : bool :=
  truthy h (default VNone (payload_input h st)).

(** The error Result of the router for a type without handler. *)
Definition agent_not_found_text (self : Orchestrator) (ty : val) : string :=
  "Sorry, I couldn't find an agent for your request (type: '"
  +:+ py_str ty +:+ "'). Available agents: "
  +:+ PyStr.repr_list (keys (agents self)).

Definition is_ldict (x : lit) : bool :=
  match x with
  | LDict _ => true
  | _ => false
  end.

(** The dispatches made between two states. *)
Definition new_dispatches (s s' : state) : list dispatch :=
  drop (length (st_trace s)) (st_trace s').

(** The handler returned a Result (and not [None]). *)
Definition succeeded (d : dispatch) : Prop :=
  exists r, d_outcome d = Ok r /\ r ≠ VNone.

Definition result_of (d : dispatch) : val :=
  match d_outcome d with
  | Ok r => r
  | Raise _ => VNone
  end.

(** Each dispatch of [ds] received, under the chaining key, the result of
    the dispatch before it; the first one received [prev] when there is
    one. *)
Fixpoint chained (prev : option val) (ds : list dispatch) : Prop :=
  match ds with
  | [] => True
  | d :: t =>
      match prev with
      | Some p => payload_input (d_heap d) (d_task d) = Some p
      | None => True
      end
      /\ chained (Some (result_of d)) t
  end.

(** What the loop chains into step [idx]. *)
Definition pending (idx : nat) (prev_result : val) : option val :=
  if bool_decide (0 < idx) && negb (bool_decide (prev_result = VNone))
  then Some prev_result else None.

(** Operations that never dispatch leave the trace alone. *)
Definition silent {A} (m : M A) : Prop :=
  forall s o s', m s = (o, s') -> st_trace s' = st_trace s.

(** The composite Result of [aggregate]. *)
Definition composite (results : val) : obj :=
  ODict [("final_status", VStr "Completed with errors or multiple results");
         ("results", results)].

Definition no_results_error : obj :=
  ODict [("error", VStr "No results generated from task execution.")].

(** A computation that only adds objects at the end of the store and
    returns; [Q] holds of what it returns in every larger store. *)
Definition grows {A B} (f : A -> M B) (Q : A -> B -> heap -> Prop) (a : A)
  : Prop :=
  forall s, exists b ext,
    f a s = (Ok b, {| st_heap := st_heap s ++ ext; st_trace := st_trace s |})
    /\ forall ext', Q a b (st_heap s ++ ext ++ ext').

(** ** The agents and the orchestrator of [tests/test_orchestrator.py] *)
Module Fixture.

(** [DummyAgent.handle] returns [{"handled_by": <class name>, "task": task}]. *)
Definition DummyAgent (class_name : string) : agent :=
  handler (fun task => alloc (ODict [("handled_by", VStr class_name); ("task", task)])).


Definition registry : list (string * option agent) :=
  [ ("web_search", Some (DummyAgent "DummyAgent"));
    ("data_retrieval", Some (DummyAgent "DataRetrievalAgent"));
    ("analysis", Some (DummyAgent "AnalysisAgent"));
    ("report_generation", Some (DummyAgent "ReportGenerationAgent"));
    ("analysis_dashboard", Some (DummyAgent "AnalysisDashboardAgent")) ].

(** An oracle that answers every prompt with the same text, as the mocked
    model of the tests does. *)
Definition replies (text : string) : oracle := fun _ _ => Ok text.

Definition orchestrator_instance (model : option oracle) : Orchestrator :=
  {| agents := registry;
     agent_descriptions := [];
     default_agent_type := "web_search";
     gemini_model := model |}.

(** The task of the tests, [{"type": "complex_report", "payload":
    {"topic": ..., "output_format": "pdf"}, "user": "U1", "context": {}}],
    at location 2 of the store. *)
Definition task_store : state :=
  {| st_heap :=
       [ ODict [("topic", VStr "Q3 Sales Performance"); ("output_format", VStr "pdf")];
         ODict [];
         ODict [("type", VStr "complex_report"); ("payload", VRef 0);
                ("user", VStr "U1"); ("context", VRef 1)] ];
     st_trace := [] |}.

Definition task : val := VRef 2.


(** Three sub-tasks, as the mocked decomposition of the tests gives them,
    the second one declaring its input. *)
Definition sub_tasks_store : state :=
  {| st_heap :=
       [ ODict [("source", VStr "database")];
         ODict [("type", VStr "data_retrieval"); ("payload", VRef 0)];
         ODict [("analysis_type", VStr "trend"); ("input", VStr "sales")];
         ODict [("type", VStr "analysis"); ("payload", VRef 2)];
         ODict [("report_format", VStr "pdf")];
         ODict [("type", VStr "report_generation"); ("payload", VRef 4)] ];
     st_trace := [] |}.

Definition sub_tasks : list val := [VRef 1; VRef 3; VRef 5].

(** The same, with a second sub-task of a type that is not registered. *)
Definition forecast_store : state :=
  {| st_heap :=
       [ ODict [("source", VStr "database")];
         ODict [("type", VStr "data_retrieval"); ("payload", VRef 0)];
         ODict [("input", VStr "sales")];
         ODict [("type", VStr "forecast"); ("payload", VRef 2)];
         ODict [("report_format", VStr "pdf")];
         ODict [("type", VStr "report_generation"); ("payload", VRef 4)] ];
     st_trace := [] |}.

(** Two sub-tasks, the second with [None] under the chaining key. *)
Definition none_input_store : state :=
  {| st_heap :=
       [ ODict [("source", VStr "database")];
         ODict [("type", VStr "data_retrieval"); ("payload", VRef 0)];
         ODict [("input", VNone)];
         ODict [("type", VStr "analysis"); ("payload", VRef 2)] ];
     st_trace := [] |}.

(** Two Results, the second an error Result. *)
Definition results_store : state :=
  {| st_heap :=
       [ ODict [("report", VStr "DataRetrievalAgent is a stub. Implement your logic here.")];
         ODict [("error", VStr "No agent for type: forecast")] ];
     st_trace := [] |}.

(** Answers of the oracle to the decomposition prompt. *)
Definition missing_payload_reply : string :=
  "[{'type': 'data_retrieval', 'payload': {}}, {'type': 'report_generation'}]".

Definition chained_reply : string :=
  "[{'type': 'data_retrieval', 'payload': {'source': 'database'}}, {'type': 'analysis', 'payload': {'analysis_type': 'trend', 'input': 'sales'}}]".


End Fixture.

(** ** Reading the orchestrator *)

(** Operations that leave the state as it is. *)
Definition stable {A} (m : M A) : Prop :=
  forall s o s', m s = (o, s') -> s' = s.

(** The orchestrator without its model. *)
Definition without_model (self : Orchestrator) : Orchestrator :=
  {| agents := agents self;
     agent_descriptions := agent_descriptions self;
     default_agent_type := default_agent_type self;
     gemini_model := None |}.

(** The error Result of the router for a handler that raised. *)
Definition agent_issue_error (ty : val) (e : exn) : obj :=
  ODict [("error", VStr ("Sorry, the agent '" +:+ py_str ty
                         +:+ "' encountered an issue. Please try again later."));
         ("details", VStr (exn_msg e))].

(** The error Result of the router for anything else that went wrong. *)
Definition routing_error (e : exn) : obj :=
  ODict [("error", VStr "Sorry, something went wrong while routing your request. Please try again later.");
         ("details", VStr (exn_msg e))].

(** What a call of handler [a] on [task] leaves, as the router returns it. *)
Definition routed (a : agent) (ty : val) (task : val) (s : state)
  : outcome val * state :=
  match a task (st_heap s) with
  | (Ok result, h') =>
      (Ok result,
       {| st_heap := h';
          st_trace := st_trace s ++ [Dispatch task (st_heap s) (Ok result)] |})
  | (Raise e, h') =>
      (Ok (VRef (length h')),
       {| st_heap := h' ++ [agent_issue_error ty e];
          st_trace := st_trace s ++ [Dispatch task (st_heap s) (Raise e)] |})
  end.

(** A handler that only adds objects to the store. *)
Definition additive (a : agent) : Prop :=
  forall t h, exists ext, (a t h).2 = h ++ ext.

(** [t] is a task as [classify_task] returns them: a mapping with a type, a
    payload, the user, and a context holding the channel. *)
Definition classified_task (h : heap) (t user channel : val) : Prop :=
  exists d ty payload context,
    as_dict h t = Some d
    /\ assoc_get "type" d = Some ty
    /\ assoc_get "payload" d = Some payload
    /\ assoc_get "user" d = Some user
    /\ assoc_get "context" d = Some context
    /\ as_dict h context = Some [("channel", channel)].

(** ** The Slack events of [slack_interface/slack_events.py] *)

Module Slack.

(** [repr(v)].  A mapping or a list that contains itself prints as [{...}]
    or [[...]]: [seen] holds the containers being printed.  A container is
    entered once on a path, so the size of the store bounds the depth. *)
Fixpoint repr_go (fuel : nat) (h : heap) (seen : list loc) (v : val) : string :=
  match v with
  | VNone => "None"
  | VBool true => "True"
  | VBool false => "False"
  | VInt z => pretty z
  | VStr s => PyStr.repr s
  | VRef l =>
      match fuel, h !! l with
      | S fuel, Some (ODict d) =>
          if bool_decide (l ∈ seen) then "{...}"
          else "{" +:+ PyStr.join ", "
                 (map (fun kv => PyStr.repr kv.1 +:+ ": "
                                 +:+ repr_go fuel h (l :: seen) kv.2) d)
               +:+ "}"
      | S fuel, Some (OList vs) =>
          if bool_decide (l ∈ seen) then "[...]"
          else "[" +:+ PyStr.join ", " (map (repr_go fuel h (l :: seen)) vs)
               +:+ "]"
      | _, _ => "<object>"
      end
  end.

Definition repr (h : heap) (v : val) : string :=
  repr_go (S (length h)) h [] v.

(** [str(v)] *)
Definition str (h : heap) (v : val) : string :=
  match v with
  | VStr s => s
  | _ => repr h v
  end.

(** The methods of [slack_client] the module calls, with their keyword
    arguments. *)
Inductive api_call : Type :=
| chat_postMessage (channel text : val)
| reactions_add (channel timestamp name : val).

(** One call of the Slack client and how it ended.  Like the trace of the
    dispatches, the list of calls is written by [api] only and read by no
    definition. *)
Record call : Type := Call {
  c_api : api_call;
  c_outcome : outcome unit
}.

(** The environment of the process is a list of entries [NAME=VALUE]; an
    entry is cut at its first [=], so that the name of a variable holds
    none ([os.putenv] refuses such a name as well).  [os.getenv(name)]
    is the value of the first entry of that name, or [None]. *)
Fixpoint entry (e : string) : option (string * string) :=
  match e with
  | EmptyString => None
  | String c rest =>
      if bool_decide (c = "="%char) then Some (EmptyString, rest)
      else match entry rest with
           | Some (name, value) => Some (String c name, value)
           | None => None
           end
  end.

Fixpoint getenv (environ : list string) (name : string) : option string :=
  match environ with
  | [] => None
  | e :: rest =>
      match entry e with
      | Some (k, value) =>
          if bool_decide (k = name) then Some value else getenv rest name
      | None => getenv rest name
      end
  end.

(** The request of the endpoint: the two headers, each a string or [None]
    ([Header(None)]); [request.body()] followed by [body.decode()], the
    text of the body, unless one of the two raises; and [request.json()],
    the body read as JSON, unless it raises. *)
Record request : Type := Request {
  x_slack_signature : option string;
  x_slack_request_timestamp : option string;
  body : outcome string;
  json : outcome lit
}.

(** [f"{x}"] for a header. *)
Definition fstring (x : option string) : string :=
  match x with
  | Some s => s
  | None => "None"
  end.

Definition is_ascii (s : string) : bool :=
  forallb (fun c => bool_decide (nat_of_ascii c < 128)) (list_ascii_of_string s).

(** [hmac.compare_digest(a, b)] for the string [a] and the header [b]. *)
Definition compare_digest (a : string) (b : option string) : outcome bool :=
  match b with
  | None =>
      Raise (TypeError
        "unsupported operand types(s) or combination of types: 'str' and 'NoneType'")
  | Some b =>
      if is_ascii a && is_ascii b then Ok (bool_decide (a = b))
      else Raise (TypeError
             "comparing strings with non-ASCII characters is not supported")
  end.

Section Events.

Variable literal_eval : string -> outcome lit.

(** [orchestrator], imported from [orchestrator/instance.py]. *)
Variable orchestrator : Orchestrator.

(** [os.getenv("BOT_USER_ID")] *)
Variable BOT_USER_ID : option string.

(** The Slack service behind [slack_client]: a call is accepted or raises,
    and the service may change with it. *)
Variable client : Type.
Variable slack_client : api_call -> heap -> client -> outcome unit * client.

(** [os.environ] when the module is loaded. *)
Variable environ : list string.

(** [int(s)] for a string. *)
Variable int_of_str : string -> outcome Z.

(** [abs(time.time() - n) > 60 * 5] on the clock of the call; the
    subtraction raises for an [n] beyond the floats. *)
Variable late : Z -> outcome bool.

(** [str(HTTPException(status_code=400, detail=detail))], which depends
    on the version of the framework. *)
Variable HTTPException_str : string -> string.

(** [hmac.new(key.encode(), msg.encode(), hashlib.sha256).hexdigest()] *)
Variable hexdigest : string -> string -> string.

Definition HTTPException (detail : string) : exn :=
  Exn "HTTPException" (HTTPException_str detail).

(** [SLACK_SIGNING_SECRET = os.getenv("SLACK_S=IGNING_SECRET")] *)
Definition SLACK_SIGNING_SECRET : option string :=
  getenv environ "SLACK_S=IGNING_SECRET".

(** [int(x_slack_request_timestamp)] *)
Definition int (x : option string) : outcome Z :=
  match x with
  | Some s => int_of_str s
  | None =>
      Raise (TypeError
        "int() argument must be a string, a bytes-like object or a real number, not 'NoneType'")
  end.

(** [verify_slack_signature].  The arguments of [hmac.new] are evaluated
    from the left, [SLACK_SIGNING_SECRET.encode()] first, and [None] has
    no [encode]. *)
Definition verify_slack_signature (req : request) : outcome unit :=
  n <-? int (x_slack_request_timestamp req);;
  old <-? late n;;
  if (old : bool) then Raise (HTTPException "Invalid timestamp")
  else
    text <-? body req;;
    let basestring :=
      "v0:" +:+ fstring (x_slack_request_timestamp req) +:+ ":" +:+ text in
    match SLACK_SIGNING_SECRET with
    | None => Raise (AttributeError [] VNone "encode")
    | Some secret =>
        let my_signature := "v0=" +:+ hexdigest secret basestring in
        same <-? compare_digest my_signature (x_slack_signature req);;
        if (same : bool) then Ok tt
        else Raise (HTTPException "Invalid signature")
    end.

Record world : Type := World {
  w_state : state;
  w_client : client;
  w_calls : list call
}.

Definition W (A : Type) : Type := world -> outcome A * world.

Definition wret {A} (a : A) : W A := fun w => (Ok a, w).

Definition wbind {A B} (m : W A) (f : A -> W B) : W B :=
  fun w =>
    match m w with
    | (Ok a, w') => f a w'
    | (Raise e, w') => (Raise e, w')
    end.

Notation "x <~ m ;; k" := (wbind m (fun x => k))
  (at level 100, m at next level, right associativity).

Definition wtry {A} (m : W A) : W (outcome A) :=
  fun w => let (o, w') := m w in (Ok o, w').

(** The code of the orchestrator, run in the world. *)
Definition run {A} (m : M A) : W A :=
  fun w =>
    let (o, s) := m (w_state w) in
    (o, {| w_state := s; w_client := w_client w; w_calls := w_calls w |}).

Definition api (a : api_call) : W unit :=
  fun w =>
    let (o, c) := slack_client a (st_heap (w_state w)) (w_client w) in
    (o, {| w_state := w_state w; w_client := c;
           w_calls := w_calls w ++ [Call a o] |}).

(** [bot_user_id and user == bot_user_id] *)
Definition is_bot (user : val) : bool :=
  match BOT_USER_ID with
  | Some bot_user_id =>
      negb (bool_decide (bot_user_id = EmptyString))
      && bool_decide (user = VStr bot_user_id)
  | None => false
  end.

(** [result.get("report") or str(result)] *)
Definition response_text_of (result : val) : M val :=
  report <- py_get result "report" VNone;;
  h <- get_heap;;
  if truthy h report then ret report else ret (VStr (str h result)).

(** [handle_message_event].  The local [response_sent] is assigned [True]
    by the last statement of the [try] block, so it is [False] whenever the
    [except] clause runs. *)
Definition handle_message_event (event : val) : W unit :=
  user <~ run (py_get event "user" VNone);;
  text <~ run (py_get event "text" (VStr EmptyString));;
  channel <~ run (py_get event "channel" VNone);;
  if bool_decide (user = VNone) || is_bot user then wret tt
  else
    r <~ wtry (
      task <~ run (classify_task literal_eval orchestrator text user channel);;
      result <~ run (route_task orchestrator task);;
      response_text <~ run (response_text_of result);;
      api (chat_postMessage channel response_text));;
    match r with
    | Ok _ => wret tt
    | Raise e =>
        let response_sent := false in
        if negb response_sent then
          _ <~ wtry (api (chat_postMessage channel
                            (VStr ("Sorry, an error occurred: " +:+ exn_msg e))));;
          wret tt
        else wret tt
    end.

(** [handle_reaction_event] *)
Definition handle_reaction_event (event : val) : W unit :=
  empty <~ run (alloc (ODict []));;
  item <~ run (py_get event "item" empty);;
  channel <~ run (py_get item "channel" VNone);;
  empty <~ run (alloc (ODict []));;
  item <~ run (py_get event "item" empty);;
  timestamp <~ run (py_get item "ts" VNone);;
  reaction <~ run (py_get event "reaction" VNone);;
  h <~ run get_heap;;
  if truthy h reaction && truthy h channel && truthy h timestamp
  then api (reactions_add channel timestamp reaction)
  else wret tt.

(** [send_notification] *)
Definition send_notification (channel text : val) : W unit :=
  api (chat_postMessage channel text).

(** [event.get("user") and (not bot_user_id or event.get("user") !=
    bot_user_id)] *)
Definition from_a_user (h : heap) (user : val) : bool :=
  truthy h user
  && match BOT_USER_ID with
     | Some bot_user_id =>
         bool_decide (bot_user_id = EmptyString)
         || negb (bool_decide (user = VStr bot_user_id))
     | None => true
     end.

(** The endpoint [slack_events]. *)
Definition slack_events (req : request) : W val :=
  r <~ wtry (
    _ <~ run (lift (verify_slack_signature req));;
    body <~ run (lift (json req));;
    payload <~ run (alloc_lit body);;
    ty <~ run (py_get payload "type" VNone);;
    if bool_decide (ty = VStr "url_verification") then
      challenge <~ run (py_getitem payload "challenge");;
      run (alloc (ODict [("challenge", challenge)]))
    else
      empty <~ run (alloc (ODict []));;
      event <~ run (py_get payload "event" empty);;
      event_type <~ run (py_get event "type" VNone);;
      _ <~ (if bool_decide (event_type = VStr "message") then
              user <~ run (py_get event "user" VNone);;
              h <~ run get_heap;;
              if from_a_user h user then handle_message_event event
              else wret tt
            else if bool_decide (event_type = VStr "reaction_added") then
              handle_reaction_event event
            else wret tt);;
      run (alloc (ODict [("ok", VBool true)])));;
  match r with
  | Ok v => wret v
  | Raise e =>
      run (alloc (ODict [("ok", VBool false); ("error", VStr (exn_msg e))]))
  end.

End Events.

Arguments World {client} w_state w_client w_calls.
Arguments w_state {client} w.
Arguments w_client {client} w.
Arguments w_calls {client} w.
Arguments wret {client A} a w.
Arguments wbind {client A B} m f w.
Arguments wtry {client A} m w.
Arguments run {client A} m w.
Arguments api {client} slack_client a w.
Arguments handle_message_event literal_eval orchestrator BOT_USER_ID
  {client} slack_client event w.
Arguments handle_reaction_event {client} slack_client event w.
Arguments send_notification {client} slack_client channel text w.
Arguments slack_events literal_eval orchestrator BOT_USER_ID
  {client} slack_client environ int_of_str late HTTPException_str hexdigest
  req w.

(** Computations that call no method of the Slack client. *)
Definition quiet {client A} (m : W client A) : Prop :=
  forall w o w', m w = (o, w') ->
    w_client w' = w_client w /\ w_calls w' = w_calls w.

(** The text of the apology for the exception [e]. *)
Definition apology (channel : val) (e : exn) : api_call :=
  chat_postMessage channel (VStr ("Sorry, an error occurred: " +:+ exn_msg e)).

(** The answers of the endpoint. *)
Definition ok_answer : obj := ODict [("ok", VBool true)].

Definition error_answer (e : exn) : obj :=
  ODict [("ok", VBool false); ("error", VStr (exn_msg e))].

(** The exception of the verification of [req]: that of the timestamp, of
    the clock or of the body, and else that of the signing secret. *)
Definition rejection (int_of_str : string -> outcome Z) (late : Z -> outcome bool)
  (HTTPException_str : string -> string) (req : request) : exn :=
  match int int_of_str (x_slack_request_timestamp req) with
  | Raise e => e
  | Ok n =>
      match late n with
      | Raise e => e
      | Ok true => HTTPException HTTPException_str "Invalid timestamp"
      | Ok false =>
          match body req with
          | Raise e => e
          | Ok _ => AttributeError [] VNone "encode"
          end
      end
  end.

End Slack.

(** ** The web search agent of [agents/web_search_agent.py] *)

Module WebSearch.

Definition newline : string := String (ascii_of_nat 10) EmptyString.

(** [s[:n]] on a string. *)
Fixpoint str_take (n : nat) (s : string) : string :=
  match n, s with
  | S n, String c t => String c (str_take n t)
  | _, _ => EmptyString
  end.

(** [len(v)] *)
Definition py_len (v : val) : M nat :=
  h <- get_heap;;
  match v with
  | VStr s => ret (String.length s)
  | VRef l =>
      match h !! l with
      | Some (ODict d) => ret (length d)
      | Some (OList vs) => ret (length vs)
      | None => raise (TypeError "object of type 'object' has no len()")
      end
  | _ => raise (TypeError ("object of type '" +:+ type_name h v
                           +:+ "' has no len()"))
  end.

(** [v[:n]]: a new string or a new list; a mapping has no slices (the
    [TypeError] of Python up to 3.11; from 3.12 on a [KeyError]). *)
Definition py_slice_to (v : val) (n : nat) : M val :=
  h <- get_heap;;
  match v with
  | VStr s => ret (VStr (str_take n s))
  | VRef l =>
      match h !! l with
      | Some (OList vs) => alloc (OList (take n vs))
      | _ => raise (TypeError "unhashable type: 'slice'")
      end
  | _ => raise (TypeError ("'" +:+ type_name h v
                           +:+ "' object is not subscriptable"))
  end.

(** [v + s] for a string [s] *)
Definition py_add_str (v : val) (s : string) : M val :=
  h <- get_heap;;
  match v with
  | VStr a => ret (VStr (a +:+ s))
  | VRef l =>
      match h !! l with
      | Some (OList _) =>
          raise (TypeError ("can only concatenate list (not "
                            +:+ PyStr.str1 PyStr.dquote +:+ "str"
                            +:+ PyStr.str1 PyStr.dquote +:+ ") to list"))
      | _ => raise (TypeError ("unsupported operand type(s) for +: '"
                               +:+ type_name h v +:+ "' and 'str'"))
      end
  | _ => raise (TypeError ("unsupported operand type(s) for +: '"
                           +:+ type_name h v +:+ "' and 'str'"))
  end.

(** What [for x in v] goes through: the elements of a list, the keys of a
    mapping, the characters of a string. *)
Definition py_iter (v : val) : M (list val) :=
  h <- get_heap;;
  match v with
  | VStr s => ret (map (fun c => VStr (String c EmptyString)) (list_ascii_of_string s))
  | VRef l =>
      match h !! l with
      | Some (OList vs) => ret vs
      | Some (ODict d) => ret (map (fun kv => VStr kv.1) d)
      | None => raise (TypeError "'object' object is not iterable")
      end
  | _ => raise (TypeError ("'" +:+ type_name h v +:+ "' object is not iterable"))
  end.

(** [l.append(v)] *)
Definition py_append (l : val) (v : val) : M unit :=
  h <- get_heap;;
  match l, as_list h l with
  | VRef r, Some vs => store r (OList (vs ++ [v]))
  | _, _ => raise (AttributeError h l "append")
  end.

Fixpoint for_each {A} (l : list A) (body : A -> M unit) : M unit :=
  match l with
  | [] => ret tt
  | x :: t => _ <- body x;; for_each t body
  end.

Section Agent.

(** [os.getenv("GOOGLE_SEARCH_API_KEY")] and [os.getenv("GOOGLE_CSE_ID")] *)
Variable GOOGLE_SEARCH_API_KEY GOOGLE_CSE_ID : option string.

(** [int(s)] of a string: the number, or a [ValueError]. *)
Variable int_of_str : string -> outcome Z.

(** The search service: [client.get(url, params=params)] in a new client,
    followed by [resp.json()], gives the body of the answer or raises. *)
Variable get : list (string * val) -> heap -> outcome lit.

Definition getenv (x : option string) : val :=
  match x with
  | Some s => VStr s
  | None => VNone
  end.

(** [int(v)] *)
Definition py_int (v : val) : M Z :=
  h <- get_heap;;
  match v with
  | VInt z => ret z
  | VBool b => ret (if b then 1 else 0)%Z
  | VStr s => lift (int_of_str s)
  | _ => raise (TypeError
           ("int() argument must be a string, a bytes-like object or a real number, not '"
            +:+ type_name h v +:+ "'"))
  end.

(** One round of the loop over the items. *)
Definition add_result (results item : val) : M unit :=
  snippet <- py_get item "snippet" (VStr EmptyString);;
  n <- py_len snippet;;
  snippet <- (if 300 <? n
              then s <- py_slice_to snippet 297;; py_add_str s "..."
              else ret snippet);;
  title <- py_get item "title" VNone;;
  link <- py_get item "link" VNone;;
  r <- alloc (ODict [("title", title); ("link", link); ("snippet", snippet)]);;
  py_append results r.

(** One block of [format_results_for_slack]. *)
Definition block (idx : nat) (item : val) : M string :=
  link <- py_getitem item "link";;
  title <- py_getitem item "title";;
  snippet <- py_getitem item "snippet";;
  h <- get_heap;;
  ret ("*" +:+ pretty idx +:+ ". <" +:+ Slack.str h link +:+ "|"
       +:+ Slack.str h title +:+ ">*" +:+ newline +:+ Slack.str h snippet).

Fixpoint blocks (idx : nat) (results : list val) : M (list string) :=
  match results with
  | [] => ret []
  | item :: t => b <- block idx item;; bs <- blocks (S idx) t;; ret (b :: bs)
  end.

Definition format_results_for_slack (results : val) : M string :=
  items <- py_iter results;;
  bs <- blocks 1 items;;
  ret (PyStr.join (newline +:+ newline) bs).

Definition note : string :=
  "_(Note: Only the first 10 results are shown due to API limits.)_"
  +:+ newline +:+ newline.

(** [WebSearchAgent.handle] *)
Definition handle (task : val) : M val :=
  payload <- py_getitem task "payload";;
  query <- py_get payload "query" VNone;;
  payload <- py_getitem task "payload";;
  n <- py_get payload "num_results" (VInt 3);;
  num_results <- py_int n;;
  let MAX_RESULTS := 10%Z in
  let capped := (MAX_RESULTS <? num_results)%Z in
  let num_results := if capped then MAX_RESULTS else num_results in
  h <- get_heap;;
  if negb (truthy h query) then report_data (VStr "No search query provided.")
  else
    let params := [("key", getenv GOOGLE_SEARCH_API_KEY);
                   ("cx", getenv GOOGLE_CSE_ID);
                   ("q", query); ("num", VInt num_results)] in
    _ <- alloc (ODict params);;
    r <- try_ (
      h <- get_heap;;
      body <- lift (get params h);;
      data <- alloc_lit body;;
      empty <- alloc (OList []);;
      items <- py_get data "items" empty;;
      h <- get_heap;;
      if negb (truthy h items) then report_data (VStr "No results found.")
      else
        results <- alloc (OList []);;
        its <- py_iter items;;
        _ <- for_each its (add_result results);;
        formatted <- format_results_for_slack results;;
        let formatted := if capped then note +:+ formatted else formatted in
        alloc (ODict [("report", VStr formatted); ("data", results)]));;
    match r with
    | Ok v => ret v
    | Raise e =>
        report_data (VStr ("Error during web search: " +:+ exn_msg e))
    end.

Definition WebSearchAgent : agent := handler handle.

End Agent.

(** A snippet as the agent leaves it: a string has at most 300
    characters. *)
Definition short (snippet : val) : Prop :=
  forall s, snippet = VStr s -> String.length s <= 300.

(** [r] is a result of the agent in the store [h]. *)
Definition search_result (h : heap) (r : val) : Prop :=
  exists l title link snippet,
    r = VRef l
    /\ h !! l = Some (ODict [("title", title); ("link", link); ("snippet", snippet)])
    /\ short snippet.

(** The list at [rl] holds results of the agent: what the loop over the
    items keeps. *)
Definition collected (rl : loc) (s : state) : Prop :=
  exists rs,
    st_heap s !! rl = Some (OList rs)
    /\ Forall (search_result (st_heap s)) rs.

(** The number [int(v)] returns, when it returns. *)
Definition int_of (int_of_str : string -> outcome Z) (v : val) : option Z :=
  match v with
  | VInt z => Some z
  | VBool b => Some (if b then 1 else 0)%Z
  | VStr s => match int_of_str s with Ok z => Some z | Raise _ => None end
  | _ => None
  end.

(** Computations that leave the objects of the store [h] as they are. *)
Definition keeps (h : heap) {A} (m : M A) : Prop :=
  forall s o s',
    take (length h) (st_heap s) = h -> m s = (o, s') ->
    take (length h) (st_heap s') = h.

End WebSearch.

(** ** More data for the examples *)

Module Sample.

(** An oracle whose every call raises. *)
Definition unavailable : oracle :=
  fun _ _ => Raise (Exn "RuntimeError" "quota exceeded").

(** A task without a type, [{"payload": {"query": "hello"}}], at
    location 1. *)
Definition untyped_store : state :=
  {| st_heap := [ ODict [("query", VStr "hello")];
                  ODict [("payload", VRef 0)] ];
     st_trace := [] |}.

Definition untyped_task : val := VRef 1.

(** A sub-task without a payload, [{"type": "analysis"}]. *)
Definition bare_store : state :=
  {| st_heap := [ ODict [("type", VStr "analysis")] ];
     st_trace := [] |}.

(** A sub-task with a string as payload,
    [{"type": "analysis", "payload": "sales"}]. *)
Definition text_payload_store : state :=
  {| st_heap := [ ODict [("type", VStr "analysis"); ("payload", VStr "sales")] ];
     st_trace := [] |}.

(** A process without the model library and without a key. *)
Definition offline : environment :=
  {| genai := None; GEMINI_API_KEY := None |}.

(** A Slack service that accepts every call and counts them, and one that
    refuses every call. *)
Definition accepting : Slack.api_call -> heap -> nat -> outcome unit * nat :=
  fun _ _ n => (Ok tt, S n).

Definition refusing : Slack.api_call -> heap -> nat -> outcome unit * nat :=
  fun _ _ n => (Raise (Exn "SlackApiError" "channel_not_found"), n).

(** A message event, [{"user": "U1", "text": <text>, "channel": "C1"}], alone
    in the store. *)
Definition message (text : string) : Slack.world nat :=
  Slack.World
    {| st_heap := [ ODict [("user", VStr "U1"); ("text", VStr text);
                           ("channel", VStr "C1")] ];
       st_trace := [] |} 0 [].

(** A reaction event,
    [{"reaction": "eyes", "item": {"channel": "C1", "ts": "1.2"}}]. *)
Definition reaction : Slack.world nat :=
  Slack.World
    {| st_heap := [ ODict [("channel", VStr "C1"); ("ts", VStr "1.2")];
                    ODict [("reaction", VStr "eyes"); ("item", VRef 0)] ];
       st_trace := [] |} 0 [].

(** Request bodies: the URL verification of Slack, and a message event. *)
Definition url_verification : lit :=
  LDict [("type", LStr "url_verification"); ("challenge", LStr "abc")].

Definition event_callback : lit :=
  LDict [("type", LStr "event_callback");
         ("event", LDict [("type", LStr "message"); ("user", LStr "U1");
                          ("text", LStr "hello"); ("channel", LStr "C1")])].

Definition nothing : Slack.world nat :=
  Slack.World {| st_heap := []; st_trace := [] |} 0 [].

(** A signature check that passes and one that fails. *)
(** A process that sets the signing secret under its usual name. *)
Definition environ : list string :=
  ["SLACK_SIGNING_SECRET=8f742231b10e"; "BOT_USER_ID=B1"].

Fixpoint digits (s : string) (acc : Z) : option Z :=
  match s with
  | EmptyString => Some acc
  | String c rest =>
      let d := nat_of_ascii c in
      if bool_decide (48 <= d <= 57)
      then digits rest (10 * acc + Z.of_nat (d - 48))%Z
      else None
  end.

Definition int_of_str (s : string) : outcome Z :=
  match s, digits s 0 with
  | String _ _, Some n => Ok n
  | _, _ => Raise (Exn "ValueError"
                     ("invalid literal for int() with base 10: " +:+ PyStr.repr s))
  end.

(** A clock at 1700000000 seconds. *)
Definition late (n : Z) : outcome bool :=
  Ok (bool_decide (300 < Z.abs (1700000000 - n))%Z).

Definition HTTPException_str (detail : string) : string := "400: " +:+ detail.

Definition hexdigest (key msg : string) : string := "a2114d57b48e".

(** A request of the minute, with the signature [hexdigest] gives. *)
Definition signed (payload : lit) : Slack.request :=
  Slack.Request (Some "v0=a2114d57b48e") (Some "1700000012") (Ok "{}") (Ok payload).

(** The same request, sent again a year later. *)
Definition replayed (payload : lit) : Slack.request :=
  Slack.Request (Some "v0=a2114d57b48e") (Some "1668464012") (Ok "{}") (Ok payload).

Definition search_store : heap :=
  [ ODict [("query", VStr "rocq"); ("num_results", VInt 25)];
    ODict [("type", VStr "web_search"); ("payload", VRef 0)] ].

Definition one_item : list (string * val) -> heap -> outcome lit :=
  fun _ _ =>
    Ok (LDict [("items",
                LList [LDict [("title", LStr "Rocq");
                              ("link", LStr "https://rocq-prover.org");
                              ("snippet", LStr "The Rocq Prover")]])]).

Definition no_int : string -> outcome Z :=
  fun s => Raise (Exn "ValueError"
                    ("invalid literal for int() with base 10: " +:+ PyStr.repr s)).

(** Three sub-tasks, the second with a list as type, which cannot be
    hashed: [run_agent] raises on it. *)
Definition unhashable_store : state :=
  {| st_heap :=
       [ ODict [];
         ODict [("type", VStr "data_retrieval"); ("payload", VRef 0)];
         OList [VStr "analysis"];
         ODict [("type", VRef 2); ("payload", VRef 0)];
         ODict [("type", VStr "report_generation"); ("payload", VRef 0)] ];
     st_trace := [] |}.

Definition unhashable_sub_tasks : list val := [VRef 1; VRef 3; VRef 4].

End Sample.

(** * Properties *)

(** ** Association lists *)

Lemma assoc_get_set_eq k v d : assoc_get k (assoc_set k v d) = Some v.
Proof.
  induction d as [|[k' v'] d IH]; simpl.
  - by rewrite decide_True.
  - destruct (decide (k = k')) as [->|Hne]; simpl.
    + by rewrite decide_True.
    + by rewrite decide_False.
Qed.

Lemma assoc_get_set_ne k k' v d :
  k ≠ k' -> assoc_get k (assoc_set k' v d) = assoc_get k d.
Proof.
  intros Hne. induction d as [|[k0 v0] d IH]; simpl.
  - by rewrite decide_False.
  - destruct (decide (k' = k0)) as [->|Hne']; simpl.
    + by rewrite !decide_False.
    + destruct (decide (k = k0)); auto.
Qed.

(** ** The store only grows at its end *)

Lemma lookup_fresh (h : heap) (o : obj) : (h ++ [o]) !! length h = Some o.
Proof. rewrite lookup_app_r by lia. by rewrite Nat.sub_diag. Qed.

Lemma as_dict_fresh (h : heap) d : as_dict (h ++ [ODict d]) (VRef (length h)) = Some d.
Proof. simpl. by rewrite lookup_fresh. Qed.

Lemma as_dict_Some_lt h l d : as_dict h (VRef l) = Some d -> l < length h.
Proof.
  simpl. destruct (h !! l) as [o|] eqn:E; [|done].
  intros _. by eapply lookup_lt_Some.
Qed.

Lemma as_dict_app h ext v d :
  as_dict h v = Some d -> as_dict (h ++ ext) v = Some d.
Proof.
  destruct v; simpl; try done.
  destruct (h !! l) as [o|] eqn:E; [|done].
  intros Hd. by rewrite (lookup_app_l_Some _ _ _ _ E).
Qed.

Lemma as_dict_insert_eq (h : heap) l d :
  l < length h -> as_dict (<[l := ODict d]> h) (VRef l) = Some d.
Proof. intros Hl. unfold as_dict. by rewrite list_lookup_insert_eq. Qed.

Lemma as_dict_insert_ne (h : heap) l l' o :
  l ≠ l' -> as_dict (<[l := o]> h) (VRef l') = as_dict h (VRef l').
Proof. intros Hl. unfold as_dict. by rewrite list_lookup_insert_ne. Qed.

(** ** What the primitive operations do when they return *)

Ltac invc H := inversion H; subst; clear H.

Lemma bind_Ok {A B} (m : M A) (f : A -> M B) s b s' :
  bind m f s = (Ok b, s') ->
  exists a s1, m s = (Ok a, s1) /\ f a s1 = (Ok b, s').
Proof.
  unfold bind. destruct (m s) as [[a|e] s1]; [eauto|discriminate].
Qed.

Lemma py_get_Ok o k dflt s v s' :
  py_get o k dflt s = (Ok v, s') ->
  s' = s /\ exists d, as_dict (st_heap s) o = Some d
                      /\ v = default dflt (assoc_get k d).
Proof.
  unfold py_get, bind, get_heap, ret, raise.
  destruct (as_dict (st_heap s) o) as [d|]; intros H; invc H. eauto.
Qed.

Lemma py_getitem_Ok o k s v s' :
  py_getitem o k s = (Ok v, s') ->
  s' = s /\ exists d, as_dict (st_heap s) o = Some d /\ assoc_get k d = Some v.
Proof.
  unfold py_getitem, bind, get_heap, ret, raise.
  destruct (as_dict (st_heap s) o) as [d|]; [|discriminate].
  destruct (assoc_get k d) as [x|] eqn:E; intros H; invc H. eauto.
Qed.

Lemma py_setitem_Ok o k v s u s' :
  py_setitem o k v s = (Ok u, s') ->
  exists l d, o = VRef l /\ as_dict (st_heap s) o = Some d
    /\ s' = {| st_heap := <[l := ODict (assoc_set k v d)]> (st_heap s);
               st_trace := st_trace s |}.
Proof.
  unfold py_setitem, bind, get_heap, ret, raise, store.
  destruct o; try discriminate.
  destruct (as_dict (st_heap s) (VRef l)) as [d|]; intros H; invc H. eauto.
Qed.

Lemma silent_ret {A} (a : A) : silent (ret a).
Proof. intros s o s' H. by invc H. Qed.

Lemma silent_raise {A} e : silent (@raise A e).
Proof. intros s o s' H. by invc H. Qed.

Lemma silent_bind {A B} (m : M A) (f : A -> M B) :
  silent m -> (forall a, silent (f a)) -> silent (bind m f).
Proof.
  intros Hm Hf s o s'. unfold bind.
  destruct (m s) as [[a|e] s1] eqn:E; intros H.
  - rewrite (Hf _ _ _ _ H). eauto.
  - invc H. eauto.
Qed.

Lemma silent_get_heap : silent get_heap.
Proof. intros s o s' H. by invc H. Qed.

Lemma silent_alloc o : silent (alloc o).
Proof. intros s r s' H. by invc H. Qed.

Lemma silent_store l o : silent (store l o).
Proof. intros s r s' H. by invc H. Qed.

Lemma silent_try {A} (m : M A) : silent m -> silent (try_ m).
Proof.
  intros Hm s o s'. unfold try_. destruct (m s) as [r s1] eqn:E.
  intros H. invc H. eauto.
Qed.

Lemma silent_lift {A} (o : outcome A) : silent (lift o).
Proof. intros s r s' H. by invc H. Qed.

Lemma silent_ask g p : silent (ask g p).
Proof. intros s r s' H. by invc H. Qed.

Create HintDb silent.
#[export] Hint Resolve silent_ret silent_raise silent_get_heap silent_alloc
  silent_store silent_ask silent_lift : silent.

Ltac silent :=
  repeat first
    [ progress auto with silent
    | apply silent_bind; [|intros ?]
    | apply silent_try
    | match goal with
      | |- silent (match ?x with _ => _ end) => destruct x
      | |- silent (if ?b then _ else _) => destruct b
      end ].

Lemma silent_py_get o k dflt : silent (py_get o k dflt).
Proof. unfold py_get. silent. Qed.

Lemma silent_py_getitem o k : silent (py_getitem o k).
Proof. unfold py_getitem. silent. Qed.

Lemma silent_py_setitem o k v : silent (py_setitem o k v).
Proof. unfold py_setitem. silent. Qed.

Lemma silent_py_copy o : silent (py_copy o).
Proof. unfold py_copy. silent. Qed.

Lemma silent_py_setdefault o k v : silent (py_setdefault o k v).
Proof. unfold py_setdefault. silent. Qed.

Lemma silent_py_contains k o : silent (py_contains k o).
Proof. unfold py_contains. silent. Qed.

Lemma silent_isinstance_dict v : silent (isinstance_dict v).
Proof. unfold isinstance_dict. silent. Qed.

Lemma silent_agents_get self ty : silent (agents_get self ty).
Proof. unfold agents_get. silent. Qed.

#[export] Hint Resolve silent_py_get silent_py_getitem silent_py_setitem
  silent_py_copy silent_py_setdefault silent_py_contains
  silent_isinstance_dict silent_agents_get : silent.

Lemma silent_chain_input st prev : silent (chain_input st prev).
Proof. unfold chain_input. silent. Qed.

(** The sub-task built by [chain_input] carries the previous result under
    ["input"] of its payload. *)
Lemma chain_input_Ok st prev s c s' :
  chain_input st prev s = (Ok c, s') ->
  payload_input (st_heap s') c = Some prev /\ st_trace s' = st_trace s.
Proof.
  intros H. split; [|by eapply silent_chain_input].
  unfold chain_input in H.
  apply bind_Ok in H as (c0 & s1 & _ & H).
  apply bind_Ok in H as (empty & s2 & _ & H).
  apply bind_Ok in H as (x & s3 & _ & H).
  apply bind_Ok in H as (p & s4 & Hp & H).
  apply bind_Ok in H as (u & s5 & Hset & H).
  invc H.
  apply py_getitem_Ok in Hp as (-> & d & Hd & Hpay).
  apply py_setitem_Ok in Hset as (l & pd & -> & Hpd & ->). simpl.
  pose proof (as_dict_Some_lt _ _ _ Hpd) as Hl.
  unfold payload_input.
  destruct c as [| | | |lc]; try discriminate.
  destruct (decide (lc = l)) as [->|Hne].
  - assert (d = pd) by congruence. subst d.
    rewrite as_dict_insert_eq by done. cbn.
    rewrite assoc_get_set_ne by done. rewrite Hpay. cbn.
    rewrite list_lookup_insert_eq by done. cbn.
    apply assoc_get_set_eq.
  - rewrite as_dict_insert_ne by done.
    rewrite Hd. cbn. rewrite Hpay. cbn.
    rewrite list_lookup_insert_eq by done. cbn.
    apply assoc_get_set_eq.
Qed.

Lemma agents_get_Ok self ty s r s' :
  agents_get self ty s = (Ok r, s') ->
  s' = s /\ r = match ty with
                | VStr k => mjoin (registry_get k (agents self))
                | _ => None
                end
  /\ (forall l, ty ≠ VRef l).
Proof.
  unfold agents_get, bind, get_heap, ret, raise.
  destruct ty; intros H; invc H; done.
Qed.

Lemma call_handle_eq (a : agent) t s :
  call_handle a t s =
  ((a t (st_heap s)).1,
   {| st_heap := (a t (st_heap s)).2;
      st_trace := st_trace s ++ [Dispatch t (st_heap s) (a t (st_heap s)).1] |}).
Proof. unfold call_handle. by destruct (a t (st_heap s)). Qed.

(** One iteration of the sequential loop, when it does not raise: either
    the type has no handler and an error Result is built without any
    dispatch, or the handler is called once, on the chained copy when the
    previous result is chained and on the sub-task itself otherwise. *)
Lemma sequential_step_Ok self idx st prev s r prev' s' :
  sequential_step self idx st prev s = (Ok (r, prev'), s') ->
  exists ty, type_of (st_heap s) st = Some ty /\
  ((agent_of self (st_heap s) st = None /\
    st_trace s' = st_trace s /\ prev' = prev /\
    r = VRef (length (st_heap s)) /\
    st_heap s' = st_heap s ++ [no_agent_error ty])
   \/
   (exists a t hd,
      agent_of self (st_heap s) st = Some a /\
      st_trace s' = st_trace s ++ [Dispatch t hd (a t hd).1] /\
      (if bool_decide (0 < idx) && negb (bool_decide (prev = VNone))
       then payload_input hd t = Some prev
       else t = st /\ hd = st_heap s) /\
      match (a t hd).1 with
      | Ok x => r = x /\ prev' = x /\ st_heap s' = (a t hd).2
      | Raise e =>
          prev' = VNone /\ r = VRef (length (a t hd).2) /\
          st_heap s' = (a t hd).2 ++ [agent_failed_error ty e t]
      end)).
Proof.
  unfold sequential_step. intros H.
  apply bind_Ok in H as (ty & s1 & Hty & H).
  apply py_get_Ok in Hty as (-> & d & Hd & ->).
  apply bind_Ok in H as (ag & s1 & Hag & H).
  apply agents_get_Ok in Hag as (-> & -> & Href).
  set (ty := default VNone (assoc_get "type" d)) in *.
  exists ty. split; [unfold type_of; by rewrite Hd|].
  assert (Hagent : agent_of self (st_heap s) st =
                   match ty with
                   | VStr k => mjoin (registry_get k (agents self))
                   | _ => None
                   end).
  { unfold agent_of, type_of. rewrite Hd. done. }
  destruct (match ty with VStr k => mjoin (registry_get k (agents self)) | _ => None end)
    as [a|] eqn:Ea.
  - right. exists a.
    apply bind_Ok in H as (t & s2 & Ht & H).
    apply bind_Ok in H as (o & s3 & Hcall & H).
    unfold try_ in Hcall. rewrite call_handle_eq in Hcall. invc Hcall.
    exists t, (st_heap s2).
    assert (Htr : st_trace s2 = st_trace s
                  /\ (if bool_decide (0 < idx) && negb (bool_decide (prev = VNone))
                      then payload_input (st_heap s2) t = Some prev
                      else t = st /\ st_heap s2 = st_heap s)).
    { destruct (bool_decide (0 < idx) && negb (bool_decide (prev = VNone))).
      - apply chain_input_Ok in Ht as [Hin Htr]. done.
      - by invc Ht. }
    destruct Htr as [Htr Hin].
    destruct (a t (st_heap s2)) as [[x|e] h'] eqn:Ecall; simpl in *.
    + invc H. simpl. rewrite Htr. done.
    + unfold bind, alloc, ret in H. simpl in H. invc H. simpl.
      rewrite Htr. done.
  - left. invc H. done.
Qed.

Lemma sequential_step_trace self idx st prev s o s' :
  sequential_step self idx st prev s = (o, s') ->
  exists ds, st_trace s' = st_trace s ++ ds /\ length ds <= 1.
Proof.
  unfold sequential_step, bind. intros H.
  destruct (py_get st "type" VNone s) as [[ty|e] s1] eqn:E1;
    pose proof (silent_py_get _ _ _ _ _ _ E1) as T1;
    [|invc H; exists []; rewrite app_nil_r; auto].
  destruct (agents_get self ty s1) as [[ag|e] s2] eqn:E2;
    pose proof (silent_agents_get _ _ _ _ _ E2) as T2;
    [|invc H; exists []; rewrite app_nil_r; split; [congruence|auto]].
  destruct ag as [a|].
  - destruct ((if bool_decide (0 < idx) && negb (bool_decide (prev = VNone))
               then chain_input st prev else ret st) s2) as [[t|e] s3] eqn:E3.
    + assert (T3 : st_trace s3 = st_trace s2).
      { destruct (bool_decide (0 < idx) && negb (bool_decide (prev = VNone))).
        - by eapply silent_chain_input.
        - by invc E3. }
      unfold try_ in H. rewrite call_handle_eq in H.
      exists [Dispatch t (st_heap s3) (a t (st_heap s3)).1].
      split; [|simpl; lia].
      destruct (a t (st_heap s3)).1; invc H; simpl; congruence.
    + assert (T3 : st_trace s3 = st_trace s2).
      { destruct (bool_decide (0 < idx) && negb (bool_decide (prev = VNone))).
        - by eapply silent_chain_input.
        - by invc E3. }
      invc H. exists []. rewrite app_nil_r. split; [congruence|simpl; lia].
  - invc H. exists []. rewrite app_nil_r. split; [simpl; congruence|simpl; lia].
Qed.

Lemma run_sequential_trace self sts : forall idx prev results s o s',
  run_sequential self idx sts prev results s = (o, s') ->
  exists ds, st_trace s' = st_trace s ++ ds /\ length ds <= length sts.
Proof.
  induction sts as [|st rest IH]; intros idx prev results s o s' H; simpl in H.
  - invc H. exists []. by rewrite app_nil_r.
  - unfold bind in H.
    destruct (sequential_step self idx st prev s) as [[step|e] s1] eqn:E.
    + apply sequential_step_trace in E as (d1 & T1 & L1).
      apply IH in H as (d2 & T2 & L2).
      exists (d1 ++ d2). rewrite T2, T1, app_assoc. split; [done|].
      rewrite length_app. simpl. lia.
    + invc H. apply sequential_step_trace in E as (d1 & T1 & L1).
      exists d1. split; [done|simpl; lia].
Qed.

(** The loop appends one Result per sub-task. *)
Lemma run_sequential_length self sts : forall idx prev results s rs s',
  run_sequential self idx sts prev results s = (Ok rs, s') ->
  length rs = length results + length sts.
Proof.
  induction sts as [|st rest IH]; intros idx prev results s rs s' H; simpl in H.
  - invc H. simpl. lia.
  - apply bind_Ok in H as (step & s1 & _ & H).
    apply IH in H. rewrite length_app in H. simpl in *. lia.
Qed.

Lemma new_dispatches_app s s' ds :
  st_trace s' = st_trace s ++ ds -> new_dispatches s s' = ds.
Proof.
  intros H. unfold new_dispatches. by rewrite H, drop_app_length.
Qed.

(** When every step of the loop is dispatched and succeeds, the results are
    those of the handlers, in order, and each step received the result of
    the step before it. *)
Lemma run_sequential_chained self sts : forall idx prev results s rs s',
  run_sequential self idx sts prev results s = (Ok rs, s') ->
  length (new_dispatches s s') = length sts ->
  Forall succeeded (new_dispatches s s') ->
  rs = results ++ map result_of (new_dispatches s s')
  /\ chained (pending idx prev) (new_dispatches s s').
Proof.
  induction sts as [|st rest IH]; intros idx prev results s rs s' H Hlen Hok;
    simpl in H.
  - invc H. unfold new_dispatches in *. rewrite drop_all. simpl.
    by rewrite app_nil_r.
  - apply bind_Ok in H as ([r prev'] & s1 & Hstep & H). simpl in H.
    pose proof (run_sequential_trace _ _ _ _ _ _ _ _ H) as (d2 & T2 & L2).
    pose proof (new_dispatches_app _ _ _ T2) as N2.
    apply sequential_step_Ok in Hstep as (ty & _ & [Hno|Hdisp]).
    + destruct Hno as (_ & T1 & _).
      rewrite T1 in T2. rewrite (new_dispatches_app _ _ _ T2) in Hlen.
      simpl in Hlen. lia.
    + destruct Hdisp as (a & t & hd & _ & T1 & Hin & Hout).
      rewrite T1, <- app_assoc in T2. simpl in T2.
      rewrite (new_dispatches_app _ _ _ T2) in *.
      simpl in Hlen. apply Forall_cons in Hok as [Hd Hok].
      destruct Hd as (x & Hx & Hnone). simpl in Hx. rewrite Hx in Hout.
      destruct Hout as (-> & -> & _).
      rewrite <- N2 in Hok, Hlen.
      destruct (IH _ _ _ _ _ _ H ltac:(lia) Hok) as [Hrs Hch].
      rewrite N2 in Hrs, Hch. split.
      * rewrite Hrs, <- app_assoc. simpl. unfold result_of at 2. simpl.
        by rewrite Hx.
      * simpl. split.
        -- unfold pending. simpl. destruct (bool_decide (0 < idx) && _); done.
        -- unfold pending in Hch.
           rewrite bool_decide_true in Hch by lia.
           rewrite bool_decide_false in Hch by done. simpl in Hch.
           unfold result_of at 1. simpl. by rewrite Hx.
Qed.

(** ** Aggregation *)

Lemma isinstance_dict_eq v s :
  isinstance_dict v s = (Ok (is_dict (st_heap s) v), s).
Proof. done. Qed.

Lemma py_contains_dict k o s d :
  as_dict (st_heap s) o = Some d ->
  py_contains k o s = (Ok (assoc_mem k d), s).
Proof.
  unfold py_contains, bind, get_heap, ret. destruct o; try done. simpl.
  destruct (st_heap s !! l) as [[d'|vs]|]; try done. by intros [= ->].
Qed.

Lemma error_free_eq r s :
  error_free r s = (Ok (error_free_in (st_heap s) r), s).
Proof.
  unfold error_free, bind. rewrite isinstance_dict_eq.
  unfold is_dict, error_free_in.
  destruct (as_dict (st_heap s) r) as [d|] eqn:E.
  - rewrite bool_decide_true by eauto.
    by rewrite (py_contains_dict _ _ _ _ E).
  - rewrite bool_decide_false; [done|]. by intros [? ?].
Qed.

Lemma all_error_free_eq rs s :
  all_error_free rs s = (Ok (forallb (error_free_in (st_heap s)) rs), s).
Proof.
  induction rs as [|r rs IH]; simpl; [done|].
  unfold bind. rewrite error_free_eq.
  destruct (error_free_in (st_heap s) r); simpl; [apply IH|done].
Qed.

Lemma last_cons_ne {A} (x : A) l dflt :
  l ≠ [] -> List.last (x :: l) dflt = List.last l dflt.
Proof. destruct l; [done|]. done. Qed.

Lemma last_map {A B} (f : A -> B) l a b :
  l ≠ [] -> List.last (map f l) b = f (List.last l a).
Proof.
  induction l as [|x l IH]; [done|]. intros _.
  destruct l as [|y l]; [done|].
  change (map f (x :: y :: l)) with (f x :: map f (y :: l)).
  rewrite !last_cons_ne by done. by apply IH.
Qed.

Lemma aggregate_all_error_free results s :
  results ≠ [] ->
  forallb (error_free_in (st_heap s)) results = true ->
  aggregate results s = (Ok (List.last results VNone), s).
Proof.
  intros Hne Hall. destruct results as [|r0 rest]; [done|].
  unfold aggregate.
  destruct (decide (length (r0 :: rest) = 1)) as [Hone|Hmany].
  - destruct rest; [|done]. simpl in Hall.
    rewrite andb_true_r in Hall. unfold error_free_in in Hall.
    destruct (as_dict (st_heap s) r0) as [d|] eqn:E; [|done].
    unfold bind. rewrite (py_contains_dict _ _ _ _ E). unfold ret. simpl.
    by rewrite Hall.
  - unfold bind at 1. unfold ret at 1. unfold bind.
    rewrite all_error_free_eq, Hall. done.
Qed.

Lemma aggregate_some_error results s :
  results ≠ [] ->
  Forall (fun r => is_dict (st_heap s) r = true) results ->
  forallb (error_free_in (st_heap s)) results = false ->
  aggregate results s =
  (Ok (VRef (S (length (st_heap s)))),
   {| st_heap := st_heap s ++ [OList results; composite (VRef (length (st_heap s)))];
      st_trace := st_trace s |}).
Proof.
  intros Hne Hd Hall. destruct results as [|r0 rest]; [done|].
  unfold aggregate.
  assert (Hfin : (ok <- all_error_free (r0 :: rest);;
                  if ok then ret (List.last (r0 :: rest) VNone)
                  else l <- alloc (OList (r0 :: rest));;
                       alloc (ODict [("final_status", VStr "Completed with errors or multiple results");
                                     ("results", l)])) s =
                 (Ok (VRef (S (length (st_heap s)))),
                  {| st_heap := st_heap s ++ [OList (r0 :: rest); composite (VRef (length (st_heap s)))];
                     st_trace := st_trace s |})).
  { unfold bind at 1. rewrite all_error_free_eq, Hall.
    unfold bind, alloc. simpl. rewrite length_app. simpl.
    rewrite Nat.add_1_r, <- app_assoc. done. }
  destruct (decide (length (r0 :: rest) = 1)) as [Hone|Hmany].
  - destruct rest; [|done]. simpl in Hall. rewrite andb_true_r in Hall.
    apply Forall_cons in Hd as [Hd0 _]. unfold is_dict in Hd0.
    apply bool_decide_eq_true in Hd0 as [d E].
    unfold error_free_in in Hall. rewrite E in Hall.
    unfold bind at 1. unfold bind at 1.
    rewrite (py_contains_dict _ _ _ _ E). unfold ret at 1.
    rewrite Hall. exact Hfin.
  - unfold bind at 1. unfold ret at 1. exact Hfin.
Qed.

Lemma can_run_concurrent_state sts : forall idx s o s',
  can_run_concurrent idx sts s = (o, s') -> s' = s.
Proof.
  induction sts as [|st rest IH]; intros idx s o s' H; simpl in H.
  - by invc H.
  - unfold bind in H. destruct (decide (idx = 0)).
    + unfold ret in H at 1. eauto.
    + destruct (py_getitem st "payload" s) as [[p|e] s1] eqn:E1.
      * apply py_getitem_Ok in E1 as [-> _].
        destruct (py_get p "input" VNone s) as [[i|e] s1] eqn:E2.
        -- apply py_get_Ok in E2 as [-> _]. simpl in H.
           destruct (negb (truthy (st_heap s) i)); [eauto|by invc H].
        -- unfold py_get, bind, get_heap, ret, raise in E2.
           destruct (as_dict (st_heap s) p); invc E2. by invc H.
      * unfold py_getitem, bind, get_heap, ret, raise in E1.
        destruct (as_dict (st_heap s) st) as [d|].
        -- destruct (assoc_get "payload" d); invc E1. by invc H.
        -- invc E1. by invc H.
Qed.

(** C5 (amended).  Aggregation of the per-sub-task Results, each of them a
    mapping: no Result gives the error Result "No results generated from
    task execution."; one Result without the key "error" is returned itself;
    when no Result has the key "error", the last one is returned and nothing
    else; otherwise a new mapping is returned whose field "final_status" is
    "Completed with errors or multiple results" and whose field "results" is
    the list of every Result in the original order. *)
Theorem aggregate_cases (results : list val) (s : state) :
  Forall (fun r => is_dict (st_heap s) r = true) results ->
  (results = [] ->
   aggregate results s =
   (Ok (VRef (length (st_heap s))),
    {| st_heap := st_heap s ++ [no_results_error]; st_trace := st_trace s |}))
  /\ (forall r, results = [r] -> error_free_in (st_heap s) r = true ->
      aggregate results s = (Ok r, s))
  /\ (results ≠ [] -> forallb (error_free_in (st_heap s)) results = true ->
      aggregate results s = (Ok (List.last results VNone), s))
  /\ (results ≠ [] -> forallb (error_free_in (st_heap s)) results = false ->
      aggregate results s =
      (Ok (VRef (S (length (st_heap s)))),
       {| st_heap := st_heap s ++ [OList results;
                                   composite (VRef (length (st_heap s)))];
          st_trace := st_trace s |})).
Proof.
  intros Hd. repeat split.
  - by intros ->.
  - intros r -> Hr.
    rewrite aggregate_all_error_free; [done|done|]. simpl. by rewrite Hr.
  - apply aggregate_all_error_free.
  - intros Hne Hall. by apply aggregate_some_error.
Qed.

Lemma chained_lookup ds : forall prev i d d',
  chained prev ds -> ds !! i = Some d -> ds !! S i = Some d' ->
  payload_input (d_heap d') (d_task d') = Some (result_of d).
Proof.
  induction ds as [|x ds IH]; intros prev i d d' Hch Hi Hi'; [done|].
  destruct Hch as [_ Hch]. destruct i as [|i].
  - simpl in Hi. invc Hi. destruct ds as [|y ds]; [done|].
    simpl in Hi'. invc Hi'. by destruct Hch.
  - simpl in Hi, Hi'. eauto.
Qed.

(** C6.  Sequential execution in which every step is dispatched and
    succeeds: the results are those of the handlers in order; every step
    after the first receives, under the chaining key "input" of its payload,
    exactly the Result of the step before it; and the engine returns the
    last Result itself. *)
Theorem sequential_success_chains_previous_result
  (self : Orchestrator) (sub_tasks : list val) (s s' : state)
  (can : bool) (rs : list val) :
  can_run_concurrent 0 sub_tasks s = (Ok can, s) ->
  can && bool_decide (1 < length sub_tasks) = false ->
  run_sequential self 0 sub_tasks VNone [] s = (Ok rs, s') ->
  length (new_dispatches s s') = length sub_tasks ->
  Forall succeeded (new_dispatches s s') ->
  Forall (fun r => error_free_in (st_heap s') r = true) rs ->
  sub_tasks ≠ [] ->
  rs = map result_of (new_dispatches s s')
  /\ (forall i d d',
        new_dispatches s s' !! i = Some d ->
        new_dispatches s s' !! S i = Some d' ->
        payload_input (d_heap d') (d_task d') = Some (result_of d))
  /\ execute_sub_tasks self sub_tasks s
     = (Ok (result_of (List.last (new_dispatches s s') (Dispatch VNone [] (Ok VNone)))), s').
Proof.
  intros Hcan Hseq Hrun Hlen Hok Hfree Hne.
  destruct (run_sequential_chained _ _ _ _ _ _ _ _ Hrun Hlen Hok) as [Hrs Hch].
  simpl in Hrs. split; [done|]. split.
  - intros i d d'. by apply chained_lookup with (prev := pending 0 VNone).
  - unfold execute_sub_tasks, bind. rewrite Hcan, Hseq, Hrun.
    assert (Hrsne : rs ≠ []).
    { intros ->. apply run_sequential_length in Hrun. simpl in Hrun.
      destruct sub_tasks; [done|]. simpl in Hrun. lia. }
    rewrite aggregate_all_error_free; [|done|].
    + rewrite Hrs. f_equal. f_equal. apply last_map.
      intros E. rewrite E in Hrs. simpl in Hrs. done.
    + apply forallb_forall. intros r Hr.
      rewrite Forall_forall in Hfree. apply Hfree. by apply list_elem_of_In.
Qed.

(** ** A failed step *)

Lemma py_get_dict o k dflt s d :
  as_dict (st_heap s) o = Some d ->
  py_get o k dflt s = (Ok (default dflt (assoc_get k d)), s).
Proof. intros E. unfold py_get, bind, get_heap, ret. by rewrite E. Qed.

Lemma agent_of_Some self h st a :
  agent_of self h st = Some a ->
  exists d k, as_dict h st = Some d
    /\ default VNone (assoc_get "type" d) = VStr k
    /\ mjoin (registry_get k (agents self)) = Some a.
Proof.
  unfold agent_of, type_of.
  destruct (as_dict h st) as [d|]; [|done]. simpl.
  destruct (default VNone (assoc_get "type" d)) eqn:E; try done. eauto.
Qed.

(** With nothing to chain, a registered step calls its handler on the
    sub-task itself, in the store as it is. *)
Lemma sequential_step_unchained self idx st s a ty :
  type_of (st_heap s) st = Some ty ->
  agent_of self (st_heap s) st = Some a ->
  sequential_step self idx st VNone s =
  match a st (st_heap s) with
  | (Ok x, h') =>
      (Ok (x, x),
       {| st_heap := h';
          st_trace := st_trace s ++ [Dispatch st (st_heap s) (Ok x)] |})
  | (Raise e, h') =>
      (Ok (VRef (length h'), VNone),
       {| st_heap := h' ++ [agent_failed_error ty e st];
          st_trace := st_trace s ++ [Dispatch st (st_heap s) (Raise e)] |})
  end.
Proof.
  intros Hty Ha. pose proof Ha as Ha'.
  apply agent_of_Some in Ha' as (d & k & Hd & Hk & Hreg).
  unfold type_of in Hty. rewrite Hd in Hty. simpl in Hty. invc Hty.
  unfold sequential_step. unfold bind at 1. rewrite (py_get_dict _ _ _ _ _ Hd).
  rewrite Hk. unfold bind at 1. unfold agents_get, ret at 1. rewrite Hreg.
  rewrite andb_false_r. unfold bind at 1. unfold ret at 1.
  unfold bind, try_. rewrite call_handle_eq.
  destruct (a st (st_heap s)) as [[x|e] h']; simpl; done.
Qed.

(** A step whose type has no handler: an error Result and no dispatch. *)
Lemma sequential_step_no_agent self idx st prev s ty :
  type_of (st_heap s) st = Some ty ->
  (forall l, ty ≠ VRef l) ->
  agent_of self (st_heap s) st = None ->
  sequential_step self idx st prev s =
  (Ok (VRef (length (st_heap s)), prev),
   {| st_heap := st_heap s ++ [no_agent_error ty]; st_trace := st_trace s |}).
Proof.
  intros Hty Href Ha. unfold agent_of in Ha. rewrite Hty in Ha. simpl in Ha.
  unfold type_of in Hty.
  destruct (as_dict (st_heap s) st) as [d|] eqn:Hd; [|done]. simpl in Hty.
  invc Hty. unfold sequential_step.
  unfold bind at 1. rewrite (py_get_dict _ _ _ _ _ Hd).
  destruct (default VNone (assoc_get "type" d)) as [| | |k|l] eqn:Hk;
    try done; try (by destruct (Href l)).
  unfold bind at 1. unfold agents_get, ret at 1. rewrite Ha. done.
Qed.



(** ** The choice between concurrent and sequential execution *)

Lemma can_run_concurrent_later sts : forall idx s,
  0 < idx ->
  Forall (fun st => has_payload (st_heap s) st = true) sts ->
  can_run_concurrent idx sts s
  = (Ok (forallb (fun st => negb (declares_input (st_heap s) st)) sts), s).
Proof.
  induction sts as [|st rest IH]; intros idx s Hidx Hall; simpl; [done|].
  apply Forall_cons in Hall as [Hst Hall].
  unfold has_payload in Hst.
  destruct (as_dict (st_heap s) st) as [d|] eqn:Hd; [|done].
  destruct (assoc_get "payload" d) as [p|] eqn:Hp; [|done].
  apply bool_decide_eq_true in Hst as [pd Hpd].
  rewrite decide_False by lia.
  unfold bind at 1. unfold bind at 1. unfold py_getitem at 1.
  unfold bind at 1. unfold get_heap at 1. rewrite Hd, Hp. unfold ret at 1.
  unfold bind at 1. rewrite (py_get_dict _ _ _ _ _ Hpd).
  unfold bind at 1. unfold get_heap at 1, ret at 1.
  assert (Hdecl : declares_input (st_heap s) st
                  = truthy (st_heap s) (default VNone (assoc_get "input" pd))).
  { unfold declares_input, payload_input. rewrite Hd. simpl. rewrite Hp. simpl.
    by rewrite Hpd. }
  rewrite Hdecl.
  destruct (truthy (st_heap s) (default VNone (assoc_get "input" pd))); simpl.
  - done.
  - apply IH; [lia|done].
Qed.

(** C7 (amended).  With every sub-task after the first carrying a mapping
    as payload, the engine runs the sub-tasks concurrently if and only if
    there is more than one and none after the first has a true value under
    the chaining key of its payload; in every other case it runs them
    sequentially. *)
Theorem strategy_selection (self : Orchestrator) (sub_tasks : list val)
  (s : state) :
  Forall (fun st => has_payload (st_heap s) st = true) (tail sub_tasks) ->
  exists can,
    can_run_concurrent 0 sub_tasks s = (Ok can, s)
    /\ (can && bool_decide (1 < length sub_tasks) = true <->
        1 < length sub_tasks
        /\ Forall (fun st => declares_input (st_heap s) st = false) (tail sub_tasks))
    /\ (can && bool_decide (1 < length sub_tasks) = true ->
        execute_sub_tasks self sub_tasks s
        = (results <- gather self 0 sub_tasks;; aggregate results) s)
    /\ (can && bool_decide (1 < length sub_tasks) = false ->
        execute_sub_tasks self sub_tasks s
        = (results <- run_sequential self 0 sub_tasks VNone [];; aggregate results) s).
Proof.
  intros Hall.
  exists (forallb (fun st => negb (declares_input (st_heap s) st)) (tail sub_tasks)).
  assert (Hcan : can_run_concurrent 0 sub_tasks s
                 = (Ok (forallb (fun st => negb (declares_input (st_heap s) st))
                                (tail sub_tasks)), s)).
  { destruct sub_tasks as [|st rest]; [done|]. simpl.
    unfold bind at 1. unfold ret at 1.
    apply can_run_concurrent_later; [lia|done]. }
  split; [done|]. split; [|split].
  - rewrite andb_true_iff, bool_decide_eq_true, forallb_forall, Forall_forall.
    split.
    + intros [H1 H2]. split; [done|]. intros st Hst.
      apply list_elem_of_In, H1 in Hst. by destruct (declares_input _ st).
    + intros [H1 H2]. split; [|done]. intros st Hst.
      apply list_elem_of_In, H2 in Hst. by rewrite Hst.
  - intros Hc. unfold execute_sub_tasks. unfold bind at 1. rewrite Hcan.
    unfold bind at 2. unfold bind at 1. by rewrite Hc.
  - intros Hc. unfold execute_sub_tasks. unfold bind at 1. rewrite Hcan.
    unfold bind at 2. unfold bind at 1. by rewrite Hc.
Qed.

(** ** Substrings *)

Lemma startswith_app s b : PyStr.startswith s (s +:+ b) = true.
Proof.
  induction s as [|c s IH]; simpl; [done|].
  destruct (ascii_dec c c) as [_|n]; [done|by destruct n].
Qed.

Lemma startswith_app_r s t b :
  PyStr.startswith s t = true -> PyStr.startswith s (t +:+ b) = true.
Proof.
  revert t. induction s as [|c s IH]; intros t; simpl; [done|].
  destruct t as [|c' t]; simpl; [done|].
  destruct (ascii_dec c c'); [apply IH|done].
Qed.

Lemma str_in_app_l s a t :
  PyStr.str_in s t = true -> PyStr.str_in s (a +:+ t) = true.
Proof.
  intros H. induction a as [|c a IH]; simpl; [done|].
  rewrite IH. apply orb_true_r.
Qed.

Lemma str_in_app_r s t b :
  PyStr.str_in s t = true -> PyStr.str_in s (t +:+ b) = true.
Proof.
  induction t as [|c t IH]; simpl.
  - rewrite orb_false_r. intros H.
    destruct s; [|done]. by destruct b.
  - intros [H|H]%orb_true_iff.
    + change (String c (t +:+ b)) with (String c t +:+ b).
      rewrite (startswith_app_r _ _ _ H). done.
    + rewrite (IH H). apply orb_true_r.
Qed.

Lemma str_in_self s b : PyStr.str_in s (s +:+ b) = true.
Proof.
  destruct s as [|c s].
  - by destruct b.
  - change (PyStr.str_in (String c s) (String c s +:+ b))
      with (PyStr.startswith (String c s) (String c s +:+ b)
            || PyStr.str_in (String c s) (s +:+ b)).
    by rewrite startswith_app.
Qed.

Lemma str_in_mid a s b : PyStr.str_in s (a +:+ s +:+ b) = true.
Proof. apply str_in_app_l, str_in_self. Qed.

Lemma append_empty s : s +:+ EmptyString = s.
Proof.
  induction s as [|c s IH]; [done|].
  change (String c (s +:+ EmptyString) = String c s). by rewrite IH.
Qed.

Lemma str_in_refl s : PyStr.str_in s s = true.
Proof.
  pose proof (str_in_self s EmptyString) as H. by rewrite append_empty in H.
Qed.

Lemma str_in_join x sep l :
  x ∈ l -> PyStr.str_in x (PyStr.join sep l) = true.
Proof.
  induction l as [|y l IH]; [by intros ?%elem_of_nil|].
  intros [->|Hx]%elem_of_cons.
  - destruct l; [apply str_in_refl|apply str_in_self].
  - destruct l as [|z l]; [by apply elem_of_nil in Hx|].
    change (PyStr.join sep (y :: z :: l))
      with (y +:+ sep +:+ PyStr.join sep (z :: l)).
    apply str_in_app_l, str_in_app_l. by apply IH.
Qed.

(** Every key shows, as [repr] prints it, in the printed list of keys. *)
Lemma str_in_repr_list k l :
  k ∈ l -> PyStr.str_in (PyStr.repr k) (PyStr.repr_list l) = true.
Proof.
  intros Hk. unfold PyStr.repr_list.
  apply str_in_app_l, str_in_app_r, str_in_join.
  by apply list_elem_of_fmap_2.
Qed.

(** ** A type without handler *)

Lemma agents_get_no_agent self h st ty s :
  type_of h st = Some ty ->
  (forall l, ty ≠ VRef l) ->
  agent_of self h st = None ->
  agents_get self ty s = (Ok None, s).
Proof.
  intros Hty Href Ha. unfold agent_of in Ha. rewrite Hty in Ha. simpl in Ha.
  unfold agents_get. destruct ty; try done.
  - by rewrite Ha.
  - by destruct (Href l).
Qed.

Lemma route_task_no_agent self task s ty :
  type_of (st_heap s) task = Some ty ->
  (forall l, ty ≠ VRef l) ->
  agent_of self (st_heap s) task = None ->
  gemini_model self = None
  \/ (_get_agent_type_from_gemini self task s = (Ok ty, s)
      /\ truthy (st_heap s) ty = true) ->
  route_task self task s =
  (Ok (VRef (length (st_heap s))),
   {| st_heap := st_heap s ++ [ODict [("error", VStr (agent_not_found_text self ty))]];
      st_trace := st_trace s |}).
Proof.
  intros Hty Href Ha Horacle.
  pose proof (agents_get_no_agent _ _ _ _ s Hty Href Ha) as Hget.
  unfold type_of in Hty.
  destruct (as_dict (st_heap s) task) as [d|] eqn:Hd; [|done].
  simpl in Hty. invc Hty.
  set (ty := default VNone (assoc_get "type" d)) in *.
  unfold route_task. unfold bind at 1. unfold try_ at 1.
  unfold bind at 1. rewrite (py_get_dict _ _ _ _ _ Hd). fold ty.
  assert (Hsel : (match gemini_model self with
                  | Some _ =>
                      determined_agent_type <- _get_agent_type_from_gemini self task;;
                      h <- get_heap;;
                      known <- (if truthy h determined_agent_type
                                then py_in_agents self determined_agent_type
                                else ret false);;
                      if known then ret determined_agent_type
                      else if negb (truthy h ty)
                           then ret (VStr (default_agent_type self))
                           else ret ty
                  | None => ret ty
                  end) s = (Ok ty, s)).
  { destruct Horacle as [->|[Hdet Htruthy]]; [done|].
    destruct (gemini_model self); [|done].
    unfold bind at 1. rewrite Hdet.
    unfold bind at 1. unfold get_heap at 1. rewrite Htruthy.
    unfold bind at 1. unfold py_in_agents.
    destruct ty as [| | |k|l]; try done.
    unfold ret at 1. by destruct (in_agents self k). }
  unfold bind at 1. rewrite Hsel.
  unfold bind at 1. rewrite Hget. done.
Qed.

Lemma run_agent_no_agent self st idx s ty :
  type_of (st_heap s) st = Some ty ->
  (forall l, ty ≠ VRef l) ->
  agent_of self (st_heap s) st = None ->
  run_agent self st idx s =
  (Ok (VRef (length (st_heap s))),
   {| st_heap := st_heap s ++ [no_agent_error ty]; st_trace := st_trace s |}).
Proof.
  intros Hty Href Ha.
  pose proof (agents_get_no_agent _ _ _ _ s Hty Href Ha) as Hget.
  unfold type_of in Hty.
  destruct (as_dict (st_heap s) st) as [d|] eqn:Hd; [|done].
  simpl in Hty. invc Hty.
  unfold run_agent. unfold bind at 1. rewrite (py_get_dict _ _ _ _ _ Hd).
  unfold bind at 1. rewrite Hget. done.
Qed.

(** C8 (amended).  A task whose type (a hashable value) has no handler.
    The router, when no oracle is configured or when the oracle leaves the
    task's own, true, type, calls no handler and returns an error Result
    whose text contains the type value and the printed list of all known
    type ids.  The engine, in the sequential loop and in [run_agent],
    calls no handler and records the error Result "No agent for type: T",
    whose text contains the type value (and not the known type ids). *)
Theorem unregistered_type_is_reported
  (self : Orchestrator) (task : val) (s : state) (ty : val) :
  type_of (st_heap s) task = Some ty ->
  (forall l, ty ≠ VRef l) ->
  agent_of self (st_heap s) task = None ->
  let reported (text : string) : outcome val * state :=
    (Ok (VRef (length (st_heap s))),
     {| st_heap := st_heap s ++ [ODict [("error", VStr text)]];
        st_trace := st_trace s |}) in
  (gemini_model self = None
   \/ (_get_agent_type_from_gemini self task s = (Ok ty, s)
       /\ truthy (st_heap s) ty = true) ->
   route_task self task s = reported (agent_not_found_text self ty))
  /\ PyStr.str_in (py_str ty) (agent_not_found_text self ty) = true
  /\ (forall k, k ∈ keys (agents self) ->
       PyStr.str_in (PyStr.repr k) (agent_not_found_text self ty) = true)
  /\ (forall idx prev,
       sequential_step self idx task prev s
       = (Ok (VRef (length (st_heap s)), prev),
          (reported ("No agent for type: " +:+ py_str ty)).2))
  /\ (forall idx,
       run_agent self task idx s = reported ("No agent for type: " +:+ py_str ty))
  /\ PyStr.str_in (py_str ty) ("No agent for type: " +:+ py_str ty) = true.
Proof.
  intros Hty Href Ha reported. repeat split.
  - intros Horacle. by apply route_task_no_agent.
  - unfold agent_not_found_text. apply str_in_mid.
  - intros k Hk. unfold agent_not_found_text.
    apply str_in_app_l, str_in_app_l, str_in_app_l. by apply str_in_repr_list.
  - intros idx prev. by apply sequential_step_no_agent.
  - intros idx. by apply run_agent_no_agent.
  - apply str_in_app_l, str_in_refl.
Qed.

(** ** Decomposition *)

(** Induction on literals, through the lists they contain. *)
Lemma lit_nested_ind (P : lit -> Prop) :
  P LNone -> (forall b, P (LBool b)) -> (forall z, P (LInt z)) ->
  (forall s, P (LStr s)) ->
  (forall l, Forall P l -> P (LList l)) ->
  (forall d, Forall (fun kv => P kv.2) d -> P (LDict d)) ->
  forall x, P x.
Proof.
  intros HNone HBool HInt HStr HList HDict.
  fix IH 1.
  intros [| | | |l|d];
    [apply HNone|apply HBool|apply HInt|apply HStr|apply HList|apply HDict].
  - induction l as [|y l IHl]; constructor; [apply IH|apply IHl].
  - induction d as [|[k y] d IHd]; constructor; [apply IH|apply IHd].
Qed.

Lemma mapM_grows {A B} (f : A -> M B) Q (l : list A) :
  Forall (grows f Q) l ->
  forall s, exists bs ext,
    mapM f l s = (Ok bs, {| st_heap := st_heap s ++ ext; st_trace := st_trace s |})
    /\ Forall2 (fun a b => forall ext', Q a b (st_heap s ++ ext ++ ext')) l bs.
Proof.
  induction 1 as [|a l Ha Hl IH]; intros s.
  - exists [], []. simpl. rewrite app_nil_r. by destruct s.
  - destruct (Ha s) as (b & e1 & Hb & Qb).
    destruct (IH {| st_heap := st_heap s ++ e1; st_trace := st_trace s |})
      as (bs & e2 & Hbs & Qbs). simpl in *.
    exists (b :: bs), (e1 ++ e2). split.
    + unfold bind. rewrite Hb, Hbs. unfold ret. by rewrite app_assoc.
    + constructor.
      * intros ext'. rewrite <- (app_assoc e1). apply Qb.
      * eapply Forall2_impl; [exact Qbs|]. intros a' b' Hq ext'.
        specialize (Hq ext'). simpl in Hq.
        rewrite <- app_assoc in Hq. rewrite <- app_assoc. exact Hq.
Qed.

Ltac exists_atom :=
  match goal with
  | |- exists v ext, alloc_lit ?x ?s = _ /\ _ =>
      exists (match x with
              | LBool b => VBool b | LInt z => VInt z | LStr t => VStr t
              | _ => VNone
              end), [];
      split; [simpl; unfold ret; rewrite app_nil_r; by destruct s|done]
  end.

Lemma is_dict_fresh (h : heap) o ext :
  is_dict (h ++ [o] ++ ext) (VRef (length h))
  = match o with ODict _ => true | OList _ => false end.
Proof.
  unfold is_dict, as_dict. rewrite lookup_app_r by lia.
  rewrite Nat.sub_diag. simpl. destruct o.
  - apply bool_decide_true. eauto.
  - apply bool_decide_false. by intros [? ?].
Qed.

Lemma alloc_lit_LDict d :
  alloc_lit (LDict d)
  = (kvs <- mapM (fun '(k, y) => v <- alloc_lit y;; ret (k, v)) d;;
     alloc (ODict (dict_of kvs))).
Proof. done. Qed.

Lemma alloc_lit_grows x :
  grows alloc_lit (fun x v h => is_dict h v = is_ldict x) x.
Proof.
  induction x as [| | |t|l IH|d IH] using lit_nested_ind; intros s.
  1-4: exists_atom.
  - destruct (mapM_grows _ _ _ IH s) as (vs & ext & Hvs & _).
    exists (VRef (length (st_heap s ++ ext))), (ext ++ [OList vs]). split.
    + simpl. unfold bind. rewrite Hvs. unfold alloc. simpl.
      by rewrite app_assoc.
    + intros ext'. rewrite <- app_assoc, app_assoc. apply is_dict_fresh.
  - pose proof (alloc_lit_LDict d) as E.
    match type of E with
    | _ = bind (mapM ?f d) _ =>
        assert (Hd : Forall (grows f (fun _ _ _ => True)) d)
    end.
    { eapply Forall_impl; [exact IH|]. intros [k y] Hy s0. simpl in Hy.
      destruct (Hy s0) as (v & ext & Hv & _).
      exists (k, v), ext. split; [|done]. unfold bind. by rewrite Hv. }
    destruct (mapM_grows _ _ _ Hd s) as (kvs & ext & Hkvs & _).
    exists (VRef (length (st_heap s ++ ext))), (ext ++ [ODict (dict_of kvs)]).
    split.
    + rewrite E. unfold bind at 1. rewrite Hkvs. unfold alloc. simpl.
      by rewrite app_assoc.
    + intros ext'. rewrite <- app_assoc, app_assoc. apply is_dict_fresh.
Qed.

Lemma all_dicts_eq l s :
  all_dicts l s = (Ok (forallb (is_dict (st_heap s)) l), s).
Proof.
  induction l as [|v l IH]; simpl; [done|].
  unfold bind. rewrite isinstance_dict_eq.
  destruct (is_dict (st_heap s) v); simpl; [apply IH|done].
Qed.

Lemma alloc_lit_LList xs s :
  exists vs ext,
    alloc_lit (LList xs) s
    = (Ok (VRef (length (st_heap s ++ ext))),
       {| st_heap := (st_heap s ++ ext) ++ [OList vs]; st_trace := st_trace s |})
    /\ length vs = length xs
    /\ forallb (is_dict ((st_heap s ++ ext) ++ [OList vs])) vs = forallb is_ldict xs
    /\ mapM alloc_lit xs s
       = (Ok vs, {| st_heap := st_heap s ++ ext; st_trace := st_trace s |}).
Proof.
  assert (Hxs : Forall (grows alloc_lit (fun x v h => is_dict h v = is_ldict x)) xs).
  { apply Forall_forall. intros x _. apply alloc_lit_grows. }
  destruct (mapM_grows _ _ _ Hxs s) as (vs & ext & Hvs & Q).
  exists vs, ext. split; [|split; [|split; [|exact Hvs]]].
  - simpl. unfold bind. by rewrite Hvs.
  - symmetry. by eapply Forall2_length.
  - rewrite <- app_assoc. generalize [OList vs]. clear Hvs Hxs.
    induction Q as [|x v xs' vs' Hxv _ IH]; intros ext'; [done|].
    simpl. rewrite Hxv. f_equal. apply IH.
Qed.

Lemma forallb_is_dict_Forall h l :
  forallb (is_dict h) l = true -> Forall (fun v => is_dict h v = true) l.
Proof.
  rewrite forallb_forall, Forall_forall. intros H v Hv.
  by apply H, list_elem_of_In.
Qed.

(** C2 (amended).  [decompose_task] always returns a list.  It is the list
    [[task]] when no oracle is configured, when the oracle call raises, when
    the answer cannot be evaluated and when it evaluates to something else
    than a list of mappings.  Otherwise it is the list the answer evaluates
    to: the elements of the list object that the evaluation builds in the
    store, which are the values built from the elements of the answer, in
    their order, and so as many; at least one, unless the answer is the
    empty list, which is returned as it is. *)
Theorem decompose_task_result
  (literal_eval : string -> outcome lit) (self : Orchestrator) (task : val)
  (s : state) :
  (gemini_model self = None ->
   decompose_task literal_eval self task s = (Ok [task], s))
  /\ (forall model, gemini_model self = Some model ->
      match model (DecomposePrompt (keys (agents self)) task) (st_heap s) with
      | Raise _ => decompose_task literal_eval self task s = (Ok [task], s)
      | Ok text =>
          match strip_code_block (PyStr.strip text) with
          | Raise _ => decompose_task literal_eval self task s = (Ok [task], s)
          | Ok response_text =>
              match literal_eval response_text with
              | Raise _ => decompose_task literal_eval self task s = (Ok [task], s)
              | Ok (LList xs) =>
                  exists l s',
                    decompose_task literal_eval self task s = (Ok l, s')
                    /\ st_trace s' = st_trace s
                    /\ if forallb is_ldict xs
                       then length l = length xs
                            /\ Forall (fun v => is_dict (st_heap s') v = true) l
                            /\ exists s0 r,
                                 mapM alloc_lit xs s = (Ok l, s0)
                                 /\ alloc_lit (LList xs) s = (Ok (VRef r), s')
                                 /\ st_heap s' = st_heap s0 ++ [OList l]
                                 /\ st_heap s' !! r = Some (OList l)
                       else l = [task]
              | Ok _ =>
                  exists s',
                    decompose_task literal_eval self task s = (Ok [task], s')
                    /\ st_trace s' = st_trace s
              end
          end
      end).
Proof.
  split.
  - intros Hm. unfold decompose_task. by rewrite Hm.
  - intros model Hm.
    assert (E : forall (P : outcome (list val) * state -> Prop),
               P ((r <- try_ (
                     text <- ask model (DecomposePrompt (keys (agents self)) task);;
                     response_text <- lift (strip_code_block (PyStr.strip text));;
                     sub_tasks <- literal_eval_m literal_eval response_text;;
                     h <- get_heap;;
                     match as_list h sub_tasks with
                     | Some l => b <- all_dicts l;; ret (if b then l else [task])
                     | None => ret [task]
                     end);;
                   match r with
                   | Ok l => ret l
                   | Raise _ => ret [task]
                   end) s) ->
               P (decompose_task literal_eval self task s)).
    { intros P HP. unfold decompose_task. by rewrite Hm. }
    destruct (model _ (st_heap s)) as [text|e] eqn:Eo.
    2:{ apply E. unfold bind at 1, try_ at 1, bind at 1, ask at 1.
        by rewrite Eo. }
    destruct (strip_code_block (PyStr.strip text)) as [src|e] eqn:Es.
    2:{ apply E. unfold bind at 1, try_ at 1, bind at 1, ask at 1.
        rewrite Eo. unfold bind at 1, lift at 1. by rewrite Es. }
    destruct (literal_eval src) as [x|e] eqn:El.
    2:{ apply E. unfold bind at 1, try_ at 1, bind at 1, ask at 1.
        rewrite Eo. unfold bind at 1, lift at 1. rewrite Es.
        unfold bind at 1, literal_eval_m at 1. by rewrite El. }
    assert (E' : forall (P : outcome (list val) * state -> Prop),
               P (match (sub_tasks <- alloc_lit x;;
                         h <- get_heap;;
                         match as_list h sub_tasks with
                         | Some l => b <- all_dicts l;; ret (if b then l else [task])
                         | None => ret [task]
                         end) s with
                  | (Ok l, s') => (Ok l, s')
                  | (Raise _, s') => (Ok [task], s')
                  end) ->
               P (decompose_task literal_eval self task s)).
    { intros P HP. apply E. unfold bind at 1, try_ at 1, bind at 1, ask at 1.
      rewrite Eo. unfold bind at 1, lift at 1. rewrite Es.
      unfold bind at 1, literal_eval_m at 1. rewrite El.
      match goal with
      | |- P (match (let (o, s') := ?m in _) with _ => _ end) =>
          match type of HP with
          | P (match ?m' with _ => _ end) =>
              change m with (bind (alloc_lit x) (fun sub_tasks =>
                 h <- get_heap;;
                 match as_list h sub_tasks with
                 | Some l => b <- all_dicts l;; ret (if b then l else [task])
                 | None => ret [task]
                 end) s);
              destruct m' as [[l|e] s']; exact HP
          end
      end. }
    clear E. destruct x as [|b|z|t|xs|d].
    1-4: by (apply E'; eexists; split; [reflexivity|done]).
    + destruct (alloc_lit_LList xs s) as (vs & ext & Hal & Hlen & Hall & Hmap).
      apply E'. unfold bind at 1. rewrite Hal.
      unfold bind at 1, get_heap at 1. cbn [st_heap].
      unfold as_list. rewrite lookup_fresh.
      unfold bind at 1. rewrite all_dicts_eq. cbn [st_heap]. rewrite Hall.
      unfold ret at 1. eexists _, _. split; [reflexivity|]. split; [done|].
      destruct (forallb is_ldict xs) eqn:Ex; [|done]. split; [done|].
      split; [simpl; apply forallb_is_dict_Forall; by rewrite Hall|].
      eexists _, _. split; [exact Hmap|]. split; [reflexivity|].
      cbn [st_heap]. split; [done|]. apply lookup_fresh.
    + destruct (alloc_lit_grows (LDict d) s) as (v & ext & Hal & Hd).
      apply E'. unfold bind at 1. rewrite Hal.
      unfold bind at 1, get_heap at 1. cbn [st_heap].
      specialize (Hd []). rewrite app_nil_r in Hd. simpl in Hd.
      apply bool_decide_eq_true in Hd as [dd Hdd].
      assert (Hl : as_list (st_heap s ++ ext) v = None).
      { destruct v; try done. simpl in *.
        by destruct ((st_heap s ++ ext) !! l) as [[?|?]|]. }
      rewrite Hl. eexists. split; [reflexivity|done].
Qed.

(** ** The rule-based classifier *)

(** C9 (amended).  With no oracle configured, [classify_task] on a text (a string or
    [None]) returns a new task whose type is decided on the lower-cased text
    in this order: "search" gives web_search; otherwise "data" or "fetch"
    gives data_retrieval; otherwise "report" gives report_generation;
    otherwise "dashboard" or "analy" gives analysis_dashboard; otherwise the
    configured default type.  Its payload is [{"query": text}], its user is
    the user given, and its context is a new mapping [{"channel": channel}]
    that holds the channel given (the third input of the classifier is the
    channel, not a context). *)
Theorem classify_fallback_mapping
  (literal_eval : string -> outcome lit) (self : Orchestrator)
  (text user channel : val) (s : state) :
  gemini_model self = None ->
  text = VNone \/ (exists t, text = VStr t) ->
  let lowered := match text with VStr t => PyStr.lower t | _ => EmptyString end in
  let n := length (st_heap s) in
  exists ty,
    classify_task literal_eval self text user channel s
    = (Ok (VRef (2 + n)),
       {| st_heap := st_heap s ++
            [ ODict [("query", text)];
              ODict [("channel", channel)];
              ODict [("type", VStr ty); ("payload", VRef n);
                     ("user", user); ("context", VRef (1 + n))] ];
          st_trace := st_trace s |})
    /\ (PyStr.str_in "search" lowered = true -> ty = "web_search")
    /\ (PyStr.str_in "search" lowered = false ->
        PyStr.str_in "data" lowered || PyStr.str_in "fetch" lowered = true ->
        ty = "data_retrieval")
    /\ (PyStr.str_in "search" lowered = false ->
        PyStr.str_in "data" lowered || PyStr.str_in "fetch" lowered = false ->
        PyStr.str_in "report" lowered = true ->
        ty = "report_generation")
    /\ (PyStr.str_in "search" lowered = false ->
        PyStr.str_in "data" lowered || PyStr.str_in "fetch" lowered = false ->
        PyStr.str_in "report" lowered = false ->
        PyStr.str_in "dashboard" lowered || PyStr.str_in "analy" lowered = true ->
        ty = "analysis_dashboard")
    /\ (PyStr.str_in "search" lowered = false ->
        PyStr.str_in "data" lowered || PyStr.str_in "fetch" lowered = false ->
        PyStr.str_in "report" lowered = false ->
        PyStr.str_in "dashboard" lowered || PyStr.str_in "analy" lowered = false ->
        ty = default_agent_type self).
Proof.
  intros Hm Htext lowered n. exists (fallback_type self lowered). split.
  - unfold classify_task. rewrite Hm. unfold bind at 1, ret at 1.
    assert (Hlow : lowered_text text s = (Ok lowered, s)).
    { unfold lowered_text, bind, get_heap. subst lowered.
      destruct Htext as [->|[t ->]]; [done|]. simpl.
      destruct (bool_decide (t = EmptyString)) eqn:Et; [|done].
      apply bool_decide_eq_true in Et. by subst t. }
    unfold bind at 1. rewrite Hlow.
    unfold bind, alloc. simpl. rewrite !length_app. simpl.
    rewrite <- !app_assoc. simpl. subst n.
    by rewrite Nat.add_1_r, Nat.add_comm.
  - unfold fallback_type. repeat split.
    + by intros ->.
    + by intros -> ->.
    + by intros -> -> ->.
    + by intros -> -> -> ->.
    + by intros -> -> -> ->.
Qed.

(** ** The start-up wiring *)

(** C10.  Once [instance.py] has run, every registered type id has a
    handler.  The slot of llm_response is empty when the orchestrator is
    constructed and the other four are filled; it is then written once,
    with the Gemini-backed agent when a model is available and with the
    dummy agent otherwise; the registry is otherwise the one constructed.
    So the default type, llm_response, always finds its handler. *)
Theorem late_bound_slot_is_filled (env : environment) (WebSearchAgent : agent) :
  let before := Instance.constructed env WebSearchAgent in
  let after := Instance.orchestrator env WebSearchAgent in
  let llm := Instance.llm_instance env WebSearchAgent in
  registry_get "llm_response" (agents before) = Some None
  /\ (forall k, k ∈ keys (agents before) -> k ≠ "llm_response" ->
      exists a, registry_get k (agents before) = Some (Some a)
                /\ registry_get k (agents after) = Some (Some a))
  /\ agents after = registry_set "llm_response" (Some llm) (agents before)
  /\ keys (agents after) = keys (agents before)
  /\ (forall k, k ∈ keys (agents after) ->
      exists a, registry_get k (agents after) = Some (Some a))
  /\ (forall model, gemini_model before = Some model ->
      llm = LLMResponseAgent (Some model))
  /\ (gemini_model before = None -> llm = DummyLLMResponseAgent)
  /\ default_agent_type after = "llm_response"
  /\ (forall s, agents_get after (VStr (default_agent_type after)) s
               = (Ok (Some llm), s)).
Proof.
  intros before after llm. repeat split.
  - intros k Hk Hne. simpl in Hk.
    repeat (apply elem_of_cons in Hk as [->|Hk]; [eexists; split; reflexivity|]);
      try (apply elem_of_cons in Hk as [->|Hk]; [done|]);
      by apply elem_of_nil in Hk.
  - intros k Hk. simpl in Hk.
    repeat (apply elem_of_cons in Hk as [->|Hk]; [eexists; reflexivity|]).
    by apply elem_of_nil in Hk.
  - intros model Hm. subst llm. unfold Instance.llm_instance.
    subst before. by rewrite Hm.
  - intros Hm. subst llm. unfold Instance.llm_instance.
    subst before. by rewrite Hm.
Qed.

(** * The claims on concrete runs *)

(** C1.  [handle_task] is not total: when the oracle decomposes the task
    into two sub-tasks and the second has no "payload", the choice of the
    strategy (line 229) raises [KeyError: 'payload'], and nothing catches
    it. *)
Theorem handle_task_raises_on_missing_payload :
  LiteralEval.literal_eval Fixture.missing_payload_reply
  = Ok (LList [LDict [("type", LStr "data_retrieval"); ("payload", LDict [])];
               LDict [("type", LStr "report_generation")]])
  /\ (handle_task LiteralEval.literal_eval
        (Fixture.orchestrator_instance
           (Some (Fixture.replies Fixture.missing_payload_reply)))
        Fixture.task Fixture.task_store).1
     = Raise (KeyError "payload").
Proof. split; vm_compute; reflexivity. Qed.

(** C3.  Chaining writes into the payload of the sub-task it was given:
    [sub_task.copy()] copies the sub-task and shares its payload.  With two
    sub-tasks, the second declaring "input": 'sales', the second handler is
    called on a copy (location 9) of the sub-task (location 6), and the
    payload of the sub-task itself (location 5) holds afterwards the first
    Result (location 8) in place of 'sales'. *)
Theorem chaining_overwrites_the_payload_of_the_sub_task :
  let self := Fixture.orchestrator_instance (Some (Fixture.replies Fixture.chained_reply)) in
  let decomposed := decompose_task LiteralEval.literal_eval self Fixture.task Fixture.task_store in
  let run := handle_task LiteralEval.literal_eval self Fixture.task Fixture.task_store in
  decomposed.1 = Ok [VRef 4; VRef 6]
  /\ payload_input (st_heap decomposed.2) (VRef 6) = Some (VStr "sales")
  /\ run.1 = Ok (VRef 11)
  /\ map d_task (st_trace run.2) = [VRef 4; VRef 9]
  /\ map d_outcome (st_trace run.2) = [Ok (VRef 8); Ok (VRef 11)]
  /\ payload_input (st_heap run.2) (VRef 6) = Some (VRef 8)
  /\ st_heap decomposed.2 !! 5
     = Some (ODict [("analysis_type", VStr "trend"); ("input", VStr "sales")])
  /\ st_heap run.2 !! 5
     = Some (ODict [("analysis_type", VStr "trend"); ("input", VRef 8)]).
Proof. repeat split; vm_compute; reflexivity. Qed.

(** C2, as stated, fails: the oracle may answer with the empty list, and it
    is returned as it is. *)
Lemma decompose_task_returns_the_empty_list :
  (decompose_task LiteralEval.literal_eval
     (Fixture.orchestrator_instance (Some (Fixture.replies "[]")))
     Fixture.task Fixture.task_store).1 = Ok [].
Proof. vm_compute. reflexivity. Qed.

(** C9, as stated, fails: the context of the task returned is not an input
    returned verbatim; it is a new mapping that holds the channel given. *)
Lemma context_is_a_new_mapping :
  let run := classify_task LiteralEval.literal_eval
               (Fixture.orchestrator_instance None)
               (VStr "generate a sales report for last quarter")
               (VStr "U1") (VStr "C1") {| st_heap := []; st_trace := [] |} in
  exists d context,
    run.1 = Ok (VRef 2)
    /\ as_dict (st_heap run.2) (VRef 2) = Some d
    /\ assoc_get "user" d = Some (VStr "U1")
    /\ assoc_get "context" d = Some context
    /\ context <> VStr "C1"
    /\ context <> VStr "generate a sales report for last quarter"
    /\ context <> VStr "U1"
    /\ as_dict (st_heap run.2) context = Some [("channel", VStr "C1")].
Proof.
  vm_compute. eexists _, _. repeat split; try reflexivity; discriminate.
Qed.


(** After a step whose type is not registered, [prev_result] is not reset
    (line 258 continues without line 273): the third step receives the
    Result of the first. *)
Example unregistered_step_keeps_previous_result :
  let run := execute_sub_tasks (Fixture.orchestrator_instance None)
               Fixture.sub_tasks Fixture.forecast_store in
  agent_of (Fixture.orchestrator_instance None)
    (st_heap Fixture.forecast_store) (VRef 3) = None
  /\ map d_outcome (st_trace run.2) = [Ok (VRef 6); Ok (VRef 10)]
  /\ (exists d1, st_trace run.2 !! 1 = Some d1
        /\ payload_input (d_heap d1) (d_task d1) = Some (VRef 6)).
Proof. vm_compute. repeat split. eexists. split; reflexivity. Qed.

(** C5, as stated, fails: the composite has no field "status"; its field is
    "final_status", with another text. *)
Lemma composite_has_no_status_field :
  let run := aggregate [VRef 0; VRef 1] Fixture.results_store in
  exists d,
    as_dict (st_heap run.2) (default VNone (match run.1 with Ok v => Some v | _ => None end))
    = Some d
    /\ assoc_get "status" d = None
    /\ assoc_get "final_status" d
       = Some (VStr "Completed with errors or multiple results")
    /\ assoc_get "results" d = Some (VRef 2)
    /\ st_heap run.2 !! 2 = Some (OList [VRef 0; VRef 1]).
Proof. vm_compute. eexists. repeat split; reflexivity. Qed.

(** C7, as stated, fails: the second of two sub-tasks comes with the
    chaining key, bound to [None], and the two are run concurrently. *)
Lemma none_under_the_chaining_key_runs_concurrently :
  let s := Fixture.none_input_store in
  let self := Fixture.orchestrator_instance None in
  (exists pd, as_dict (st_heap s) (VRef 2) = Some pd /\ assoc_mem "input" pd = true)
  /\ payload_input (st_heap s) (VRef 3) = Some VNone
  /\ can_run_concurrent 0 [VRef 1; VRef 3] s = (Ok true, s)
  /\ execute_sub_tasks self [VRef 1; VRef 3] s
     = (results <- gather self 0 [VRef 1; VRef 3];; aggregate results) s
  /\ map d_task (st_trace (execute_sub_tasks self [VRef 1; VRef 3] s).2)
     = [VRef 1; VRef 3].
Proof.
  repeat split; try (vm_compute; reflexivity).
  eexists. split; vm_compute; reflexivity.
Qed.

(** C8, as stated, fails.  The engine's error Result for an unregistered
    type does not list the known type ids; and the router, when the oracle
    names a registered type, calls that handler for a task whose own type
    is not registered. *)
Lemma unregistered_type_counterexample :
  let engine := handle_task LiteralEval.literal_eval
                  (Fixture.orchestrator_instance None)
                  Fixture.task Fixture.task_store in
  let router := route_task
                  (Fixture.orchestrator_instance (Some (Fixture.replies "web_search")))
                  Fixture.task Fixture.task_store in
  type_of (st_heap Fixture.task_store) Fixture.task = Some (VStr "complex_report")
  /\ agent_of (Fixture.orchestrator_instance None)
       (st_heap Fixture.task_store) Fixture.task = None
  /\ error_text (st_heap engine.2) (VRef 3)
     = Some "No agent for type: complex_report"
  /\ PyStr.str_in "web_search" "No agent for type: complex_report" = false
  /\ map d_task (st_trace router.2) = [Fixture.task]
  /\ error_text (st_heap router.2) (VRef 3) = None.
Proof. repeat split; vm_compute; reflexivity. Qed.

(** * The theorems at concrete inputs *)


Lemma aggregate_cases_witness :
  Forall (fun r => is_dict (st_heap Fixture.results_store) r = true)
    [VRef 0; VRef 1]
  /\ aggregate [VRef 0; VRef 1] Fixture.results_store
     = (Ok (VRef 3),
        {| st_heap := st_heap Fixture.results_store
                      ++ [OList [VRef 0; VRef 1]; composite (VRef 2)];
           st_trace := [] |}).
Proof.
  assert (H : Forall (fun r => is_dict (st_heap Fixture.results_store) r = true)
                [VRef 0; VRef 1]).
  { repeat constructor. }
  split; [exact H|].
  destruct (aggregate_cases [VRef 0; VRef 1] Fixture.results_store H)
    as (_ & _ & _ & Hc).
  apply Hc; [discriminate|reflexivity].
Defined.

Lemma sequential_success_witness :
  let self := Fixture.orchestrator_instance None in
  let s := Fixture.sub_tasks_store in
  let s' := (run_sequential self 0 Fixture.sub_tasks VNone [] s).2 in
  can_run_concurrent 0 Fixture.sub_tasks s = (Ok false, s)
  /\ run_sequential self 0 Fixture.sub_tasks VNone [] s
     = (Ok [VRef 6; VRef 9; VRef 12], s')
  /\ map d_task (new_dispatches s s') = [VRef 1; VRef 7; VRef 10]
  /\ execute_sub_tasks self Fixture.sub_tasks s = (Ok (VRef 12), s').
Proof.
  intros self s s'.
  assert (Hcan : can_run_concurrent 0 Fixture.sub_tasks s = (Ok false, s))
    by (vm_compute; reflexivity).
  assert (Hrun : run_sequential self 0 Fixture.sub_tasks VNone [] s
                 = (Ok [VRef 6; VRef 9; VRef 12], s'))
    by (vm_compute; reflexivity).
  split; [exact Hcan|]. split; [exact Hrun|].
  split; [vm_compute; reflexivity|].
  destruct (sequential_success_chains_previous_result
              self Fixture.sub_tasks s s' false [VRef 6; VRef 9; VRef 12]
              Hcan eq_refl Hrun) as (_ & _ & Hexec).
  - vm_compute. reflexivity.
  - vm_compute. repeat constructor; eexists; (split; [reflexivity|discriminate]).
  - vm_compute. repeat constructor.
  - discriminate.
  - rewrite Hexec. vm_compute. reflexivity.
Defined.

Lemma strategy_selection_witness :
  Forall (fun st => has_payload (st_heap Fixture.sub_tasks_store) st = true)
    (tail Fixture.sub_tasks)
  /\ exists can,
       can_run_concurrent 0 Fixture.sub_tasks Fixture.sub_tasks_store
       = (Ok can, Fixture.sub_tasks_store)
       /\ can && bool_decide (1 < length Fixture.sub_tasks) = false.
Proof.
  assert (H : Forall (fun st => has_payload (st_heap Fixture.sub_tasks_store) st = true)
                (tail Fixture.sub_tasks)).
  { repeat constructor. }
  split; [exact H|].
  destruct (strategy_selection (Fixture.orchestrator_instance None)
              Fixture.sub_tasks Fixture.sub_tasks_store H)
    as (can & Hcan & _).
  exists can. split; [exact Hcan|].
  vm_compute in Hcan. injection Hcan as <-. reflexivity.
Defined.

Lemma unregistered_type_witness :
  type_of (st_heap Fixture.task_store) Fixture.task = Some (VStr "complex_report")
  /\ agent_of (Fixture.orchestrator_instance None)
       (st_heap Fixture.task_store) Fixture.task = None
  /\ route_task (Fixture.orchestrator_instance None) Fixture.task Fixture.task_store
     = (Ok (VRef 3),
        {| st_heap := st_heap Fixture.task_store ++
             [ODict [("error", VStr (agent_not_found_text
                                       (Fixture.orchestrator_instance None)
                                       (VStr "complex_report")))]];
           st_trace := [] |}).
Proof.
  split; [reflexivity|]. split; [reflexivity|].
  destruct (unregistered_type_is_reported (Fixture.orchestrator_instance None)
              Fixture.task Fixture.task_store (VStr "complex_report"))
    as (Hroute & _).
  - reflexivity.
  - discriminate.
  - reflexivity.
  - apply Hroute. left. reflexivity.
Defined.

Lemma classify_fallback_witness :
  gemini_model (Fixture.orchestrator_instance None) = None
  /\ exists ty,
       (classify_task LiteralEval.literal_eval (Fixture.orchestrator_instance None)
          (VStr "generate a sales report for last quarter") (VStr "U1") (VStr "C1")
          {| st_heap := []; st_trace := [] |}).1 = Ok (VRef 2)
       /\ ty = "report_generation".
Proof.
  split; [reflexivity|].
  destruct (classify_fallback_mapping LiteralEval.literal_eval
              (Fixture.orchestrator_instance None)
              (VStr "generate a sales report for last quarter")
              (VStr "U1") (VStr "C1") {| st_heap := []; st_trace := [] |}
              eq_refl (or_intror (ex_intro _ _ eq_refl)))
    as (ty & Hrun & _ & _ & Hreport & _).
  exists ty. split.
  - rewrite Hrun. reflexivity.
  - apply Hreport; vm_compute; reflexivity.
Defined.

(** * Further properties of the orchestrator *)

(** ** Operations that only read *)

Lemma stable_ret {A} (a : A) : stable (ret a).
Proof. intros s o s' H. by invc H. Qed.

Lemma stable_raise {A} e : stable (@raise A e).
Proof. intros s o s' H. by invc H. Qed.

Lemma stable_bind {A B} (m : M A) (f : A -> M B) :
  stable m -> (forall a, stable (f a)) -> stable (bind m f).
Proof.
  intros Hm Hf s o s'. unfold bind.
  destruct (m s) as [[a|e] s1] eqn:E; intros H.
  - apply Hm in E. subst s1. by apply Hf in H.
  - invc H. by apply Hm in E.
Qed.

Lemma stable_try {A} (m : M A) : stable m -> stable (try_ m).
Proof.
  intros Hm s o s'. unfold try_. destruct (m s) as [r s1] eqn:E.
  intros H. invc H. by apply Hm in E.
Qed.

Lemma stable_get_heap : stable get_heap.
Proof. intros s o s' H. by invc H. Qed.

Lemma stable_lift {A} (o : outcome A) : stable (lift o).
Proof. intros s r s' H. by invc H. Qed.

Lemma stable_ask g p : stable (ask g p).
Proof. intros s r s' H. by invc H. Qed.

Create HintDb stable.
#[export] Hint Resolve stable_ret stable_raise stable_get_heap stable_lift
  stable_ask : stable.

Ltac stable :=
  repeat first
    [ progress auto with stable
    | apply stable_bind; [|intros ?]
    | apply stable_try
    | match goal with
      | |- stable (match ?x with _ => _ end) => destruct x
      | |- stable (if ?b then _ else _) => destruct b
      end ].

Lemma stable_py_get o k dflt : stable (py_get o k dflt).
Proof. unfold py_get. stable. Qed.

Lemma stable_py_getitem o k : stable (py_getitem o k).
Proof. unfold py_getitem. stable. Qed.

Lemma stable_py_contains k o : stable (py_contains k o).
Proof. unfold py_contains. stable. Qed.

Lemma stable_agents_get self ty : stable (agents_get self ty).
Proof. unfold agents_get. stable. Qed.

Lemma stable_py_in_agents self x : stable (py_in_agents self x).
Proof. unfold py_in_agents. stable. Qed.

#[export] Hint Resolve stable_py_get stable_py_getitem stable_py_contains
  stable_agents_get stable_py_in_agents : stable.

Lemma stable_get_agent_type self task :
  stable (_get_agent_type_from_gemini self task).
Proof. unfold _get_agent_type_from_gemini. stable. Qed.

(** ** The router *)

Lemma registry_get_keys k (d : list (string * option agent)) a :
  registry_get k d = Some a -> k ∈ keys d.
Proof.
  induction d as [|[k' a'] d IH]; simpl; [done|].
  destruct (decide (k = k')) as [->|Hne]; intros H.
  - apply elem_of_cons. by left.
  - apply elem_of_cons. right. by apply IH.
Qed.

Lemma mjoin_registry_get_keys k (d : list (string * option agent)) a :
  mjoin (registry_get k d) = Some a -> k ∈ keys d.
Proof.
  destruct (registry_get k d) as [o|] eqn:E; [|done].
  intros _. by eapply registry_get_keys.
Qed.

(** The router, for any way [sel] of settling the type that only reads. *)
Lemma route_shape (sel : val -> M val) self task s :
  (forall ty, stable (sel ty)) ->
  let route :=
    (r <- try_ (
       agent_type <- py_get task "type" VNone;;
       agent_type <- sel agent_type;;
       agent <- agents_get self agent_type;;
       match agent with
       | Some a =>
           r <- try_ (call_handle a task);;
           match r with
           | Ok result => ret result
           | Raise e => alloc (agent_issue_error agent_type e)
           end
       | None =>
           alloc (ODict [("error", VStr (agent_not_found_text self agent_type))])
       end);;
     match r with
     | Ok v => ret v
     | Raise e => alloc (routing_error e)
     end) s in
  (exists e,
     route = (Ok (VRef (length (st_heap s))),
              {| st_heap := st_heap s ++ [routing_error e];
                 st_trace := st_trace s |}))
  \/ (exists ty0 ty,
        py_get task "type" VNone s = (Ok ty0, s) /\ sel ty0 s = (Ok ty, s)
        /\ agents_get self ty s = (Ok None, s)
        /\ route = (Ok (VRef (length (st_heap s))),
                    {| st_heap := st_heap s
                         ++ [ODict [("error", VStr (agent_not_found_text self ty))]];
                       st_trace := st_trace s |}))
  \/ (exists ty0 ty a,
        py_get task "type" VNone s = (Ok ty0, s) /\ sel ty0 s = (Ok ty, s)
        /\ agents_get self ty s = (Ok (Some a), s)
        /\ route = routed a ty task s).
Proof.
  intros Hsel route.
  destruct (py_get task "type" VNone s) as [[ty0|e] s1] eqn:E1;
    pose proof (stable_py_get _ _ _ _ _ _ E1); subst s1.
  2:{ left. exists e. subst route. unfold bind, try_. by rewrite E1. }
  destruct (sel ty0 s) as [[ty|e] s1] eqn:E2;
    pose proof (Hsel _ _ _ _ E2); subst s1.
  2:{ left. exists e. subst route. unfold bind, try_.
      rewrite E1; cbv beta iota. by rewrite E2. }
  destruct (agents_get self ty s) as [[[a|]|e] s1] eqn:E3;
    pose proof (stable_agents_get _ _ _ _ _ E3); subst s1.
  - right. right. exists ty0, ty, a. repeat split; try done.
    subst route. unfold bind, try_, routed.
    rewrite E1; cbv beta iota. rewrite E2; cbv beta iota.
    rewrite E3; cbv beta iota. rewrite call_handle_eq.
    destruct (a task (st_heap s)) as [[r|e] h']; done.
  - right. left. exists ty0, ty. repeat split; try done.
    subst route. unfold bind, try_.
    rewrite E1; cbv beta iota. rewrite E2; cbv beta iota.
    by rewrite E3.
  - left. exists e. subst route. unfold bind, try_.
    rewrite E1; cbv beta iota. rewrite E2; cbv beta iota.
    by rewrite E3.
Qed.

Lemma route_task_eq self task s :
  route_task self task s =
  (r <- try_ (
     agent_type <- py_get task "type" VNone;;
     agent_type <-
       (fun agent_type =>
          match gemini_model self with
          | Some _ =>
              determined_agent_type <- _get_agent_type_from_gemini self task;;
              h <- get_heap;;
              known <- (if truthy h determined_agent_type
                        then py_in_agents self determined_agent_type
                        else ret false);;
              if known then ret determined_agent_type
              else if negb (truthy h agent_type)
                   then ret (VStr (default_agent_type self))
                   else ret agent_type
          | None => ret agent_type
          end) agent_type;;
     agent <- agents_get self agent_type;;
     match agent with
     | Some a =>
         r <- try_ (call_handle a task);;
         match r with
         | Ok result => ret result
         | Raise e => alloc (agent_issue_error agent_type e)
         end
     | None =>
         alloc (ODict [("error", VStr (agent_not_found_text self agent_type))])
     end);;
   match r with
   | Ok v => ret v
   | Raise e => alloc (routing_error e)
   end) s.
Proof. reflexivity. Qed.

Lemma stable_select self task ty0 :
  stable (match gemini_model self with
          | Some _ =>
              determined_agent_type <- _get_agent_type_from_gemini self task;;
              h <- get_heap;;
              known <- (if truthy h determined_agent_type
                        then py_in_agents self determined_agent_type
                        else ret false);;
              if known then ret determined_agent_type
              else if negb (truthy h ty0)
                   then ret (VStr (default_agent_type self))
                   else ret ty0
          | None => ret ty0
          end).
Proof.
  destruct (gemini_model self); [|apply stable_ret].
  apply stable_bind; [apply stable_get_agent_type|intros d].
  stable.
Qed.

(** X1.  [route_task] never raises and calls at most one handler.  Either
    it calls no handler and returns a new error Result (a routing error with
    its details, or the "couldn't find an agent" error), or it calls one
    registered handler, on the task itself and in the store as it was
    received, and returns what that handler returns, unchanged, or an error
    Result with the details when that handler raises. *)
Theorem route_task_always_returns (self : Orchestrator) (task : val) (s : state) :
  (exists e,
     route_task self task s
     = (Ok (VRef (length (st_heap s))),
        {| st_heap := st_heap s ++ [routing_error e]; st_trace := st_trace s |}))
  \/ (exists ty,
        route_task self task s
        = (Ok (VRef (length (st_heap s))),
           {| st_heap := st_heap s
                ++ [ODict [("error", VStr (agent_not_found_text self ty))]];
              st_trace := st_trace s |}))
  \/ (exists k a,
        mjoin (registry_get k (agents self)) = Some a
        /\ route_task self task s = routed a (VStr k) task s).
Proof.
  rewrite route_task_eq.
  destruct (route_shape _ self task s (stable_select self task))
    as [[e H]|[(ty0 & ty & _ & _ & _ & H)|(ty0 & ty & a & _ & _ & Hag & H)]].
  - left. by exists e.
  - right. left. by exists ty.
  - right. right. apply agents_get_Ok in Hag as (_ & Ha & _).
    destruct ty as [| | |k|]; try done. exists k, a. done.
Qed.

Lemma route_run_gen (sel : val -> M val) self task s ty0 ty a :
  py_get task "type" VNone s = (Ok ty0, s) ->
  sel ty0 s = (Ok ty, s) ->
  agents_get self ty s = (Ok a, s) ->
  (r <- try_ (
     agent_type <- py_get task "type" VNone;;
     agent_type <- sel agent_type;;
     agent <- agents_get self agent_type;;
     match agent with
     | Some a =>
         r <- try_ (call_handle a task);;
         match r with
         | Ok result => ret result
         | Raise e => alloc (agent_issue_error agent_type e)
         end
     | None =>
         alloc (ODict [("error", VStr (agent_not_found_text self agent_type))])
     end);;
   match r with
   | Ok v => ret v
   | Raise e => alloc (routing_error e)
   end) s =
  match a with
  | Some a => routed a ty task s
  | None =>
      (Ok (VRef (length (st_heap s))),
       {| st_heap := st_heap s
            ++ [ODict [("error", VStr (agent_not_found_text self ty))]];
          st_trace := st_trace s |})
  end.
Proof.
  intros E1 E2 E3. unfold bind, try_, routed.
  rewrite E1; cbv beta iota. rewrite E2; cbv beta iota.
  rewrite E3; cbv beta iota. destruct a as [a|]; [|done].
  rewrite call_handle_eq. destruct (a task (st_heap s)) as [[r|e] h']; done.
Qed.

Lemma route_task_run self task s ty0 ty a :
  py_get task "type" VNone s = (Ok ty0, s) ->
  (match gemini_model self with
   | Some _ =>
       determined_agent_type <- _get_agent_type_from_gemini self task;;
       h <- get_heap;;
       known <- (if truthy h determined_agent_type
                 then py_in_agents self determined_agent_type
                 else ret false);;
       if known then ret determined_agent_type
       else if negb (truthy h ty0)
            then ret (VStr (default_agent_type self))
            else ret ty0
   | None => ret ty0
   end) s = (Ok ty, s) ->
  agents_get self ty s = (Ok a, s) ->
  route_task self task s =
  match a with
  | Some a => routed a ty task s
  | None =>
      (Ok (VRef (length (st_heap s))),
       {| st_heap := st_heap s
            ++ [ODict [("error", VStr (agent_not_found_text self ty))]];
          st_trace := st_trace s |})
  end.
Proof.
  intros E1 E2 E3. rewrite route_task_eq.
  exact (route_run_gen _ self task s ty0 ty a E1 E2 E3).
Qed.

(** What the oracle settles, when it names a registered type. *)
Lemma get_agent_type_named self task s model text k :
  gemini_model self = Some model ->
  model (AgentTypePrompt (agent_descriptions self) task) (st_heap s) = Ok text ->
  PyStr.split_ws (PyStr.strip text) !! 0 = Some k ->
  k ≠ EmptyString ->
  k ∈ keys (agents self) ->
  _get_agent_type_from_gemini self task s = (Ok (VStr k), s).
Proof.
  intros Hm Hreply Htok Hk Hin. unfold _get_agent_type_from_gemini. rewrite Hm.
  unfold bind at 1, try_ at 1, bind at 1, ask at 1. rewrite Hreply.
  destruct (bool_decide (PyStr.strip text = EmptyString)) eqn:Ee.
  { apply bool_decide_eq_true in Ee. rewrite Ee in Htok. done. }
  unfold bind at 1, lift at 1, index at 1. rewrite Htok.
  rewrite (bool_decide_false _ Hk), (bool_decide_true _ Hin). done.
Qed.

(** What the oracle settles, when the call fails: the task's own type. *)
Lemma get_agent_type_failed self task s model e d :
  gemini_model self = Some model ->
  model (AgentTypePrompt (agent_descriptions self) task) (st_heap s) = Raise e ->
  as_dict (st_heap s) task = Some d ->
  _get_agent_type_from_gemini self task s
  = (Ok (default VNone (assoc_get "type" d)), s).
Proof.
  intros Hm Hreply Hd. unfold _get_agent_type_from_gemini. rewrite Hm.
  unfold bind at 1, try_ at 1, bind at 1, ask at 1. rewrite Hreply.
  by apply py_get_dict.
Qed.

(** X2.  A task whose own type is registered, when no oracle is configured
    or the oracle leaves that type: the router calls the handler of the type
    on the task itself and returns its Result unchanged, in the store the
    handler left; when the handler raises, it returns the error Result
    "Sorry, the agent 'T' encountered an issue. Please try again later." with
    the text of the exception under "details". *)
Theorem route_task_registered
  (self : Orchestrator) (task : val) (s : state) (k : string) (a : agent) :
  type_of (st_heap s) task = Some (VStr k) ->
  agent_of self (st_heap s) task = Some a ->
  gemini_model self = None
  \/ (_get_agent_type_from_gemini self task s = (Ok (VStr k), s)
      /\ k ≠ EmptyString) ->
  route_task self task s =
  match a task (st_heap s) with
  | (Ok result, h') =>
      (Ok result,
       {| st_heap := h';
          st_trace := st_trace s ++ [Dispatch task (st_heap s) (Ok result)] |})
  | (Raise e, h') =>
      (Ok (VRef (length h')),
       {| st_heap := h' ++ [agent_issue_error (VStr k) e];
          st_trace := st_trace s ++ [Dispatch task (st_heap s) (Raise e)] |})
  end.
Proof.
  intros Hty Ha Horacle.
  unfold agent_of in Ha. rewrite Hty in Ha. simpl in Ha.
  unfold type_of in Hty.
  destruct (as_dict (st_heap s) task) as [d|] eqn:Hd; [|done].
  simpl in Hty. injection Hty as Hty.
  rewrite (route_task_run self task s (VStr k) (VStr k) (Some a)); [done|..].
  - rewrite (py_get_dict _ _ _ _ _ Hd). by rewrite Hty.
  - destruct Horacle as [->|[Hdet Hk]]; [done|].
    destruct (gemini_model self); [|done].
    unfold bind at 1. rewrite Hdet.
    unfold bind at 1, get_heap at 1. simpl truthy.
    rewrite (bool_decide_false _ Hk). simpl negb.
    unfold bind at 1, py_in_agents, ret at 1, in_agents.
    rewrite bool_decide_true; [done|]. by eapply mjoin_registry_get_keys.
  - unfold agents_get. by rewrite Ha.
Qed.

(** X3.  When the oracle names a registered type, the router calls the
    handler of that type, whatever the type the task carries (registered or
    not, or none). *)
Theorem route_task_oracle_overrides_type
  (self : Orchestrator) (task : val) (s : state) (model : oracle)
  (d : list (string * val)) (text k : string) (a : agent) :
  gemini_model self = Some model ->
  as_dict (st_heap s) task = Some d ->
  model (AgentTypePrompt (agent_descriptions self) task) (st_heap s) = Ok text ->
  PyStr.split_ws (PyStr.strip text) !! 0 = Some k ->
  k ≠ EmptyString ->
  mjoin (registry_get k (agents self)) = Some a ->
  route_task self task s = routed a (VStr k) task s.
Proof.
  intros Hm Hd Hreply Htok Hk Ha.
  pose proof (mjoin_registry_get_keys _ _ _ Ha) as Hin.
  rewrite (route_task_run self task s (default VNone (assoc_get "type" d))
             (VStr k) (Some a)); [done|..].
  - by apply py_get_dict.
  - rewrite Hm. unfold bind at 1.
    rewrite (get_agent_type_named _ _ _ _ _ _ Hm Hreply Htok Hk Hin).
    unfold bind at 1, get_heap at 1. simpl truthy.
    rewrite (bool_decide_false _ Hk). simpl negb.
    unfold bind at 1, py_in_agents, ret at 1, in_agents.
    by rewrite bool_decide_true.
  - unfold agents_get. by rewrite Ha.
Qed.

(** X4.  The default type is substituted only when an oracle is configured.
    For a task without a type: with an oracle whose call fails, the router
    calls the handler of the default type; with no oracle, it calls no
    handler and returns the "couldn't find an agent" error for the type
    'None'. *)
Theorem route_task_default_needs_oracle
  (self : Orchestrator) (task : val) (s : state) (d : list (string * val))
  (a : agent) :
  as_dict (st_heap s) task = Some d ->
  assoc_get "type" d = None ->
  mjoin (registry_get (default_agent_type self) (agents self)) = Some a ->
  (forall model e,
     gemini_model self = Some model ->
     model (AgentTypePrompt (agent_descriptions self) task) (st_heap s) = Raise e ->
     route_task self task s = routed a (VStr (default_agent_type self)) task s)
  /\ (gemini_model self = None ->
      route_task self task s
      = (Ok (VRef (length (st_heap s))),
         {| st_heap := st_heap s
              ++ [ODict [("error", VStr (agent_not_found_text self VNone))]];
            st_trace := st_trace s |})).
Proof.
  intros Hd Hty Ha. split.
  - intros model e Hm Hreply.
    rewrite (route_task_run self task s VNone
               (VStr (default_agent_type self)) (Some a)); [done|..].
    + rewrite (py_get_dict _ _ _ _ _ Hd). by rewrite Hty.
    + rewrite Hm. unfold bind at 1.
      rewrite (get_agent_type_failed _ _ _ _ _ _ Hm Hreply Hd). by rewrite Hty.
    + unfold agents_get. by rewrite Ha.
  - intros Hm.
    rewrite (route_task_run self task s VNone VNone None); [done|..].
    + rewrite (py_get_dict _ _ _ _ _ Hd). by rewrite Hty.
    + by rewrite Hm.
    + done.
Qed.

(** ** The classifier *)

Lemma silent_literal_eval_m le src : silent (literal_eval_m le src).
Proof.
  intros s o s'. unfold literal_eval_m.
  destruct (le src) as [x|e]; [|by intros H; invc H].
  destruct (alloc_lit_grows x s) as (v & ext & H & _). rewrite H.
  intros H'. by invc H'.
Qed.

(** The rule-based classifier, run on a string or on [None]. *)
Lemma classify_task_no_model le self text user channel s :
  gemini_model self = None ->
  text = VNone \/ (exists t, text = VStr t) ->
  classify_task le self text user channel s
  = (Ok (VRef (2 + length (st_heap s))),
     {| st_heap := st_heap s ++
          [ ODict [("query", text)];
            ODict [("channel", channel)];
            ODict [("type", VStr (fallback_type self
                                    match text with
                                    | VStr t => PyStr.lower t
                                    | _ => EmptyString
                                    end));
                   ("payload", VRef (length (st_heap s)));
                   ("user", user);
                   ("context", VRef (1 + length (st_heap s)))] ];
        st_trace := st_trace s |}).
Proof.
  intros Hm Htext. unfold classify_task. rewrite Hm.
  unfold bind at 1, ret at 1.
  assert (Hlow : lowered_text text s
                 = (Ok match text with VStr t => PyStr.lower t | _ => EmptyString end, s)).
  { unfold lowered_text, bind, get_heap.
    destruct Htext as [->|[t ->]]; [done|]. simpl.
    destruct (bool_decide (t = EmptyString)) eqn:Et; [|done].
    apply bool_decide_eq_true in Et. by subst t. }
  unfold bind at 1. rewrite Hlow.
  unfold bind, alloc. simpl. rewrite !length_app. simpl.
  rewrite <- !app_assoc. simpl.
  by rewrite Nat.add_1_r, Nat.add_comm.
Qed.

#[export] Hint Resolve silent_literal_eval_m : silent.

(** [classify_task] either returns the oracle's task, completed with the
    user and the channel, or goes on as the rule-based classifier does, in a
    store where the oracle's answer may have been built. *)
Lemma classify_task_cases le self text user channel s :
  exists s1,
    st_trace s1 = st_trace s
    /\ (classify_task le self text user channel s
        = classify_task le (without_model self) text user channel s1
        \/ exists t,
             classify_task le self text user channel s = (Ok t, s1)
             /\ classified_task (st_heap s1) t user channel).
Proof.
  remember (classify_task le self text user channel s) as c eqn:Hc.
  unfold classify_task in Hc.
  destruct (gemini_model self) as [model|];
    [|exists s; split; [done|left; by rewrite Hc]].
  unfold bind at 1 in Hc. unfold bind at 1 in Hc. unfold try_ in Hc.
  match type of Hc with
  | context [let (_, _) := ?m s in _] =>
      assert (Hsil : silent m); [|destruct (m s) as [[[t|]|e] s1] eqn:E]
  end.
  { silent. }
  2,3: exists s1; split; [exact (Hsil s _ _ E)|left; by rewrite Hc].
  exists s1. split; [exact (Hsil s _ _ E)|]. right. exists t.
  split; [by rewrite Hc|]. clear Hc c.
  clear Hsil.
  apply bind_Ok in E as (reply & s2 & _ & E).
  apply bind_Ok in E as (src & s3 & _ & E).
  apply bind_Ok in E as (parsed & s4 & _ & E).
  apply bind_Ok in E as (is_d & s5 & Hd & E).
  rewrite isinstance_dict_eq in Hd. injection Hd as <- <-.
  apply bind_Ok in E as (has_type & s5 & Hty & E).
  apply bind_Ok in E as (has_payload0 & s6 & Hpay & E).
  assert (s5 = s4 /\ s6 = s5) as [-> ->].
  { split.
    - destruct (is_dict (st_heap s4) parsed);
        [by eapply stable_py_contains|by invc Hty].
    - destruct has_type; [by eapply stable_py_contains|by invc Hpay]. }
  destruct has_payload0; [|by invc E].
  destruct has_type; [|by invc Hpay].
  destruct (is_dict (st_heap s4) parsed) eqn:Hisd; [|by invc Hty].
  apply bool_decide_eq_true in Hisd as [d Hd].
  rewrite (py_contains_dict _ _ _ _ Hd) in Hty. injection Hty as Hhas_type.
  rewrite (py_contains_dict _ _ _ _ Hd) in Hpay. injection Hpay as Hhas_payload.
  apply bool_decide_eq_true in Hhas_type as [ty Hty].
  apply bool_decide_eq_true in Hhas_payload as [p Hp].
  unfold bind at 1, alloc at 1 in E.
  unfold bind at 1, alloc at 1 in E. cbn [st_heap st_trace] in E.
  apply bind_Ok in E as (u1 & s7 & Hset1 & E).
  apply bind_Ok in E as (u2 & s8 & Hset2 & E). invc E.
  apply py_setitem_Ok in Hset1 as (l & d1 & -> & Hd1 & ->).
  cbn [st_heap] in Hd1.
  rewrite <- app_assoc in Hd1. rewrite (as_dict_app _ _ _ _ Hd) in Hd1. invc Hd1.
  pose proof (as_dict_Some_lt _ _ _ Hd) as Hl.
  apply py_setitem_Ok in Hset2 as (l' & d2 & Heq & Hd2 & ->). invc Heq.
  cbn [st_heap] in Hd2.
  rewrite as_dict_insert_eq in Hd2
    by (rewrite !length_app; simpl; lia).
  invc Hd2. cbn [st_heap].
  exists (assoc_set "context" (VRef (length (st_heap s4)))
            (assoc_set "user" user d1)), ty, p, (VRef (length (st_heap s4))).
  split; [|split; [|split; [|split; [|split]]]].
  - apply as_dict_insert_eq. rewrite length_insert, !length_app. simpl. lia.
  - by rewrite !assoc_get_set_ne.
  - by rewrite !assoc_get_set_ne.
  - rewrite assoc_get_set_ne by done. apply assoc_get_set_eq.
  - apply assoc_get_set_eq.
  - rewrite !as_dict_insert_ne by lia. rewrite <- app_assoc.
    simpl. by rewrite lookup_app_r, Nat.sub_diag by lia.
Qed.

Lemma classified_fallback (h : heap) text user channel ty :
  classified_task
    (h ++ [ ODict [("query", text)];
            ODict [("channel", channel)];
            ODict [("type", VStr ty); ("payload", VRef (length h));
                   ("user", user); ("context", VRef (1 + length h))] ])
    (VRef (2 + length h)) user channel.
Proof.
  exists [("type", VStr ty); ("payload", VRef (length h));
          ("user", user); ("context", VRef (1 + length h))],
         (VStr ty), (VRef (length h)), (VRef (1 + length h)).
  assert (H2 : forall a b c : obj, (h ++ [a; b; c]) !! (2 + length h) = Some c).
  { intros a b c. rewrite lookup_app_r by lia.
    by replace (2 + length h - length h) with 2 by lia. }
  assert (H1 : forall a b c : obj, (h ++ [a; b; c]) !! (1 + length h) = Some b).
  { intros a b c. rewrite lookup_app_r by lia.
    by replace (1 + length h - length h) with 1 by lia. }
  unfold as_dict. rewrite H2, H1. done.
Qed.

(** X5.  [classify_task] on a text that is a string or [None] never raises,
    whatever the oracle answers and whatever its answer evaluates to, and
    calls no handler.  It returns a mapping with a type and a payload, whose
    user is the user given and whose context is a mapping holding the
    channel given. *)
Theorem classify_task_never_raises
  (literal_eval : string -> outcome lit) (self : Orchestrator)
  (text user channel : val) (s : state) :
  text = VNone \/ (exists t, text = VStr t) ->
  exists task s',
    classify_task literal_eval self text user channel s = (Ok task, s')
    /\ st_trace s' = st_trace s
    /\ classified_task (st_heap s') task user channel.
Proof.
  intros Htext.
  destruct (classify_task_cases literal_eval self text user channel s)
    as (s1 & Htr & [Hfall|(t & Ht & Hshape)]).
  - rewrite Hfall.
    rewrite (classify_task_no_model _ (without_model self) _ _ _ _ eq_refl Htext).
    eexists _, _. split; [reflexivity|]. split; [done|].
    apply classified_fallback.
  - exists t, s1. done.
Qed.

(** X6.  When the oracle call raises, when the fence stripping of its
    answer raises or when the answer cannot be evaluated, [classify_task]
    returns exactly what it returns with no oracle configured, in the same
    store: the failure leaves no trace. *)
Theorem classify_task_oracle_failure_is_silent
  (literal_eval : string -> outcome lit) (self : Orchestrator)
  (text user channel : val) (s : state) (model : oracle) :
  gemini_model self = Some model ->
  match model (ClassifyPrompt (keys (agents self)) text) (st_heap s) with
  | Raise _ => True
  | Ok reply =>
      match strip_code_block (PyStr.strip reply) with
      | Raise _ => True
      | Ok task_dict_str =>
          match literal_eval task_dict_str with
          | Raise _ => True
          | Ok _ => False
          end
      end
  end ->
  classify_task literal_eval self text user channel s
  = classify_task literal_eval (without_model self) text user channel s.
Proof.
  intros Hm Hfail. unfold classify_task at 1. rewrite Hm.
  unfold bind at 1. unfold bind at 1. unfold try_ at 1.
  unfold bind at 1, ask at 1.
  destruct (model _ (st_heap s)) as [reply|e]; [|done].
  unfold bind at 1, lift at 1.
  destruct (strip_code_block (PyStr.strip reply)) as [src|e]; [|done].
  unfold bind at 1, literal_eval_m at 1.
  destruct (literal_eval src) as [x|e]; [done|done].
Qed.

Lemma lower_char_idem c : PyStr.lower_char (PyStr.lower_char c) = PyStr.lower_char c.
Proof. destruct c as [[] [] [] [] [] [] [] []]; reflexivity. Qed.

Lemma lower_idem t : PyStr.lower (PyStr.lower t) = PyStr.lower t.
Proof.
  induction t as [|c t IH]; [done|].
  change (String (PyStr.lower_char (PyStr.lower_char c)) (PyStr.lower (PyStr.lower t))
          = String (PyStr.lower_char c) (PyStr.lower t)).
  by rewrite lower_char_idem, IH.
Qed.

(** X7.  The rule-based classification does not depend on the case of the
    text: with no oracle, a text and its lower-cased form are given the same
    type, at the same place of the store. *)
Theorem classify_task_ignores_case
  (literal_eval : string -> outcome lit) (self : Orchestrator)
  (t : string) (user channel : val) (s : state) :
  gemini_model self = None ->
  let run text := classify_task literal_eval self (VStr text) user channel s in
  exists ty,
    (run t).1 = Ok (VRef (2 + length (st_heap s)))
    /\ (run (PyStr.lower t)).1 = Ok (VRef (2 + length (st_heap s)))
    /\ type_of (st_heap (run t).2) (VRef (2 + length (st_heap s))) = Some (VStr ty)
    /\ type_of (st_heap (run (PyStr.lower t)).2) (VRef (2 + length (st_heap s)))
       = Some (VStr ty).
Proof.
  intros Hm run. subst run. cbv beta.
  rewrite !(classify_task_no_model _ self _ _ _ _ Hm) by eauto.
  rewrite lower_idem. exists (fallback_type self (PyStr.lower t)).
  cbn [fst snd st_heap]. repeat split; unfold type_of, as_dict;
    rewrite lookup_app_r by lia;
    by replace (2 + length (st_heap s) - length (st_heap s)) with 2 by lia.
Qed.

(** X8.  With the wiring of [instance.py] and no model, classifying a text
    (a string or [None]) and routing the task obtained, as the Slack message
    handler does, always ends in the call of a registered handler on that
    task: the type the rule-based classifier gives is always one of the
    registered ones. *)
Theorem classified_task_is_always_routed
  (literal_eval : string -> outcome lit) (env : environment)
  (WebSearchAgent : agent) (text user channel : val) (s : state) :
  gemini_model (Instance.constructed env WebSearchAgent) = None ->
  text = VNone \/ (exists t, text = VStr t) ->
  let orchestrator := Instance.orchestrator env WebSearchAgent in
  exists task s1 k a,
    classify_task literal_eval orchestrator text user channel s = (Ok task, s1)
    /\ mjoin (registry_get k (agents orchestrator)) = Some a
    /\ route_task orchestrator task s1 = routed a (VStr k) task s1.
Proof.
  intros Hm Htext orchestrator.
  assert (Hm' : gemini_model orchestrator = None) by exact Hm.
  rewrite (classify_task_no_model _ orchestrator _ _ _ _ Hm' Htext).
  set (lowered := match text with VStr t => PyStr.lower t | _ => EmptyString end).
  set (k := fallback_type orchestrator lowered).
  assert (Ha : exists a, mjoin (registry_get k (agents orchestrator)) = Some a).
  { subst k. unfold fallback_type.
    repeat match goal with
           | |- context [if ?b then _ else _] => destruct b
           end; eexists; reflexivity. }
  destruct Ha as [a Ha].
  eexists _, _, k, a. split; [reflexivity|]. split; [exact Ha|].
  apply (route_task_run orchestrator _ _ (VStr k) (VStr k) (Some a)).
  - destruct (classified_fallback (st_heap s) text user channel k)
      as (d & ty & p & c & Hd & Hty & _).
    assert (Hk : ty = VStr k).
    { unfold as_dict in Hd. rewrite lookup_app_r in Hd by lia.
      replace (2 + length (st_heap s) - length (st_heap s)) with 2 in Hd by lia.
      simpl in Hd. injection Hd as <-. simpl in Hty. by injection Hty as <-. }
    subst ty.
    match goal with
    | |- py_get ?o _ _ ?S = _ =>
        pose proof (py_get_dict o "type" VNone S d Hd) as Hg
    end.
    rewrite Hty in Hg. exact Hg.
  - by rewrite Hm'.
  - unfold agents_get. by rewrite Ha.
Qed.

(** ** The engine on one task *)

Lemma handle_task_no_model_eq le self task s :
  gemini_model self = None ->
  handle_task le self task s
  = (step <- sequential_step self 0 task VNone;; aggregate [step.1]) s.
Proof.
  intros Hm. unfold handle_task. rewrite Hm.
  unfold bind at 1, ret at 1. unfold execute_sub_tasks.
  unfold bind at 1. simpl can_run_concurrent.
  unfold bind at 1, ret at 1. unfold ret at 1.
  unfold bind at 1. simpl andb. cbv iota.
  unfold run_sequential. unfold bind.
  rewrite (bool_decide_false (1 < length [task])) by (simpl; lia). cbn [andb].
  destruct (sequential_step self 0 task VNone s) as [[step|e] s1]; done.
Qed.

(** X9.  With no oracle, a task whose handler returns a mapping without the
    key "error" is dispatched once, as it is, and [handle_task] returns that
    mapping itself, not wrapped, in the store the handler left. *)
Theorem handle_task_single_success
  (literal_eval : string -> outcome lit) (self : Orchestrator)
  (task : val) (s : state) (ty : val) (a : agent) (r : val) (h' : heap) :
  gemini_model self = None ->
  type_of (st_heap s) task = Some ty ->
  agent_of self (st_heap s) task = Some a ->
  a task (st_heap s) = (Ok r, h') ->
  error_free_in h' r = true ->
  handle_task literal_eval self task s
  = (Ok r,
     {| st_heap := h';
        st_trace := st_trace s ++ [Dispatch task (st_heap s) (Ok r)] |}).
Proof.
  intros Hm Hty Ha Hcall Hfree.
  rewrite (handle_task_no_model_eq _ _ _ _ Hm). unfold bind.
  rewrite (sequential_step_unchained _ _ _ _ _ _ Hty Ha), Hcall.
  cbn [fst]. rewrite aggregate_all_error_free; [done|done|].
  cbn [st_heap forallb]. by rewrite Hfree.
Qed.

(** X10.  With no oracle, a single task that fails is never returned as a
    bare error: when its type has no handler, or when its handler raises,
    [handle_task] returns the composite, whose list of results holds the one
    error Result. *)
Theorem handle_task_single_failure_is_wrapped
  (literal_eval : string -> outcome lit) (self : Orchestrator)
  (task : val) (s : state) (ty : val) :
  gemini_model self = None ->
  type_of (st_heap s) task = Some ty ->
  (forall l, ty ≠ VRef l) ->
  (agent_of self (st_heap s) task = None ->
   let n := length (st_heap s) in
   handle_task literal_eval self task s
   = (Ok (VRef (2 + n)),
      {| st_heap := st_heap s ++ [no_agent_error ty; OList [VRef n];
                                  composite (VRef (1 + n))];
         st_trace := st_trace s |}))
  /\ (forall a e h',
      agent_of self (st_heap s) task = Some a ->
      a task (st_heap s) = (Raise e, h') ->
      let n := length h' in
      handle_task literal_eval self task s
      = (Ok (VRef (2 + n)),
         {| st_heap := h' ++ [agent_failed_error ty e task; OList [VRef n];
                              composite (VRef (1 + n))];
            st_trace := st_trace s ++ [Dispatch task (st_heap s) (Raise e)] |})).
Proof.
  intros Hm Hty Href. split.
  - intros Ha n. rewrite (handle_task_no_model_eq _ _ _ _ Hm). unfold bind.
    rewrite (sequential_step_no_agent _ _ _ _ _ _ Hty Href Ha). cbn [fst].
    rewrite aggregate_some_error.
    + cbn [st_heap st_trace]. rewrite !length_app. simpl length.
      rewrite <- app_assoc. subst n. simpl. by rewrite Nat.add_1_r.
    + done.
    + repeat constructor. cbn [st_heap]. unfold is_dict, no_agent_error.
      rewrite as_dict_fresh. apply bool_decide_true. eauto.
    + cbn [st_heap forallb]. unfold error_free_in, no_agent_error.
      by rewrite as_dict_fresh.
  - intros a e h' Ha Hcall n.
    rewrite (handle_task_no_model_eq _ _ _ _ Hm). unfold bind.
    rewrite (sequential_step_unchained _ _ _ _ _ _ Hty Ha), Hcall. cbn [fst].
    rewrite aggregate_some_error.
    + cbn [st_heap st_trace]. rewrite !length_app. simpl length.
      rewrite <- app_assoc. subst n. simpl. by rewrite Nat.add_1_r.
    + done.
    + repeat constructor. cbn [st_heap]. unfold is_dict, agent_failed_error.
      rewrite as_dict_fresh. apply bool_decide_true. eauto.
    + cbn [st_heap forallb]. unfold error_free_in, agent_failed_error.
      by rewrite as_dict_fresh.
Qed.

(** ** Concurrent execution *)

Lemma run_agent_trace self st idx s o s' :
  run_agent self st idx s = (o, s') ->
  st_trace s' = st_trace s
  \/ exists o', st_trace s' = st_trace s ++ [Dispatch st (st_heap s) o'].
Proof.
  unfold run_agent, bind. intros H.
  destruct (py_get st "type" VNone s) as [[ty|e] s1] eqn:E1;
    pose proof (stable_py_get _ _ _ _ _ _ E1); subst s1; [|invc H; by left].
  destruct (agents_get self ty s) as [[ag|e] s1] eqn:E2;
    pose proof (stable_agents_get _ _ _ _ _ E2); subst s1; [|invc H; by left].
  destruct ag as [a|]; [|invc H; by left].
  unfold try_ in H. rewrite call_handle_eq in H.
  right. exists (a st (st_heap s)).1.
  destruct (a st (st_heap s)).1; invc H; done.
Qed.

(** Every [run_agent] is run; none of them raises past [run_agents]. *)
Lemma run_agents_trace self sts : forall idx s,
  exists rs s' ds,
    run_agents self idx sts s = (Ok rs, s')
    /\ length rs = length sts
    /\ st_trace s' = st_trace s ++ ds
    /\ map d_task ds `sublist_of` sts.
Proof.
  induction sts as [|st rest IH]; intros idx s; simpl.
  - exists [], s, []. by rewrite app_nil_r.
  - unfold bind at 1, try_ at 1.
    destruct (run_agent self st idx s) as [r s1] eqn:E1.
    destruct (IH (S idx) s1) as (rs & s2 & ds & E2 & Hlen & T2 & S2).
    unfold bind at 1. rewrite E2. unfold ret.
    apply run_agent_trace in E1 as [T1|[o' T1]].
    + exists (r :: rs), s2, ds. rewrite T2, T1. simpl.
      repeat split; [by rewrite Hlen|]. by apply sublist_cons_r; left.
    + exists (r :: rs), s2, (Dispatch st (st_heap s) o' :: ds).
      rewrite T2, T1, <- app_assoc. simpl.
      repeat split; [by rewrite Hlen|]. by apply sublist_skip.
Qed.

Lemma gathered_length rs results :
  gathered rs = Ok results -> length results = length rs.
Proof.
  revert results. induction rs as [|[r|e] rs IH]; intros results; simpl.
  - by intros [= <-].
  - destruct (gathered rs) as [l|e]; [|done]. simpl. intros [= <-].
    simpl. f_equal. by apply IH.
  - done.
Qed.

Lemma gather_trace self sts idx s o s' :
  gather self idx sts s = (o, s') ->
  exists ds, st_trace s' = st_trace s ++ ds /\ map d_task ds `sublist_of` sts.
Proof.
  unfold gather, bind, lift.
  destruct (run_agents_trace self sts idx s) as (rs & s1 & ds & E & _ & T & S1).
  rewrite E. intros [= _ <-]. by exists ds.
Qed.

Lemma gather_length self sts idx s rs s' :
  gather self idx sts s = (Ok rs, s') -> length rs = length sts.
Proof.
  unfold gather, bind, lift.
  destruct (run_agents_trace self sts idx s) as (os & s1 & ds & E & Hlen & _).
  rewrite E. intros [= Hg _]. apply gathered_length in Hg. by rewrite Hg.
Qed.

Lemma is_dict_app h ext v : is_dict h v = true -> is_dict (h ++ ext) v = true.
Proof.
  unfold is_dict. intros H. apply bool_decide_eq_true in H as [d Hd].
  apply bool_decide_eq_true. exists d. by apply as_dict_app.
Qed.

Lemma agent_of_app self h ext st :
  is_dict h st = true -> agent_of self (h ++ ext) st = agent_of self h st.
Proof.
  unfold is_dict. intros H. apply bool_decide_eq_true in H as [d Hd].
  unfold agent_of, type_of. by rewrite (as_dict_app _ ext _ _ Hd), Hd.
Qed.

(** One [run_agent] on a sub-task that is a mapping: the handler of its
    type, when there is one, is called on the sub-task itself. *)
Lemma run_agent_dispatch self st idx s :
  is_dict (st_heap s) st = true ->
  exists o s',
    run_agent self st idx s = (o, s')
    /\ match agent_of self (st_heap s) st with
       | Some a =>
           st_trace s'
           = st_trace s ++ [Dispatch st (st_heap s) (a st (st_heap s)).1]
           /\ exists ext, st_heap s' = (a st (st_heap s)).2 ++ ext
       | None =>
           st_trace s' = st_trace s /\ exists ext, st_heap s' = st_heap s ++ ext
       end.
Proof.
  unfold is_dict. intros H. apply bool_decide_eq_true in H as [d Hd].
  unfold agent_of, type_of. rewrite Hd. cbn [mbind option_bind].
  unfold run_agent. unfold bind at 1. rewrite (py_get_dict _ _ _ _ _ Hd).
  destruct (default VNone (assoc_get "type" d)) as [|b|z|k|l] eqn:Ety.
  1-3: unfold bind at 1, agents_get at 1, ret at 1, alloc;
       eexists _, _; split; [reflexivity|]; split; [done|]; by eexists [_].
  - unfold bind at 1, agents_get at 1, ret at 1.
    destruct (mjoin (registry_get k (agents self))) as [a|].
    + unfold bind at 1, try_ at 1. rewrite call_handle_eq.
      destruct (a st (st_heap s)) as [[r|e] h'] eqn:Ea; cbn [fst snd].
      * eexists _, _. split; [reflexivity|]. split; [done|].
        exists []. by rewrite app_nil_r.
      * unfold alloc. eexists _, _. split; [reflexivity|]. split; [done|].
        by eexists [_].
    + unfold alloc. eexists _, _. split; [reflexivity|]. split; [done|].
      by eexists [_].
  - unfold bind at 1, agents_get at 1, bind at 1, get_heap at 1, raise at 1.
    eexists _, _. split; [reflexivity|]. split; [done|].
    exists []. by rewrite app_nil_r.
Qed.

Lemma filter_agent_of_app self h ext sts :
  Forall (fun st => is_dict h st = true) sts ->
  filter (fun st => is_Some (agent_of self (h ++ ext) st)) sts
  = filter (fun st => is_Some (agent_of self h st)) sts.
Proof.
  induction 1 as [|st sts Hst _ IH]; [done|].
  rewrite !filter_cons, IH, (agent_of_app _ _ _ _ Hst). done.
Qed.

Lemma run_agents_dispatches self sts : forall idx s rs s',
  Forall (fun st => is_dict (st_heap s) st = true) sts ->
  Forall (fun st => forall a, agent_of self (st_heap s) st = Some a -> additive a)
    sts ->
  run_agents self idx sts s = (Ok rs, s') ->
  map d_task (new_dispatches s s')
  = filter (fun st => is_Some (agent_of self (st_heap s) st)) sts
  /\ exists ext, st_heap s' = st_heap s ++ ext.
Proof.
  induction sts as [|st rest IH]; intros idx s rs s' Hd Hadd H; simpl in H.
  - injection H as <- <-. unfold new_dispatches. rewrite drop_all. split; [done|].
    exists []. by rewrite app_nil_r.
  - apply Forall_cons in Hd as [Hst Hd]. apply Forall_cons in Hadd as [Ha Hadd].
    unfold bind at 1, try_ at 1 in H.
    destruct (run_agent_dispatch self st idx s Hst) as (o & s1 & E1 & Hcase).
    rewrite E1 in H.
    apply bind_Ok in H as (rs' & s2 & E2 & H). injection H as <- <-.
    assert (Hext : exists ext, st_heap s1 = st_heap s ++ ext).
    { destruct (agent_of self (st_heap s) st) as [a|].
      - destruct Hcase as (_ & ext & ->). destruct (Ha a eq_refl st (st_heap s)) as [e1 ->].
        exists (e1 ++ ext). by rewrite app_assoc.
      - by destruct Hcase as [_ ?]. }
    destruct Hext as [ext Hext].
    destruct (IH (S idx) s1 rs' s2) as (Hmap & ext2 & Hext2); [| |exact E2|].
    { rewrite Hext. eapply Forall_impl; [exact Hd|]. intros x. apply is_dict_app. }
    { rewrite Hext.
      apply Forall_forall. intros x Hx a.
      rewrite Forall_forall in Hd, Hadd.
      rewrite (agent_of_app _ _ _ _ (Hd x Hx)). by apply Hadd. }
    split.
    2:{ exists (ext ++ ext2). by rewrite Hext2, Hext, app_assoc. }
    rewrite filter_cons.
    rewrite <- (filter_agent_of_app self (st_heap s) ext rest Hd), <- Hext, <- Hmap.
    destruct (run_agents_trace self rest (S idx) s1)
      as (rs0 & s2' & ds & E2' & _ & T2 & _).
    rewrite E2 in E2'. injection E2' as _ <-.
    destruct (agent_of self (st_heap s) st) as [a|] eqn:Eag.
    + destruct Hcase as (T1 & _). rewrite decide_True by done.
      unfold new_dispatches.
      rewrite T2, T1, <- app_assoc, drop_app_length.
      rewrite (app_assoc (st_trace s)), drop_app_length. done.
    + destruct Hcase as (T1 & _). rewrite decide_False by (intros [? ?]; done).
      unfold new_dispatches. by rewrite T1.
Qed.

(** X11.  Concurrent execution hands every sub-task to its handler as it
    is.  The tasks dispatched are sub-tasks of the list themselves, in the
    order of the list (no copy is made and no previous result is chained),
    and when it returns there is one Result per sub-task.  When the
    sub-tasks are mappings and their handlers only add objects to the
    store, the tasks dispatched are exactly the sub-tasks whose type is
    registered, each one once, whether or not another sub-task fails or
    makes [run_agent] raise. *)
Theorem gather_dispatches_the_sub_tasks_themselves
  (self : Orchestrator) (sub_tasks : list val) (idx : nat) (s s' : state)
  (o : outcome (list val)) :
  gather self idx sub_tasks s = (o, s') ->
  map d_task (new_dispatches s s') `sublist_of` sub_tasks
  /\ (forall results, o = Ok results -> length results = length sub_tasks)
  /\ (Forall (fun st => is_dict (st_heap s) st = true) sub_tasks ->
      Forall (fun st => forall a,
                agent_of self (st_heap s) st = Some a -> additive a) sub_tasks ->
      map d_task (new_dispatches s s')
      = filter (fun st => is_Some (agent_of self (st_heap s) st)) sub_tasks).
Proof.
  intros H. split; [|split].
  - apply gather_trace in H as (ds & T & Hs).
    by rewrite (new_dispatches_app _ _ _ T).
  - intros results ->. by eapply gather_length.
  - intros Hd Hadd. unfold gather, bind, lift in H.
    destruct (run_agents_trace self sub_tasks idx s) as (rs & s1 & ds & E & _).
    rewrite E in H. injection H as _ <-.
    by destruct (run_agents_dispatches _ _ _ _ _ _ Hd Hadd E).
Qed.

Lemma silent_error_free r : silent (error_free r).
Proof. unfold error_free. silent. Qed.

Lemma silent_all_error_free rs : silent (all_error_free rs).
Proof.
  induction rs as [|r rs IH]; simpl; [apply silent_ret|].
  apply silent_bind; [apply silent_error_free|]. intros [|]; [done|apply silent_ret].
Qed.

Lemma silent_aggregate rs : silent (aggregate rs).
Proof.
  unfold aggregate. destruct rs as [|r0 rest]; [apply silent_alloc|].
  apply silent_bind.
  - destruct (decide _); silent.
  - intros [|]; [apply silent_ret|].
    apply silent_bind; [apply silent_all_error_free|].
    intros [|]; silent.
Qed.

(** X12.  The engine calls at most one handler per sub-task, in either
    strategy and whether it returns or raises. *)
Theorem execute_sub_tasks_dispatch_bound
  (self : Orchestrator) (sub_tasks : list val) (s s' : state)
  (o : outcome val) :
  execute_sub_tasks self sub_tasks s = (o, s') ->
  length (new_dispatches s s') <= length sub_tasks.
Proof.
  unfold execute_sub_tasks. unfold bind at 1. intros H.
  destruct (can_run_concurrent 0 sub_tasks s) as [[can|e] s1] eqn:Ec;
    pose proof (can_run_concurrent_state _ _ _ _ _ Ec); subst s1.
  2:{ invc H. unfold new_dispatches. rewrite drop_all. simpl. lia. }
  unfold bind in H.
  destruct (can && bool_decide (1 < length sub_tasks)).
  - destruct (gather self 0 sub_tasks s) as [[rs|e] s1] eqn:Eg;
      apply gather_trace in Eg as (ds & T & Hs);
      apply sublist_length in Hs; rewrite length_map in Hs.
    + apply silent_aggregate in H. rewrite <- H in T.
      by rewrite (new_dispatches_app _ _ _ T).
    + invc H. by rewrite (new_dispatches_app _ _ _ T).
  - destruct (run_sequential self 0 sub_tasks VNone [] s) as [[rs|e] s1] eqn:Er;
      apply run_sequential_trace in Er as (ds & T & Hl).
    + apply silent_aggregate in H. rewrite <- H in T.
      by rewrite (new_dispatches_app _ _ _ T).
    + invc H. by rewrite (new_dispatches_app _ _ _ T).
Qed.

(** X13.  When the oracle's answer to the decomposition prompt evaluates to
    the empty list, [handle_task] calls no handler and returns the error
    Result "No results generated from task execution.". *)
Theorem handle_task_on_empty_decomposition
  (literal_eval : string -> outcome lit) (self : Orchestrator)
  (task : val) (s : state) (model : oracle) (text response_text : string) :
  gemini_model self = Some model ->
  model (DecomposePrompt (keys (agents self)) task) (st_heap s) = Ok text ->
  strip_code_block (PyStr.strip text) = Ok response_text ->
  literal_eval response_text = Ok (LList []) ->
  handle_task literal_eval self task s
  = (Ok (VRef (1 + length (st_heap s))),
     {| st_heap := st_heap s ++ [OList []; no_results_error];
        st_trace := st_trace s |}).
Proof.
  intros Hm Hreply Hstrip Hlit.
  unfold handle_task. rewrite Hm. unfold bind at 1.
  unfold decompose_task. rewrite Hm.
  unfold bind at 1, try_ at 1, bind at 1, ask at 1. rewrite Hreply.
  unfold bind at 1, lift at 1. rewrite Hstrip.
  unfold bind at 1, literal_eval_m at 1. rewrite Hlit.
  unfold bind, alloc, get_heap, ret. simpl.
  unfold as_list. simpl. rewrite lookup_fresh. simpl.
  unfold execute_sub_tasks, bind, ret. simpl.
  unfold alloc. cbn [st_heap st_trace].
  rewrite length_app, <- app_assoc. simpl. by rewrite Nat.add_1_r.
Qed.

(** ** The footprint of chaining *)

Lemma as_dict_lookup (h : heap) l d :
  as_dict h (VRef l) = Some d -> h !! l = Some (ODict d).
Proof. simpl. by destruct (h !! l) as [[?|?]|]; intros [= ->]. Qed.

Lemma py_getitem_dict o k s d v :
  as_dict (st_heap s) o = Some d -> assoc_get k d = Some v ->
  py_getitem o k s = (Ok v, s).
Proof.
  intros Hd Hv. unfold py_getitem, bind, get_heap, ret. by rewrite Hd, Hv.
Qed.

Lemma py_setitem_dict l k v s d :
  as_dict (st_heap s) (VRef l) = Some d ->
  py_setitem (VRef l) k v s
  = (Ok tt, {| st_heap := <[l := ODict (assoc_set k v d)]> (st_heap s);
               st_trace := st_trace s |}).
Proof. intros Hd. unfold py_setitem, bind, get_heap. by rewrite Hd. Qed.

Lemma py_copy_dict l s d :
  as_dict (st_heap s) (VRef l) = Some d ->
  py_copy (VRef l) s
  = (Ok (VRef (length (st_heap s))),
     {| st_heap := st_heap s ++ [ODict d]; st_trace := st_trace s |}).
Proof.
  intros Hd. apply as_dict_lookup in Hd.
  unfold py_copy, bind, get_heap. by rewrite Hd.
Qed.

(** X14.  Chaining into a sub-task that has a mapping as payload: the
    handler gets a new copy of the sub-task, and the only object of the
    store that is written is the payload, which the copy shares with the
    sub-task; its key "input" is set to the previous result (replacing what
    was there) and its other keys are kept. *)
Theorem chain_input_writes_the_shared_payload
  (st prev : val) (s : state) (d pd : list (string * val)) (lp : loc) :
  as_dict (st_heap s) st = Some d ->
  assoc_get "payload" d = Some (VRef lp) ->
  as_dict (st_heap s) (VRef lp) = Some pd ->
  let n := length (st_heap s) in
  let h' := <[lp := ODict (assoc_set "input" prev pd)]> (st_heap s)
            ++ [ODict d; ODict []] in
  chain_input st prev s = (Ok (VRef n), {| st_heap := h'; st_trace := st_trace s |})
  /\ (forall l, l ≠ lp -> l < n -> h' !! l = st_heap s !! l)
  /\ as_dict h' (VRef n) = Some d
  /\ (forall k, k ≠ "input" ->
      assoc_get k (assoc_set "input" prev pd) = assoc_get k pd)
  /\ payload_input h' st = Some prev.
Proof.
  intros Hd Hp Hpd n h'.
  pose proof (as_dict_Some_lt _ _ _ Hpd) as Hlp.
  destruct st as [| | | |l]; try done.
  pose proof (as_dict_Some_lt _ _ _ Hd) as Hl.
  assert (Hrun : chain_input (VRef l) prev s
                 = (Ok (VRef n), {| st_heap := h'; st_trace := st_trace s |})).
  { unfold chain_input. unfold bind at 1. rewrite (py_copy_dict _ _ _ Hd).
    unfold bind at 1, alloc at 1. cbn [st_heap st_trace].
    set (s2 := {| st_heap := (st_heap s ++ [ODict d]) ++ [ODict []];
                  st_trace := st_trace s |}).
    assert (Hc : as_dict (st_heap s2) (VRef n) = Some d).
    { subst s2 n. cbn [st_heap]. apply as_dict_app, as_dict_fresh. }
    assert (Hp2 : as_dict (st_heap s2) (VRef lp) = Some pd).
    { subst s2. cbn [st_heap]. rewrite <- app_assoc. by apply as_dict_app. }
    unfold bind at 1. unfold py_setdefault, bind at 1, get_heap at 1.
    fold n. rewrite Hc, Hp. unfold ret at 1.
    unfold bind at 1. rewrite (py_getitem_dict _ _ _ _ _ Hc Hp).
    unfold bind at 1. rewrite (py_setitem_dict _ _ _ _ _ Hp2).
    unfold ret. subst s2 h'. cbn [st_heap st_trace].
    rewrite <- app_assoc. by rewrite insert_app_l. }
  split; [exact Hrun|]. split; [|split; [|split]].
  - intros l' Hne Hl'. subst h'.
    rewrite lookup_app_l by (rewrite length_insert; lia).
    by rewrite list_lookup_insert_ne.
  - subst h' n. unfold as_dict. rewrite lookup_app_r by (rewrite length_insert; lia).
    by rewrite length_insert, Nat.sub_diag.
  - intros k Hk. by apply assoc_get_set_ne.
  - apply chain_input_Ok in Hrun as [Hin _]. cbn [st_heap] in Hin.
    unfold payload_input in *.
    assert (Hst : as_dict h' (VRef l) = Some (if decide (l = lp)
                                               then assoc_set "input" prev pd
                                               else d)).
    { subst h'. unfold as_dict. rewrite lookup_app_l by (rewrite length_insert; lia).
      destruct (decide (l = lp)) as [->|Hne].
      - by rewrite list_lookup_insert_eq.
      - rewrite list_lookup_insert_ne by done. exact Hd. }
    assert (Hpl : as_dict h' (VRef lp) = Some (assoc_set "input" prev pd)).
    { subst h'. unfold as_dict. rewrite lookup_app_l by (rewrite length_insert; lia).
      by rewrite list_lookup_insert_eq. }
    clear Hin. clearbody h'. rewrite Hst. cbn. unfold as_dict in Hpl.
    destruct (decide (l = lp)) as [->|Hne].
    + assert (d = pd) by congruence. subst d.
      rewrite assoc_get_set_ne by done. rewrite Hp. cbn.
      rewrite Hpl. cbn. apply assoc_get_set_eq.
    + rewrite Hp. cbn. rewrite Hpl. cbn. apply assoc_get_set_eq.
Qed.

(** X15.  Chaining into a sub-task that has no payload does not write into
    the store it receives: the copy gets a new payload, [{"input": <previous
    result>}], and the sub-task stays without payload. *)
Theorem chain_input_without_payload_adds_only
  (st prev : val) (s : state) (d : list (string * val)) :
  as_dict (st_heap s) st = Some d ->
  assoc_get "payload" d = None ->
  let n := length (st_heap s) in
  chain_input st prev s
  = (Ok (VRef n),
     {| st_heap := st_heap s
          ++ [ODict (assoc_set "payload" (VRef (S n)) d); ODict [("input", prev)]];
        st_trace := st_trace s |})
  /\ payload_input (st_heap s
          ++ [ODict (assoc_set "payload" (VRef (S n)) d); ODict [("input", prev)]])
       st = None.
Proof.
  intros Hd Hp n.
  destruct st as [| | | |l]; try done.
  pose proof (as_dict_Some_lt _ _ _ Hd) as Hl.
  split.
  - unfold chain_input. unfold bind at 1. rewrite (py_copy_dict _ _ _ Hd).
    unfold bind at 1, alloc at 1. cbn [st_heap st_trace].
    set (s2 := {| st_heap := (st_heap s ++ [ODict d]) ++ [ODict []];
                  st_trace := st_trace s |}).
    assert (Hc : as_dict (st_heap s2) (VRef n) = Some d).
    { subst s2 n. cbn [st_heap]. apply as_dict_app, as_dict_fresh. }
    unfold bind at 1. unfold py_setdefault, bind at 1, get_heap at 1.
    fold n. rewrite Hc, Hp. unfold bind at 1, store at 1, ret at 1.
    subst s2. cbn [st_heap st_trace].
    match goal with
    | |- _ _ {| st_heap := ?hh; st_trace := _ |} = _ =>
        assert (Hh : hh = st_heap s ++ [ODict (assoc_set "payload" (VRef (S n)) d); ODict []])
    end.
    { rewrite <- app_assoc. subst n. rewrite insert_app_r_alt by lia.
      rewrite Nat.sub_diag, length_app. simpl. by rewrite Nat.add_1_r. }
    rewrite Hh.
    set (s3 := {| st_heap := st_heap s ++ [ODict (assoc_set "payload" (VRef (S n)) d); ODict []];
                  st_trace := st_trace s |}).
    assert (Hc3 : as_dict (st_heap s3) (VRef n)
                  = Some (assoc_set "payload" (VRef (S n)) d)).
    { subst s3 n. cbn [st_heap]. unfold as_dict.
      rewrite lookup_app_r by lia. by rewrite Nat.sub_diag. }
    assert (He3 : as_dict (st_heap s3) (VRef (S n)) = Some []).
    { subst s3 n. cbn [st_heap]. unfold as_dict.
      rewrite lookup_app_r by lia.
      by replace (S (length (st_heap s)) - length (st_heap s)) with 1 by lia. }
    unfold bind at 1.
    rewrite (py_getitem_dict _ _ _ _ _ Hc3 (assoc_get_set_eq _ _ _)).
    unfold bind at 1. rewrite (py_setitem_dict _ _ _ _ _ He3).
    unfold ret. subst s3. cbn [st_heap st_trace]. f_equal. f_equal.
    subst n. rewrite insert_app_r_alt by lia.
    by replace (S (length (st_heap s)) - length (st_heap s)) with 1 by lia.
  - unfold payload_input. rewrite (as_dict_app _ _ _ _ Hd). cbn. by rewrite Hp.
Qed.

Lemma py_setitem_raises p k v s :
  (forall l, p ≠ VRef l) \/ (exists vs, as_list (st_heap s) p = Some vs) ->
  exists msg, py_setitem p k v s = (Raise (TypeError msg), s).
Proof.
  intros [Hp|[vs Hp]]; unfold py_setitem, bind, get_heap, raise.
  - destruct p as [| | | |l]; try (eexists; reflexivity). by destruct (Hp l).
  - destruct p as [| | | |l]; try done.
    assert (as_dict (st_heap s) (VRef l) = None) as ->.
    { simpl in *. by destruct (st_heap s !! l) as [[?|?]|]. }
    eexists. reflexivity.
Qed.

(** X16.  A chained step needs a mapping as payload.  In the sequential
    loop, for a sub-task after the first whose type is registered, with a
    previous result to chain, and whose payload is [None], a boolean, an
    integer, a string or a list, the step raises a [TypeError] before any
    handler is called; nothing in [handle_task] catches it. *)
Theorem sequential_step_raises_on_non_mapping_payload
  (self : Orchestrator) (idx : nat) (st prev p : val) (s : state)
  (d : list (string * val)) (a : agent) :
  0 < idx ->
  prev ≠ VNone ->
  as_dict (st_heap s) st = Some d ->
  agent_of self (st_heap s) st = Some a ->
  assoc_get "payload" d = Some p ->
  (forall l, p ≠ VRef l) \/ (exists vs, as_list (st_heap s) p = Some vs) ->
  exists msg s',
    sequential_step self idx st prev s = (Raise (TypeError msg), s')
    /\ st_trace s' = st_trace s
    /\ forall sub_tasks results,
         run_sequential self idx (st :: sub_tasks) prev results s
         = (Raise (TypeError msg), s').
Proof.
  intros Hidx Hprev Hd Ha Hp Hnot.
  pose proof Ha as Ha'. apply agent_of_Some in Ha' as (d' & k & Hd' & Hk & Hreg).
  rewrite Hd in Hd'. injection Hd' as <-.
  destruct st as [| | | |l]; try done.
  set (n := length (st_heap s)).
  set (s2 := {| st_heap := (st_heap s ++ [ODict d]) ++ [ODict []];
                st_trace := st_trace s |}).
  assert (Hc : as_dict (st_heap s2) (VRef n) = Some d).
  { subst s2 n. cbn [st_heap]. apply as_dict_app, as_dict_fresh. }
  assert (Hnot2 : (forall l, p ≠ VRef l) \/ (exists vs, as_list (st_heap s2) p = Some vs)).
  { destruct Hnot as [?|[vs Hvs]]; [by left|right]. exists vs.
    destruct p as [| | | |lp]; try done. subst s2. cbn [st_heap]. simpl in *.
    destruct (st_heap s !! lp) as [o|] eqn:E; [|done].
    rewrite <- app_assoc. by rewrite (lookup_app_l_Some _ _ _ _ E). }
  destruct (py_setitem_raises p "input" prev s2 Hnot2) as [msg Hraise].
  assert (Hchain : chain_input (VRef l) prev s = (Raise (TypeError msg), s2)).
  { unfold chain_input. unfold bind at 1. rewrite (py_copy_dict _ _ _ Hd).
    unfold bind at 1, alloc at 1. cbn [st_heap st_trace]. fold s2.
    unfold bind at 1. unfold py_setdefault, bind at 1, get_heap at 1.
    fold n. rewrite Hc, Hp. unfold ret at 1.
    unfold bind at 1. rewrite (py_getitem_dict _ _ _ _ _ Hc Hp).
    unfold bind at 1. by rewrite Hraise. }
  assert (Hstep : sequential_step self idx (VRef l) prev s
                  = (Raise (TypeError msg), s2)).
  { unfold sequential_step. unfold bind at 1. rewrite (py_get_dict _ _ _ _ _ Hd).
    rewrite Hk. unfold bind at 1. unfold agents_get, ret at 1. rewrite Hreg.
    rewrite (bool_decide_true _ Hidx), (bool_decide_false _ Hprev). cbn [andb negb].
    unfold bind at 1. by rewrite Hchain. }
  exists msg, s2. split; [exact Hstep|]. split; [done|].
  intros sub_tasks results. simpl. unfold bind. by rewrite Hstep.
Qed.

(** ** Code fences *)

Lemma split_go_nonempty sep s : forall skip cur,
  PyStr.split_go sep skip cur s ≠ [].
Proof.
  induction s as [|c t IH]; intros skip cur; simpl; [done|].
  destruct skip; [|apply IH].
  destruct (PyStr.startswith sep (String c t)); [done|apply IH].
Qed.

Lemma index_0_split sep s : exists a, index (PyStr.split sep s) 0 = Ok a.
Proof.
  unfold index, PyStr.split.
  pose proof (split_go_nonempty sep s 0 EmptyString) as H.
  destruct (PyStr.split_go sep 0 EmptyString s) as [|a l]; [done|].
  by exists a.
Qed.

Lemma index_1_split sep s :
  PyStr.startswith sep s = true -> sep ≠ EmptyString ->
  exists a, index (PyStr.split sep s) 1 = Ok a.
Proof.
  intros Hs Hsep. unfold index, PyStr.split.
  destruct s as [|c t].
  - destruct sep; done.
  - simpl PyStr.split_go. rewrite Hs.
    pose proof (split_go_nonempty sep t (String.length sep - 1) EmptyString) as H.
    destruct (PyStr.split_go sep (String.length sep - 1) EmptyString t) as [|a l];
      [done|]. by exists a.
Qed.

Lemma rev_app_rev_app a : forall b c,
  String.rev_app (String.rev_app a b) c = String.rev_app b (a +:+ c).
Proof.
  induction a as [|x a IH]; intros b c; [done|].
  change (String.rev_app (String.rev_app a (String x b)) c
          = String.rev_app b (String x (a +:+ c))).
  by rewrite IH.
Qed.

Lemma startswith_cons a p b s :
  PyStr.startswith (String a p) (String b s)
  = if ascii_dec a b then PyStr.startswith p s else false.
Proof. done. Qed.

Lemma split_go_cons sep cur c t :
  PyStr.split_go sep 0 cur (String c t)
  = if PyStr.startswith sep (String c t)
    then String.rev cur :: PyStr.split_go sep (String.length sep - 1) EmptyString t
    else PyStr.split_go sep 0 (String c cur) t.
Proof. done. Qed.

Lemma no_backtick_cons c t :
  PyStr.str_in "`" (String c t) = false ->
  c ≠ "`"%char /\ PyStr.str_in "`" t = false.
Proof.
  simpl. intros H. apply orb_false_iff in H as [H1 H2]. split; [|done].
  intros ->. by destruct (ascii_dec "`" "`").
Qed.

(** Splitting on a separator that starts with a backtick runs through a
    text without backticks. *)
Lemma split_go_no_backtick sep' body rest : forall cur,
  PyStr.str_in "`" body = false ->
  PyStr.split_go (String "`" sep') 0 cur (body +:+ rest)
  = PyStr.split_go (String "`" sep') 0 (String.rev_app body cur) rest.
Proof.
  induction body as [|c t IH]; intros cur Hno; [done|].
  apply no_backtick_cons in Hno as [Hc Hno].
  change (String c t +:+ rest) with (String c (t +:+ rest)).
  change (String.rev_app (String c t) cur) with (String.rev_app t (String c cur)).
  rewrite <- (IH _ Hno). rewrite split_go_cons, startswith_cons.
  destruct (ascii_dec "`" c) as [<-|_]; done.
Qed.

Lemma startswith_app_false a p : forall text,
  PyStr.startswith a text = false -> PyStr.startswith (a +:+ p) text = false.
Proof.
  induction a as [|x a IH]; intros text H; [done|].
  change (String x a +:+ p) with (String x (a +:+ p)).
  destruct text as [|c t]; [done|].
  rewrite startswith_cons in *. destruct (ascii_dec x c); [by apply IH|done].
Qed.

Lemma startswith_before_backtick p r : forall body,
  PyStr.str_in "`" p = false ->
  PyStr.startswith p body = false ->
  PyStr.startswith p (body +:+ String "`" r) = false.
Proof.
  induction p as [|x p IH]; intros body Hno H; [done|].
  apply no_backtick_cons in Hno as [Hx Hno].
  destruct body as [|c t].
  - change (EmptyString +:+ String "`" r) with (String "`" r).
    rewrite startswith_cons. by destruct (ascii_dec x "`").
  - change (String c t +:+ String "`" r) with (String c (t +:+ String "`" r)).
    rewrite startswith_cons in *. destruct (ascii_dec x c); [by apply IH|done].
Qed.

Lemma split_fence_body body :
  PyStr.str_in "`" body = false ->
  index (PyStr.split "```" (body +:+ "```")) 0 = Ok body.
Proof.
  intros Hno. unfold PyStr.split. rewrite (split_go_no_backtick _ _ _ _ Hno).
  simpl. unfold index. simpl. f_equal. unfold String.rev.
  rewrite rev_app_rev_app. simpl. apply append_empty.
Qed.

(** X17.  The removal of code fences never fails; it leaves a text that
    does not start with a fence as it is; and from an answer fenced as
    python, as json or with a bare fence, whose body has no backtick, it
    returns the body without the white space around it. *)
Theorem strip_code_block_unwraps (text body : string) :
  (exists r, strip_code_block text = Ok r)
  /\ (PyStr.startswith "```" text = false -> strip_code_block text = Ok text)
  /\ (PyStr.str_in "`" body = false ->
      strip_code_block ("```python" +:+ body +:+ "```") = Ok (PyStr.strip body)
      /\ strip_code_block ("```json" +:+ body +:+ "```") = Ok (PyStr.strip body)
      /\ (PyStr.startswith "python" body = false ->
          PyStr.startswith "json" body = false ->
          strip_code_block ("```" +:+ body +:+ "```") = Ok (PyStr.strip body))).
Proof.
  split; [|split].
  - unfold strip_code_block.
    destruct (PyStr.startswith "```python" text) eqn:E1.
    { destruct (index_1_split _ _ E1 ltac:(done)) as [a ->]. simpl.
      destruct (index_0_split "```" a) as [b ->]. simpl. eauto. }
    destruct (PyStr.startswith "```json" text) eqn:E2.
    { destruct (index_1_split _ _ E2 ltac:(done)) as [a ->]. simpl.
      destruct (index_0_split "```" a) as [b ->]. simpl. eauto. }
    destruct (PyStr.startswith "```" text) eqn:E3; [|eauto].
    destruct (index_1_split _ _ E3 ltac:(done)) as [a ->]. simpl. eauto.
  - intros H. unfold strip_code_block.
    pose proof (startswith_app_false "```" "python" _ H) as H1.
    pose proof (startswith_app_false "```" "json" _ H) as H2.
    change ("```" +:+ "python") with "```python" in H1.
    change ("```" +:+ "json") with "```json" in H2.
    by rewrite H1, H2, H.
  - intros Hno. split; [|split].
    + unfold strip_code_block. rewrite startswith_app.
      assert (Hfirst : index (PyStr.split "```python" ("```python" +:+ body +:+ "```")) 1
                       = Ok (body +:+ "```")).
      { unfold PyStr.split. simpl.
        change (EmptyString +:+ (body +:+ "```")) with (body +:+ "```").
        rewrite (split_go_no_backtick _ _ _ _ Hno). simpl. unfold index. simpl.
        f_equal. unfold String.rev.
        change (String "`" (String "`" (String "`" (String.rev_app body EmptyString))))
          with (String.rev_app "```" (String.rev_app body EmptyString)).
        rewrite rev_app_rev_app, rev_app_rev_app. done. }
      rewrite Hfirst. simpl. by rewrite (split_fence_body _ Hno).
    + unfold strip_code_block.
      change (PyStr.startswith "```python" ("```json" +:+ body +:+ "```")) with false.
      cbv iota. rewrite startswith_app.
      assert (Hfirst : index (PyStr.split "```json" ("```json" +:+ body +:+ "```")) 1
                       = Ok (body +:+ "```")).
      { unfold PyStr.split. simpl.
        change (EmptyString +:+ (body +:+ "```")) with (body +:+ "```").
        rewrite (split_go_no_backtick _ _ _ _ Hno). simpl. unfold index. simpl.
        f_equal. unfold String.rev.
        change (String "`" (String "`" (String "`" (String.rev_app body EmptyString))))
          with (String.rev_app "```" (String.rev_app body EmptyString)).
        rewrite rev_app_rev_app, rev_app_rev_app. done. }
      rewrite Hfirst. simpl. by rewrite (split_fence_body _ Hno).
    + intros Hpy Hjs. unfold strip_code_block.
      assert (PyStr.startswith "```python" ("```" +:+ body +:+ "```")
              = PyStr.startswith "python" (body +:+ "```")) as -> by done.
      assert (PyStr.startswith "```json" ("```" +:+ body +:+ "```")
              = PyStr.startswith "json" (body +:+ "```")) as -> by done.
      assert (Hpy' : PyStr.startswith "python" (body +:+ "```") = false)
        by (by apply startswith_before_backtick).
      assert (Hjs' : PyStr.startswith "json" (body +:+ "```") = false)
        by (by apply startswith_before_backtick).
      rewrite Hpy', Hjs'. rewrite startswith_app.
      assert (Hfirst : index (PyStr.split "```" ("```" +:+ body +:+ "```")) 1 = Ok body).
      { unfold PyStr.split. simpl.
        change (EmptyString +:+ (body +:+ "```")) with (body +:+ "```").
        rewrite (split_go_no_backtick _ _ _ _ Hno). simpl. unfold index. simpl.
        f_equal. unfold String.rev. rewrite rev_app_rev_app. simpl.
        apply append_empty. }
      by rewrite Hfirst.
Qed.

(** * The Slack events *)

(** ** The world *)

Lemma run_eq {client A} (m : M A) (s : state) (c : client) cs :
  Slack.run m (Slack.World s c cs)
  = ((m s).1, Slack.World (m s).2 c cs).
Proof. unfold Slack.run. simpl. by destruct (m s). Qed.

(** [run] commutes with sequencing. *)
Lemma run_bind {client A B C} (m : M A) (f : A -> M B)
  (g : B -> Slack.W client C) w :
  Slack.wbind (Slack.run m) (fun x => Slack.wbind (Slack.run (f x)) g) w
  = Slack.wbind (Slack.run (bind m f)) g w.
Proof.
  unfold Slack.wbind, Slack.run, bind.
  destruct (m (Slack.w_state w)) as [[x|e] s1]; simpl; [|done].
  by destruct (f x s1) as [[y|e] s2].
Qed.

Lemma bind_assoc {A B C} (m : M A) (f : A -> M B) (g : B -> M C) s :
  bind (bind m f) g s = bind m (fun x => bind (f x) g) s.
Proof. unfold bind. by destruct (m s) as [[x|e] s1]. Qed.

(** A computation of the orchestrator followed by one post. *)
Lemma post_after {client} (slack_client : Slack.api_call -> heap -> client -> outcome unit * client)
  (m : M val) (channel : val) s c cs :
  Slack.wbind (Slack.run m)
    (fun text => Slack.api slack_client (Slack.chat_postMessage channel text))
    (Slack.World s c cs)
  = match m s with
    | (Ok text, s1) =>
        let (o, c1) := slack_client (Slack.chat_postMessage channel text) (st_heap s1) c in
        (o, Slack.World s1 c1 (cs ++ [Slack.Call (Slack.chat_postMessage channel text) o]))
    | (Raise e, s1) => (Raise e, Slack.World s1 c cs)
    end.
Proof.
  unfold Slack.wbind. rewrite run_eq.
  destruct (m s) as [[text|e] s1]; simpl; [|done].
  unfold Slack.api. simpl.
  by destruct (slack_client (Slack.chat_postMessage channel text) (st_heap s1) c).
Qed.

(** The handler on the event of a user, for any way [m] of getting the
    text of the answer. *)
Lemma handle_message_event_eq {client} le orch bot
  (slack_client : Slack.api_call -> heap -> client -> outcome unit * client)
  event d s c cs :
  as_dict (st_heap s) event = Some d ->
  let user := default VNone (assoc_get "user" d) in
  let text := default (VStr EmptyString) (assoc_get "text" d) in
  let channel := default VNone (assoc_get "channel" d) in
  Slack.handle_message_event le orch bot slack_client event (Slack.World s c cs)
  = if bool_decide (user = VNone) || Slack.is_bot bot user
    then (Ok tt, Slack.World s c cs)
    else
      match (task <- classify_task le orch text user channel;;
             result <- route_task orch task;;
             Slack.response_text_of result) s with
      | (Ok answer, s1) =>
          match slack_client (Slack.chat_postMessage channel answer) (st_heap s1) c with
          | (Ok u, c1) =>
              (Ok tt, Slack.World s1 c1
                        (cs ++ [Slack.Call (Slack.chat_postMessage channel answer) (Ok u)]))
          | (Raise e, c1) =>
              let (o, c2) := slack_client (Slack.apology channel e) (st_heap s1) c1 in
              (Ok tt, Slack.World s1 c2
                        (cs ++ [Slack.Call (Slack.chat_postMessage channel answer) (Raise e);
                                Slack.Call (Slack.apology channel e) o]))
          end
      | (Raise e, s1) =>
          let (o, c2) := slack_client (Slack.apology channel e) (st_heap s1) c in
          (Ok tt, Slack.World s1 c2 (cs ++ [Slack.Call (Slack.apology channel e) o]))
      end.
Proof.
  intros Hd user text channel. unfold Slack.handle_message_event.
  unfold Slack.wbind at 1. rewrite run_eq, (py_get_dict _ _ _ _ _ Hd). cbn [fst snd].
  unfold Slack.wbind at 1. rewrite run_eq, (py_get_dict _ _ _ _ _ Hd). cbn [fst snd].
  unfold Slack.wbind at 1. rewrite run_eq, (py_get_dict _ _ _ _ _ Hd). cbn [fst snd].
  fold user text channel.
  destruct (bool_decide (user = VNone) || Slack.is_bot bot user); [done|].
  unfold Slack.wbind at 1, Slack.wtry at 1.
  rewrite run_bind, run_bind, post_after, bind_assoc.
  destruct ((task <- classify_task le orch text user channel;;
             result <- route_task orch task;;
             Slack.response_text_of result) s) as [[answer|e] s1].
  - destruct (slack_client (Slack.chat_postMessage channel answer) (st_heap s1) c)
      as [[u|e] c1].
    + done.
    + cbn [negb]. unfold Slack.wbind, Slack.wtry, Slack.api, Slack.apology. simpl.
      destruct (slack_client _ (st_heap s1) c1) as [o c2]. simpl.
      by rewrite <- app_assoc.
  - cbn [negb]. unfold Slack.wbind, Slack.wtry, Slack.api, Slack.apology. simpl.
    by destruct (slack_client _ (st_heap s1) c) as [o c2].
Qed.

Lemma silent_lowered_text text : silent (lowered_text text).
Proof. unfold lowered_text. silent. Qed.

Lemma silent_classify_task le self text user channel :
  silent (classify_task le self text user channel).
Proof.
  pose proof silent_lowered_text.
  unfold classify_task. silent.
Qed.

Lemma silent_response_text_of result : silent (Slack.response_text_of result).
Proof. unfold Slack.response_text_of. silent. Qed.

(** The router calls at most one handler. *)
Lemma route_task_trace self task s o s' :
  route_task self task s = (o, s') ->
  exists ds, st_trace s' = st_trace s ++ ds /\ length ds <= 1.
Proof.
  rewrite route_task_eq.
  destruct (route_shape _ self task s (stable_select self task))
    as [[e H]|[(ty0 & ty & _ & _ & _ & H)|(ty0 & ty & a & _ & _ & _ & H)]];
    rewrite H; clear H.
  - intros [= <- <-]. exists []. simpl. rewrite app_nil_r. split; [done|lia].
  - intros [= <- <-]. exists []. simpl. rewrite app_nil_r. split; [done|lia].
  - unfold routed. destruct (a task (st_heap s)) as [[r|e] h'];
      intros [= <- <-]; eexists [_]; simpl; (split; [reflexivity|done]).
Qed.

(** Classifying, routing and reading the answer calls at most one
    handler. *)
Lemma answer_trace le self text user channel s o s' :
  (task <- classify_task le self text user channel;;
   result <- route_task self task;;
   Slack.response_text_of result) s = (o, s') ->
  exists ds, st_trace s' = st_trace s ++ ds /\ length ds <= 1.
Proof.
  unfold bind at 1.
  destruct (classify_task le self text user channel s) as [[task|e] s1] eqn:E1;
    pose proof (silent_classify_task _ _ _ _ _ _ _ _ E1) as T1.
  2:{ intros [= <- <-]. exists []. rewrite app_nil_r. split; [done|simpl; lia]. }
  unfold bind at 1.
  destruct (route_task self task s1) as [[result|e] s2] eqn:E2;
    destruct (route_task_trace _ _ _ _ _ E2) as (ds & T2 & Hlen).
  2:{ intros [= <- <-]. exists ds. rewrite T2, T1. split; [done|lia]. }
  intros E3. apply silent_response_text_of in E3.
  exists ds. rewrite E3, T2, T1. split; [done|lia].
Qed.

(** X18.  The message handler on an event that is a mapping never raises.
    An event without user, or of the bot itself, leaves everything as it is:
    nothing is classified, no handler is called, nothing is posted.  For any
    other event at most one handler is called, and the handler posts to the
    channel of the event: the answer; or the answer and, when posting it
    raised, an apology with the text of the exception; or, when something
    raised before the answer was posted, that apology alone.  So at most one
    message is delivered, and an attempt is always made. *)
Theorem handle_message_event_answers_once
  (literal_eval : string -> outcome lit) (orchestrator : Orchestrator)
  (BOT_USER_ID : option string) (client : Type)
  (slack_client : Slack.api_call -> heap -> client -> outcome unit * client)
  (event : val) (d : list (string * val)) (w : Slack.world client) :
  as_dict (st_heap (Slack.w_state w)) event = Some d ->
  let user := default VNone (assoc_get "user" d) in
  let channel := default VNone (assoc_get "channel" d) in
  exists w',
    Slack.handle_message_event literal_eval orchestrator BOT_USER_ID
      slack_client event w = (Ok tt, w')
    /\ if bool_decide (user = VNone) || Slack.is_bot BOT_USER_ID user
       then w' = w
       else
         length (new_dispatches (Slack.w_state w) (Slack.w_state w')) <= 1
         /\ exists calls,
              Slack.w_calls w' = Slack.w_calls w ++ calls
              /\ ((exists text,
                     calls = [Slack.Call (Slack.chat_postMessage channel text) (Ok tt)])
                  \/ (exists text e o,
                        calls = [Slack.Call (Slack.chat_postMessage channel text) (Raise e);
                                 Slack.Call (Slack.apology channel e) o])
                  \/ (exists e o, calls = [Slack.Call (Slack.apology channel e) o])).
Proof.
  intros Hd user channel. destruct w as [s c cs]. cbn [Slack.w_state] in Hd.
  rewrite (handle_message_event_eq _ _ _ _ _ _ _ _ _ Hd).
  fold user channel.
  destruct (bool_decide (user = VNone) || Slack.is_bot BOT_USER_ID user);
    [by eexists|].
  match goal with
  | |- context [match ?m s with _ => _ end] =>
      destruct (m s) as [[answer|e] s1] eqn:E
  end; destruct (answer_trace _ _ _ _ _ _ _ _ E) as (ds & T & Hlen);
    assert (Hnew : length (new_dispatches s s1) <= 1)
      by (unfold new_dispatches; rewrite T, drop_app_length; exact Hlen).
  - destruct (slack_client (Slack.chat_postMessage channel answer) (st_heap s1) c)
      as [[[]|e] c1].
    + eexists. split; [done|]. split; [exact Hnew|].
      eexists. split; [done|]. left. by eexists.
    + destruct (slack_client (Slack.apology channel e) (st_heap s1) c1) as [o c2].
      eexists. split; [done|]. split; [exact Hnew|].
      eexists. split; [done|]. right. left. by eexists _, _, _.
  - destruct (slack_client (Slack.apology channel e) (st_heap s1) c) as [o c2].
    eexists. split; [done|]. split; [exact Hnew|].
    eexists. split; [done|]. right. right. by eexists _, _.
Qed.

(** What is posted once the answer is there. *)
Lemma handle_message_event_posts {client} le orch bot
  (slack_client : Slack.api_call -> heap -> client -> outcome unit * client)
  event d s c cs answer s1 :
  as_dict (st_heap s) event = Some d ->
  let user := default VNone (assoc_get "user" d) in
  let text := default (VStr EmptyString) (assoc_get "text" d) in
  let channel := default VNone (assoc_get "channel" d) in
  user ≠ VNone ->
  Slack.is_bot bot user = false ->
  (task <- classify_task le orch text user channel;;
   result <- route_task orch task;;
   Slack.response_text_of result) s = (Ok answer, s1) ->
  exists c' o rest,
    Slack.handle_message_event le orch bot slack_client event (Slack.World s c cs)
    = (Ok tt, Slack.World s1 c'
                (cs ++ Slack.Call (Slack.chat_postMessage channel answer) o :: rest))
    /\ match o with
       | Ok _ => rest = []
       | Raise e => exists o', rest = [Slack.Call (Slack.apology channel e) o']
       end.
Proof.
  intros Hd user text channel Huser Hbot Hrun.
  rewrite (handle_message_event_eq _ _ _ _ _ _ _ _ _ Hd).
  fold user text channel. rewrite Hbot, bool_decide_false by done. cbn [orb].
  rewrite Hrun.
  destruct (slack_client (Slack.chat_postMessage channel answer) (st_heap s1) c)
    as [[u|e] c1].
  - by eexists c1, (Ok u), [].
  - destruct (slack_client (Slack.apology channel e) (st_heap s1) c1) as [o c2].
    eexists c2, (Raise e), [_]. split; [done|]. by eexists.
Qed.

Lemma lookup_fresh_1 (h : heap) (a b : obj) : (h ++ [a; b]) !! S (length h) = Some b.
Proof.
  rewrite lookup_app_r by lia. by replace (S (length h) - length h) with 1 by lia.
Qed.

Lemma lookup_fresh_0 (h : heap) (a : obj) ext : (h ++ a :: ext) !! length h = Some a.
Proof. rewrite lookup_app_r by lia. by rewrite Nat.sub_diag. Qed.

(** Classifying by the rules, routing and reading the answer. *)
Lemma answer_no_model le self text user channel s k oa :
  gemini_model self = None ->
  text = VNone \/ (exists t, text = VStr t) ->
  fallback_type self match text with VStr t => PyStr.lower t | _ => EmptyString end
  = k ->
  mjoin (registry_get k (agents self)) = oa ->
  exists task s1,
    classify_task le self text user channel s = (Ok task, s1)
    /\ st_trace s1 = st_trace s
    /\ (task <- classify_task le self text user channel;;
        result <- route_task self task;;
        Slack.response_text_of result) s
       = (result <- match oa with
                    | Some a => fun s => routed a (VStr k) task s
                    | None =>
                        alloc (ODict [("error",
                                       VStr (agent_not_found_text self (VStr k)))])
                    end;;
          Slack.response_text_of result) s1.
Proof.
  intros Hm Htext Hk Ha.
  pose proof (classify_task_no_model le self text user channel s Hm Htext) as Hc.
  rewrite Hk in Hc.
  eexists _, _. split; [exact Hc|]. split; [done|].
  unfold bind at 1. rewrite Hc. unfold bind.
  rewrite (route_task_run self _ _ (VStr k) (VStr k) oa); [by destruct oa|..].
  - destruct (classified_fallback (st_heap s) text user channel k)
      as (d & ty & p & c & Hd & Hty & _).
    assert (Hty' : ty = VStr k).
    { unfold as_dict in Hd. rewrite lookup_app_r in Hd by lia.
      replace (2 + length (st_heap s) - length (st_heap s)) with 2 in Hd by lia.
      simpl in Hd. injection Hd as <-. simpl in Hty. by injection Hty as <-. }
    subst ty.
    match goal with
    | |- py_get ?o _ _ ?S = _ =>
        pose proof (py_get_dict o "type" VNone S d Hd) as Hg
    end.
    rewrite Hty in Hg. exact Hg.
  - by rewrite Hm.
  - unfold agents_get. by rewrite Ha.
Qed.

(** X19.  Without a model, with the wiring of [instance.py], a message of a
    user whose text holds none of the key words of the rule-based classifier
    (or has no text) is answered "LLM is not available.": that text is
    posted to the channel of the event, followed by an apology only when
    posting it raised. *)
Theorem offline_message_gets_the_fallback_answer
  (literal_eval : string -> outcome lit) (env : environment)
  (WebSearchAgent : agent) (BOT_USER_ID : option string) (client : Type)
  (slack_client : Slack.api_call -> heap -> client -> outcome unit * client)
  (event : val) (d : list (string * val)) (t : string)
  (w : Slack.world client) :
  gemini_model (Instance.constructed env WebSearchAgent) = None ->
  as_dict (st_heap (Slack.w_state w)) event = Some d ->
  let user := default VNone (assoc_get "user" d) in
  let channel := default VNone (assoc_get "channel" d) in
  user ≠ VNone ->
  Slack.is_bot BOT_USER_ID user = false ->
  default (VStr EmptyString) (assoc_get "text" d) = VStr t ->
  Forall (fun key_word => PyStr.str_in key_word (PyStr.lower t) = false)
    ["search"; "data"; "fetch"; "report"; "dashboard"; "analy"] ->
  exists w' o rest,
    Slack.handle_message_event literal_eval
      (Instance.orchestrator env WebSearchAgent) BOT_USER_ID slack_client event w
    = (Ok tt, w')
    /\ Slack.w_calls w'
       = Slack.w_calls w
         ++ Slack.Call (Slack.chat_postMessage channel (VStr "LLM is not available.")) o
            :: rest
    /\ match o with
       | Ok _ => rest = []
       | Raise e => exists o', rest = [Slack.Call (Slack.apology channel e) o']
       end.
Proof.
  intros Hm Hd user channel Huser Hbot Htext Hkw. subst user channel.
  destruct w as [s c cs]. cbn [Slack.w_state Slack.w_calls] in *.
  set (orch := Instance.orchestrator env WebSearchAgent).
  assert (Hm' : gemini_model orch = None) by exact Hm.
  assert (Hk : fallback_type orch (PyStr.lower t) = "llm_response").
  { unfold fallback_type.
    repeat match goal with
           | H : Forall _ (_ :: _) |- _ => apply Forall_cons in H as [? H]
           end.
    repeat match goal with
           | H : PyStr.str_in _ _ = false |- _ => rewrite H; clear H
           end.
    done. }
  assert (Ha : mjoin (registry_get "llm_response" (agents orch))
               = Some DummyLLMResponseAgent).
  { subst orch. unfold Instance.orchestrator, Instance.llm_instance.
    by rewrite Hm. }
  destruct (answer_no_model literal_eval orch (VStr t)
              (default VNone (assoc_get "user" d))
              (default VNone (assoc_get "channel" d)) s
              "llm_response" (Some DummyLLMResponseAgent) Hm'
              (or_intror (ex_intro _ t eq_refl)) Hk Ha)
    as (task & s1 & _ & _ & Hrun).
  destruct (handle_message_event_posts literal_eval orch BOT_USER_ID slack_client
              event d s c cs (VStr "LLM is not available.")
              {| st_heap := st_heap s1
                   ++ [OList [];
                       ODict [("report", VStr "LLM is not available.");
                              ("data", VRef (length (st_heap s1)))]];
                 st_trace := st_trace s1
                   ++ [Dispatch task (st_heap s1) (Ok (VRef (S (length (st_heap s1)))))] |}
              Hd Huser Hbot) as (c' & o & rest & Hrun' & Hrest).
  { rewrite Htext, Hrun. unfold bind at 1. unfold routed.
    change (DummyLLMResponseAgent task (st_heap s1))
      with (Ok (VRef (length (st_heap s1 ++ [OList []]))),
            (st_heap s1 ++ [OList []])
              ++ [ODict [("report", VStr "LLM is not available.");
                         ("data", VRef (length (st_heap s1)))]]).
    rewrite length_app, Nat.add_1_r, <- app_assoc. cbn [app].
    unfold Slack.response_text_of.
    unfold bind at 1.
    match goal with
    | |- context [py_get ?o "report" VNone ?S] =>
        rewrite (py_get_dict o "report" VNone S
                   [("report", VStr "LLM is not available.");
                    ("data", VRef (length (st_heap s1)))])
    end.
    - done.
    - cbn [st_heap]. unfold as_dict. by rewrite lookup_fresh_1. }
  eexists _, o, rest. split; [exact Hrun'|]. split; [done|exact Hrest].
Qed.

(** ** Printing *)







(** ** The endpoint *)

Lemma wbind_Ok {client A B} (m : Slack.W client A) (f : A -> Slack.W client B)
  w b w' :
  Slack.wbind m f w = (Ok b, w') ->
  exists a w1, m w = (Ok a, w1) /\ f a w1 = (Ok b, w').
Proof.
  unfold Slack.wbind. destruct (m w) as [[a|e] w1]; [eauto|discriminate].
Qed.

Lemma run_inv {client A} (m : M A) (w : Slack.world client) o w' :
  Slack.run m w = (o, w') ->
  exists s', m (Slack.w_state w) = (o, s')
             /\ w' = Slack.World s' (Slack.w_client w) (Slack.w_calls w).
Proof.
  unfold Slack.run. destruct (m (Slack.w_state w)) as [o' s'].
  intros [= <- <-]. by exists s'.
Qed.

Lemma run_alloc_inv {client} ob (w : Slack.world client) o w' :
  Slack.run (alloc ob) w = (o, w') ->
  o = Ok (VRef (length (st_heap (Slack.w_state w))))
  /\ st_heap (Slack.w_state w') !! length (st_heap (Slack.w_state w)) = Some ob.
Proof.
  intros H. apply run_inv in H as (s' & H & ->). unfold alloc in H.
  injection H as <- <-. split; [done|]. cbn. apply lookup_fresh_0.
Qed.

(** X21.  The endpoint never raises: whatever the request, the signature
    check, the body and the handlers do, it returns a new mapping, which is
    [{"challenge": c}], [{"ok": True}] or [{"ok": False, "error": <text of
    the exception>}]. *)
Theorem slack_events_always_answers
  (literal_eval : string -> outcome lit) (orchestrator : Orchestrator)
  (BOT_USER_ID : option string) (client : Type)
  (slack_client : Slack.api_call -> heap -> client -> outcome unit * client)
  (environ : list string) (int_of_str : string -> outcome Z)
  (late : Z -> outcome bool) (HTTPException_str : string -> string)
  (hexdigest : string -> string -> string)
  (req : Slack.request) (w : Slack.world client) :
  exists l w',
    Slack.slack_events literal_eval orchestrator BOT_USER_ID slack_client
      environ int_of_str late HTTPException_str hexdigest req w
    = (Ok (VRef l), w')
    /\ ((exists c, st_heap (Slack.w_state w') !! l = Some (ODict [("challenge", c)]))
        \/ st_heap (Slack.w_state w') !! l = Some Slack.ok_answer
        \/ exists e, st_heap (Slack.w_state w') !! l = Some (Slack.error_answer e)).
Proof.
  unfold Slack.slack_events. unfold Slack.wbind at 1, Slack.wtry at 1.
  match goal with
  | |- context [let (_, _) := ?m w in _] => destruct (m w) as [[v|e] w1] eqn:E
  end.
  - unfold Slack.wret.
    apply wbind_Ok in E as (u & w2 & _ & E).
    apply wbind_Ok in E as (body & w3 & _ & E).
    apply wbind_Ok in E as (payload & w4 & _ & E).
    apply wbind_Ok in E as (ty & w5 & _ & E).
    destruct (bool_decide (ty = VStr "url_verification")).
    + apply wbind_Ok in E as (challenge & w6 & _ & E).
      apply run_alloc_inv in E as [[= ->] E].
      eexists _, w1. split; [done|]. left. by eexists.
    + apply wbind_Ok in E as (empty & w6 & _ & E).
      apply wbind_Ok in E as (event & w7 & _ & E).
      apply wbind_Ok in E as (event_type & w8 & _ & E).
      apply wbind_Ok in E as (u' & w9 & _ & E).
      apply run_alloc_inv in E as [[= ->] E].
      eexists _, w1. split; [done|]. right. by left.
  - match goal with
    | |- context [Slack.run ?m w1] =>
        destruct (Slack.run m w1) as [o w2] eqn:E'
    end.
    apply run_alloc_inv in E' as [-> E'].
    eexists _, w2. split; [done|]. right. right. by eexists.
Qed.

(** X22.  A request that fails the signature check, or whose body cannot
    be read, triggers nothing: no handler is called, no method of the Slack
    client is called, and the answer is [{"ok": False, "error": <text of
    the exception>}]. *)
Theorem rejected_request_triggers_nothing
  (literal_eval : string -> outcome lit) (orchestrator : Orchestrator)
  (BOT_USER_ID : option string) (client : Type)
  (slack_client : Slack.api_call -> heap -> client -> outcome unit * client)
  (environ : list string) (int_of_str : string -> outcome Z)
  (late : Z -> outcome bool) (HTTPException_str : string -> string)
  (hexdigest : string -> string -> string)
  (req : Slack.request) (w : Slack.world client) (e : exn) :
  Slack.verify_slack_signature environ int_of_str late HTTPException_str
    hexdigest req = Raise e
  \/ (Slack.verify_slack_signature environ int_of_str late HTTPException_str
        hexdigest req = Ok tt
      /\ Slack.json req = Raise e) ->
  Slack.slack_events literal_eval orchestrator BOT_USER_ID slack_client
    environ int_of_str late HTTPException_str hexdigest req w
  = (Ok (VRef (length (st_heap (Slack.w_state w)))),
     Slack.World
       {| st_heap := st_heap (Slack.w_state w) ++ [Slack.error_answer e];
          st_trace := st_trace (Slack.w_state w) |}
       (Slack.w_client w) (Slack.w_calls w)).
Proof.
  intros H. destruct w as [s c cs]. unfold Slack.slack_events.
  unfold Slack.wbind at 1, Slack.wtry at 1.
  unfold Slack.wbind at 1. rewrite run_eq. unfold lift at 1. cbn [fst snd].
  destruct H as [->|[-> Hj]]; [done|].
  unfold Slack.wbind at 1. rewrite run_eq. unfold lift at 1. cbn [fst snd].
  by rewrite Hj.
Qed.

(** The handler on an event that is a mapping returns. *)
Lemma handle_message_event_returns {client} le orch bot
  (slack_client : Slack.api_call -> heap -> client -> outcome unit * client)
  event d s c cs :
  as_dict (st_heap s) event = Some d ->
  exists w',
    Slack.handle_message_event le orch bot slack_client event (Slack.World s c cs)
    = (Ok tt, w').
Proof.
  intros Hd. rewrite (handle_message_event_eq _ _ _ _ _ _ _ _ _ Hd).
  destruct (_ || _); [by eexists|].
  match goal with
  | |- context [match ?m s with _ => _ end] => destruct (m s) as [[answer|e] s1]
  end.
  - destruct (slack_client _ (st_heap s1) c) as [[u|e] c1]; [by eexists|].
    destruct (slack_client _ (st_heap s1) c1) as [o c2]. by eexists.
  - destruct (slack_client _ (st_heap s1) c) as [o c2]. by eexists.
Qed.

Lemma alloc_lit_silent x s o s' : alloc_lit x s = (o, s') -> st_trace s' = st_trace s.
Proof.
  destruct (alloc_lit_grows x s) as (v & ext & H & _). rewrite H.
  by intros [= <- <-].
Qed.

(** The name of a variable of the environment holds no [=]. *)
Lemma entry_name e k value k1 k2 :
  Slack.entry e = Some (k, value) -> k <> k1 +:+ "=" +:+ k2.
Proof.
  revert k k1. induction e as [|c rest IH]; intros k k1; [done|]. cbn.
  case_bool_decide as Hc.
  - intros [= <- _]. by destruct k1.
  - destruct (Slack.entry rest) as [[name v]|] eqn:E; [|done].
    intros [= <- <-]. destruct k1 as [|c1 k1].
    + change (EmptyString +:+ "=" +:+ k2) with (String "=" k2). by intros [= ? _].
    + change (String c1 k1 +:+ "=" +:+ k2) with (String c1 (k1 +:+ "=" +:+ k2)).
      intros [= _ Hn]. by eapply IH.
Qed.

Lemma getenv_name environ k1 k2 : Slack.getenv environ (k1 +:+ "=" +:+ k2) = None.
Proof.
  induction environ as [|e rest IH]; [done|]. cbn.
  destruct (Slack.entry e) as [[k value]|] eqn:E; [|done].
  rewrite bool_decide_false; [done|]. by eapply entry_name.
Qed.

Lemma SLACK_SIGNING_SECRET_unset environ : Slack.SLACK_SIGNING_SECRET environ = None.
Proof. apply (getenv_name environ "SLACK_S" "IGNING_SECRET"). Qed.

(** The verification raises its [rejection]. *)
Lemma verify_slack_signature_rejects environ int_of_str late HTTPException_str
  hexdigest req :
  Slack.verify_slack_signature environ int_of_str late HTTPException_str hexdigest req
  = Raise (Slack.rejection int_of_str late HTTPException_str req).
Proof.
  unfold Slack.verify_slack_signature, Slack.rejection.
  destruct (Slack.int _ _) as [n|e]; [|done]. cbn.
  destruct (late n) as [[|]|e]; [done| |done]. cbn.
  destruct (Slack.body req) as [text|e]; [|done]. cbn.
  by rewrite SLACK_SIGNING_SECRET_unset.
Qed.

(** X23.  The verification of the signature never returns.  The signing
    secret is read from the variable "SLACK_S=IGNING_SECRET", a name no
    variable of the environment has, so it is [None] whatever the
    environment sets.  A request with no timestamp, a timestamp that is no
    integer, an old timestamp or an unreadable body raises for that; every
    other request, whatever its signature, raises
    [AttributeError("'NoneType' object has no attribute 'encode'")]. *)
Theorem verify_slack_signature_never_returns
  (environ : list string) (int_of_str : string -> outcome Z)
  (late : Z -> outcome bool) (HTTPException_str : string -> string)
  (hexdigest : string -> string -> string) (req : Slack.request) :
  Slack.SLACK_SIGNING_SECRET environ = None
  /\ Slack.verify_slack_signature environ int_of_str late HTTPException_str
       hexdigest req
     = (n <-? Slack.int int_of_str (Slack.x_slack_request_timestamp req);;
        old <-? late n;;
        if (old : bool)
        then Raise (Slack.HTTPException HTTPException_str "Invalid timestamp")
        else
          _ <-? Slack.body req;;
          Raise (Exn "AttributeError" "'NoneType' object has no attribute 'encode'"))
  /\ forall u,
       Slack.verify_slack_signature environ int_of_str late HTTPException_str
         hexdigest req <> Ok u.
Proof.
  split; [apply SLACK_SIGNING_SECRET_unset|]. split.
  - rewrite verify_slack_signature_rejects. unfold Slack.rejection.
    destruct (Slack.int _ _) as [n|e]; [|done]. cbn.
    destruct (late n) as [[|]|e]; [done| |done]. cbn.
    by destruct (Slack.body req).
  - intros u. by rewrite verify_slack_signature_rejects.
Qed.

(** X24.  The endpoint rejects every request: whatever the environment,
    the headers and the body, the answer is the new mapping
    [{"ok": False, "error": <text of the exception of the verification>}],
    the body is not read as JSON, no handler is called and no method of
    the Slack client is called.  So a URL verification is never answered
    with its challenge and a message never reaches
    [handle_message_event]. *)
Theorem slack_events_rejects_every_request
  (literal_eval : string -> outcome lit) (orchestrator : Orchestrator)
  (BOT_USER_ID : option string) (client : Type)
  (slack_client : Slack.api_call -> heap -> client -> outcome unit * client)
  (environ : list string) (int_of_str : string -> outcome Z)
  (late : Z -> outcome bool) (HTTPException_str : string -> string)
  (hexdigest : string -> string -> string)
  (req : Slack.request) (w : Slack.world client) :
  Slack.slack_events literal_eval orchestrator BOT_USER_ID slack_client
    environ int_of_str late HTTPException_str hexdigest req w
  = (Ok (VRef (length (st_heap (Slack.w_state w)))),
     Slack.World
       {| st_heap := st_heap (Slack.w_state w)
            ++ [Slack.error_answer
                  (Slack.rejection int_of_str late HTTPException_str req)];
          st_trace := st_trace (Slack.w_state w) |}
       (Slack.w_client w) (Slack.w_calls w)).
Proof.
  destruct w as [s c cs]. unfold Slack.slack_events.
  unfold Slack.wbind at 1, Slack.wtry at 1.
  unfold Slack.wbind at 1. rewrite run_eq. unfold lift at 1. cbn [fst snd].
  by rewrite verify_slack_signature_rejects.
Qed.

(** X25.  The reaction handler, on an event that is a mapping whose item,
    when there is one, is a mapping: it calls [reactions_add] once, with the
    channel and the timestamp of the item and the reaction of the event,
    when the three are true values, and returns or raises as that call
    does; otherwise it calls nothing and returns.  It calls no handler and
    writes to no object of the store it receives. *)
Theorem handle_reaction_event_adds_the_reaction
  (client : Type)
  (slack_client : Slack.api_call -> heap -> client -> outcome unit * client)
  (event : val) (d item : list (string * val)) (w : Slack.world client) :
  as_dict (st_heap (Slack.w_state w)) event = Some d ->
  match assoc_get "item" d with
  | Some i => as_dict (st_heap (Slack.w_state w)) i
  | None => Some []
  end = Some item ->
  let h := st_heap (Slack.w_state w) ++ [ODict []; ODict []] in
  let s := {| st_heap := h; st_trace := st_trace (Slack.w_state w) |} in
  let channel := default VNone (assoc_get "channel" item) in
  let timestamp := default VNone (assoc_get "ts" item) in
  let reaction := default VNone (assoc_get "reaction" d) in
  Slack.handle_reaction_event slack_client event w
  = if truthy h reaction && truthy h channel && truthy h timestamp
    then
      let (o, c) :=
        slack_client (Slack.reactions_add channel timestamp reaction) h
          (Slack.w_client w) in
      (o, Slack.World s c
            (Slack.w_calls w
             ++ [Slack.Call (Slack.reactions_add channel timestamp reaction) o]))
    else (Ok tt, Slack.World s (Slack.w_client w) (Slack.w_calls w)).
Proof.
  intros Hd Hitem h s channel timestamp reaction.
  destruct w as [s0 c cs]. cbn [Slack.w_state Slack.w_client Slack.w_calls] in *.
  unfold Slack.handle_reaction_event.
  unfold Slack.wbind at 1. rewrite run_eq. unfold alloc at 1. cbn [fst snd].
  set (s1 := {| st_heap := st_heap s0 ++ [ODict []]; st_trace := st_trace s0 |}).
  assert (Hd1 : as_dict (st_heap s1) event = Some d) by by apply as_dict_app.
  assert (Hi1 : as_dict (st_heap s1)
                  (default (VRef (length (st_heap s0))) (assoc_get "item" d))
                = Some item).
  { destruct (assoc_get "item" d) as [i|]; cbn [default from_option id].
    - by apply as_dict_app.
    - injection Hitem as <-. unfold as_dict. cbn [st_heap s1].
      by rewrite lookup_fresh_0. }
  unfold Slack.wbind at 1. rewrite run_eq, (py_get_dict _ _ _ _ _ Hd1). cbn [fst snd].
  unfold Slack.wbind at 1. rewrite run_eq, (py_get_dict _ _ _ _ _ Hi1). cbn [fst snd].
  unfold Slack.wbind at 1. rewrite run_eq. unfold alloc. cbn [fst snd].
  subst s1. cbn [st_heap st_trace].
  rewrite <- app_assoc. cbn [app]. fold h. fold s.
  assert (Hd2 : as_dict (st_heap s) event = Some d).
  { cbn [st_heap s]. subst h. by apply as_dict_app. }
  assert (Hi2 : as_dict (st_heap s)
                  (default (VRef (length (st_heap s0 ++ [ODict []])))
                     (assoc_get "item" d))
                = Some item).
  { cbn [st_heap s]. subst h.
    destruct (assoc_get "item" d) as [i|]; cbn [default from_option id].
    - by apply as_dict_app.
    - injection Hitem as <-. unfold as_dict.
      rewrite length_app, Nat.add_1_r. by rewrite lookup_fresh_1. }
  unfold Slack.wbind at 1. rewrite run_eq, (py_get_dict _ _ _ _ _ Hd2). cbn [fst snd].
  unfold Slack.wbind at 1. rewrite run_eq, (py_get_dict _ _ _ _ _ Hi2). cbn [fst snd].
  unfold Slack.wbind at 1. rewrite run_eq, (py_get_dict _ _ _ _ _ Hd2). cbn [fst snd].
  unfold Slack.wbind at 1. rewrite run_eq. unfold get_heap. cbn [fst snd].
  fold channel timestamp reaction. change (st_heap s) with h.
  destruct (truthy h reaction && truthy h channel && truthy h timestamp); [|done].
  unfold Slack.api. cbn [Slack.w_state Slack.w_client Slack.w_calls].
  change (st_heap s) with h. done.
Qed.

(** ** The agent that answers with the model *)

(** The agent up to the query of the task. *)
Lemma LLMResponseAgent_query gm task (h : heap) d pd :
  as_dict h task = Some d ->
  match assoc_get "payload" d with
  | Some p => as_dict h p
  | None => Some []
  end = Some pd ->
  let h1 := h ++ [ODict []] in
  let prompt := default (VStr EmptyString) (assoc_get "query" pd) in
  LLMResponseAgent gm task h
  = handler (fun _ =>
      if negb (truthy h1 prompt) then report_data (VStr "No input provided.")
      else
        match gm with
        | None => report_data (VStr "LLM is not available.")
        | Some model =>
            text <- ask model (QueryPrompt prompt);;
            report_data (VStr text)
        end) task h1.
Proof.
  intros Hd Hpd h1 prompt. unfold LLMResponseAgent, handler.
  unfold bind at 1, alloc at 1. cbn [st_heap st_trace].
  set (s1 := {| st_heap := h ++ [ODict []]; st_trace := [] |}).
  assert (Hd1 : as_dict (st_heap s1) task = Some d) by by apply as_dict_app.
  assert (Hp1 : as_dict (st_heap s1) (default (VRef (length h)) (assoc_get "payload" d))
                = Some pd).
  { destruct (assoc_get "payload" d) as [p|]; cbn [default from_option id].
    - by apply as_dict_app.
    - injection Hpd as <-. unfold as_dict. cbn [st_heap s1].
      by rewrite lookup_fresh_0. }
  unfold bind at 1. rewrite (py_get_dict _ _ _ _ _ Hd1).
  unfold bind at 1. rewrite (py_get_dict _ _ _ _ _ Hp1).
  unfold bind at 1, get_heap at 1. reflexivity.
Qed.

(** X26.  The agent answers "No input provided." without consulting the
    model: for a task that is a mapping, whose payload (when there is one)
    is a mapping, and whose query is missing or false, the Result is
    [{"report": "No input provided.", "data": []}] whatever the model, and
    also when there is none. *)
Theorem llm_agent_without_query_does_not_ask
  (task : val) (h : heap) (d pd : list (string * val)) :
  as_dict h task = Some d ->
  match assoc_get "payload" d with
  | Some p => as_dict h p
  | None => Some []
  end = Some pd ->
  truthy (h ++ [ODict []]) (default (VStr EmptyString) (assoc_get "query" pd))
  = false ->
  forall gemini_model,
    LLMResponseAgent gemini_model task h
    = (Ok (VRef (2 + length h)),
       h ++ [ODict []; OList [];
             ODict [("report", VStr "No input provided.");
                    ("data", VRef (1 + length h))]]).
Proof.
  intros Hd Hpd Hq gm.
  rewrite (LLMResponseAgent_query gm task h d pd Hd Hpd). cbv zeta.
  rewrite Hq. unfold handler, report_data, bind, alloc. cbn.
  rewrite !length_app. cbn. rewrite <- !app_assoc. cbn.
  by replace (length h + 1 + 1) with (S (S (length h))) by lia;
     replace (length h + 1) with (S (length h)) by lia.
Qed.

(** X27.  With a query, the agent asks the model once, with the query as
    prompt: the Result is the model's text under "report", with a new empty
    list under "data"; an exception of the model is not caught and leaves
    the agent.  Without a model the Result is "LLM is not available.". *)
Theorem llm_agent_answers_with_the_model
  (gemini_model : option oracle) (task : val) (h : heap)
  (d pd : list (string * val)) :
  as_dict h task = Some d ->
  match assoc_get "payload" d with
  | Some p => as_dict h p
  | None => Some []
  end = Some pd ->
  let h1 := h ++ [ODict []] in
  let prompt := default (VStr EmptyString) (assoc_get "query" pd) in
  truthy h1 prompt = true ->
  let answer text :=
    (Ok (VRef (2 + length h)),
     h ++ [ODict []; OList [];
           ODict [("report", VStr text); ("data", VRef (1 + length h))]]) in
  LLMResponseAgent gemini_model task h
  = match gemini_model with
    | None => answer "LLM is not available."
    | Some model =>
        match model (QueryPrompt prompt) h1 with
        | Ok text => answer text
        | Raise e => (Raise e, h1)
        end
    end.
Proof.
  intros Hd Hpd h1 prompt Hq answer.
  rewrite (LLMResponseAgent_query gemini_model task h d pd Hd Hpd). cbv zeta.
  fold h1 prompt. rewrite Hq. cbn [negb]. subst answer. cbv beta.
  assert (E : forall text,
             handler (fun _ => report_data (VStr text)) task h1
             = (Ok (VRef (2 + length h)),
                h ++ [ODict []; OList [];
                      ODict [("report", VStr text); ("data", VRef (1 + length h))]])).
  { intros text. subst h1. unfold handler, report_data, bind, alloc. cbn.
    rewrite !length_app. cbn. rewrite <- !app_assoc. cbn.
    by replace (length h + 1 + 1) with (S (S (length h))) by lia;
       replace (length h + 1) with (S (length h)) by lia. }
  destruct gemini_model as [model|]; [|apply E].
  unfold handler. unfold bind at 1, ask at 1. cbn [st_heap].
  destruct (model (QueryPrompt prompt) h1) as [text|e]; [|done].
  apply (E text).
Qed.

(** * The web search agent *)

(** ** The store it receives *)

Lemma keeps_length (h h' : heap) : take (length h) h' = h -> length h <= length h'.
Proof. intros E. rewrite <- E at 1. rewrite length_take. lia. Qed.

Lemma keeps_stable {A} h (m : M A) : stable m -> WebSearch.keeps h m.
Proof. intros Hm s o s' Hs E. by rewrite (Hm _ _ _ E). Qed.

Lemma keeps_ret {A} h (a : A) : WebSearch.keeps h (ret a).
Proof. apply keeps_stable, stable_ret. Qed.

Lemma keeps_raise {A} h e : WebSearch.keeps h (@raise A e).
Proof. apply keeps_stable, stable_raise. Qed.

Lemma keeps_lift {A} h (o : outcome A) : WebSearch.keeps h (lift o).
Proof. apply keeps_stable, stable_lift. Qed.

Lemma keeps_get_heap h : WebSearch.keeps h get_heap.
Proof. apply keeps_stable, stable_get_heap. Qed.

Lemma keeps_py_get h o k dflt : WebSearch.keeps h (py_get o k dflt).
Proof. apply keeps_stable, stable_py_get. Qed.

Lemma keeps_py_getitem h o k : WebSearch.keeps h (py_getitem o k).
Proof. apply keeps_stable, stable_py_getitem. Qed.

Lemma keeps_alloc h o : WebSearch.keeps h (alloc o).
Proof.
  intros s r s' Hs [= <- <-]. cbn [st_heap].
  rewrite take_app_le by by apply keeps_length. done.
Qed.

Lemma keeps_store h l o : length h <= l -> WebSearch.keeps h (store l o).
Proof.
  intros Hl s r s' Hs [= <- <-]. cbn [st_heap].
  by rewrite take_insert_ge.
Qed.

Lemma keeps_bind_post {A B} h (m : M A) (f : A -> M B) (P : A -> Prop) :
  WebSearch.keeps h m ->
  (forall s a s', take (length h) (st_heap s) = h -> m s = (Ok a, s') -> P a) ->
  (forall a, P a -> WebSearch.keeps h (f a)) ->
  WebSearch.keeps h (bind m f).
Proof.
  intros Hm HP Hf s o s' Hs. unfold bind.
  destruct (m s) as [[a|e] s1] eqn:E.
  - intros E'. eapply (Hf a); [by eapply HP|by eapply Hm|exact E'].
  - intros [= <- <-]. by eapply Hm.
Qed.

Lemma keeps_bind {A B} h (m : M A) (f : A -> M B) :
  WebSearch.keeps h m -> (forall a, WebSearch.keeps h (f a)) ->
  WebSearch.keeps h (bind m f).
Proof.
  intros Hm Hf. apply (keeps_bind_post h m f (fun _ => True)); auto.
Qed.

Lemma keeps_try {A} h (m : M A) : WebSearch.keeps h m -> WebSearch.keeps h (try_ m).
Proof.
  intros Hm s o s' Hs. unfold try_. destruct (m s) as [r s1] eqn:E.
  intros [= <- <-]. by eapply Hm.
Qed.

Lemma keeps_alloc_lit h x : WebSearch.keeps h (alloc_lit x).
Proof.
  intros s o s' Hs. destruct (alloc_lit_grows x s) as (v & ext & H & _).
  rewrite H. intros [= <- <-]. cbn [st_heap].
  rewrite take_app_le by by apply keeps_length. done.
Qed.

Create HintDb keeps.

#[export] Hint Resolve keeps_ret keeps_raise keeps_lift keeps_get_heap
  keeps_py_get keeps_py_getitem keeps_alloc keeps_alloc_lit : keeps.

Ltac keeps :=
  repeat first
    [ progress auto with keeps
    | apply keeps_bind; [|intros ?]
    | apply keeps_try
    | match goal with
      | |- WebSearch.keeps _ (match ?x with _ => _ end) => destruct x
      | |- WebSearch.keeps _ (if ?b then _ else _) => destruct b
      end ].

Lemma keeps_report_data h report : WebSearch.keeps h (report_data report).
Proof. unfold report_data. keeps. Qed.

Lemma keeps_py_len h v : WebSearch.keeps h (WebSearch.py_len v).
Proof. unfold WebSearch.py_len. keeps. Qed.

Lemma keeps_py_slice_to h v n : WebSearch.keeps h (WebSearch.py_slice_to v n).
Proof. unfold WebSearch.py_slice_to. keeps. Qed.

Lemma keeps_py_add_str h v s : WebSearch.keeps h (WebSearch.py_add_str v s).
Proof. unfold WebSearch.py_add_str. keeps. Qed.

Lemma keeps_py_iter h v : WebSearch.keeps h (WebSearch.py_iter v).
Proof. unfold WebSearch.py_iter. keeps. Qed.

Lemma keeps_py_int h f v : WebSearch.keeps h (WebSearch.py_int f v).
Proof. unfold WebSearch.py_int. keeps. Qed.

Lemma keeps_py_append h r v :
  length h <= r -> WebSearch.keeps h (WebSearch.py_append (VRef r) v).
Proof.
  intros Hr. unfold WebSearch.py_append. apply keeps_bind; [keeps|intros hp].
  destruct (as_list hp (VRef r)); [by apply keeps_store|keeps].
Qed.

#[export] Hint Resolve keeps_report_data keeps_py_len keeps_py_slice_to
  keeps_py_add_str keeps_py_iter keeps_py_int : keeps.

Lemma keeps_add_result h r item :
  length h <= r -> WebSearch.keeps h (WebSearch.add_result (VRef r) item).
Proof.
  intros Hr. pose proof (keeps_py_append h r) as Ha.
  unfold WebSearch.add_result. keeps.
Qed.

Lemma keeps_for_each {A} h (l : list A) body :
  (forall x, WebSearch.keeps h (body x)) ->
  WebSearch.keeps h (WebSearch.for_each l body).
Proof. intros Hb. induction l as [|x l IH]; simpl; keeps. Qed.

Lemma keeps_block h idx item : WebSearch.keeps h (WebSearch.block idx item).
Proof. unfold WebSearch.block. keeps. Qed.

Lemma keeps_blocks h idx items : WebSearch.keeps h (WebSearch.blocks idx items).
Proof.
  revert idx. induction items as [|x l IH]; intros idx; simpl; [keeps|].
  pose proof (keeps_block h idx x). keeps.
Qed.

Lemma keeps_format_results_for_slack h results :
  WebSearch.keeps h (WebSearch.format_results_for_slack results).
Proof.
  pose proof (keeps_blocks h). unfold WebSearch.format_results_for_slack. keeps.
Qed.

#[export] Hint Resolve keeps_format_results_for_slack : keeps.

Lemma keeps_handle h key cse int_of_str get task :
  WebSearch.keeps h (WebSearch.handle key cse int_of_str get task).
Proof.
  unfold WebSearch.handle. do 6 (apply keeps_bind; [keeps|intros ?]).
  match goal with
  | |- WebSearch.keeps _ (if ?b then _ else _) => destruct b
  end; [keeps|].
  apply keeps_bind; [keeps|intros _].
  apply keeps_bind; [|intros [v|e]; keeps].
  apply keeps_try.
  do 6 (apply keeps_bind; [keeps|intros ?]).
  match goal with
  | |- WebSearch.keeps _ (if ?b then _ else _) => destruct b
  end; [keeps|].
  apply (keeps_bind_post h _ _ (fun v => exists r, v = VRef r /\ length h <= r)).
  - keeps.
  - intros st0 res st1 Hs [= <- <-]. eexists. split; [done|]. by apply keeps_length.
  - intros results (r & -> & Hr).
    apply keeps_bind; [keeps|intros its].
    apply keeps_bind; [|intros ?; keeps].
    apply keeps_for_each. intros item. by apply keeps_add_result.
Qed.

(** X30.  The agent leaves the store it receives as it is: whatever the
    task and the service, and whether it returns or raises, the objects that
    were there (the task and its payload among them) are unchanged; it only
    adds objects. *)
Theorem web_search_keeps_the_store
  (GOOGLE_SEARCH_API_KEY GOOGLE_CSE_ID : option string)
  (int_of_str : string -> outcome Z)
  (get : list (string * val) -> heap -> outcome lit)
  (task : val) (h : heap) :
  exists ext,
    (WebSearch.WebSearchAgent GOOGLE_SEARCH_API_KEY GOOGLE_CSE_ID int_of_str get
       task h).2
    = h ++ ext.
Proof.
  unfold WebSearch.WebSearchAgent, handler.
  destruct (WebSearch.handle _ _ _ _ task {| st_heap := h; st_trace := [] |})
    as [o s] eqn:E.
  apply keeps_handle with (h := h) in E; [|apply firstn_all].
  cbn [snd]. exists (drop (length h) (st_heap s)).
  by rewrite <- E at 1; rewrite take_drop.
Qed.

(** ** What it returns *)

Lemma report_data_eq report s :
  report_data report s
  = (Ok (VRef (S (length (st_heap s)))),
     {| st_heap := st_heap s
          ++ [OList []; ODict [("report", report); ("data", VRef (length (st_heap s)))]];
        st_trace := st_trace s |}).
Proof.
  unfold report_data, bind, alloc. cbn [st_heap st_trace].
  rewrite length_app, Nat.add_1_r, <- app_assoc. done.
Qed.

Lemma py_int_of f v z s :
  WebSearch.int_of f v = Some z -> WebSearch.py_int f v s = (Ok z, s).
Proof.
  unfold WebSearch.int_of, WebSearch.py_int, bind, get_heap, ret, lift.
  destruct v as [|b|x|t|l]; try done.
  - by intros [= ->].
  - by intros [= ->].
  - destruct (f t); [by intros [= ->]|done].
Qed.

Lemma search_result_app h ext r :
  WebSearch.search_result h r -> WebSearch.search_result (h ++ ext) r.
Proof.
  intros (l & t & k & sn & -> & Hl & Hs). exists l, t, k, sn.
  split; [done|]. split; [|done]. by apply lookup_app_l_Some.
Qed.

Lemma search_result_insert h rl rs rs' r :
  h !! rl = Some (OList rs) ->
  WebSearch.search_result h r ->
  WebSearch.search_result (<[rl := OList rs']> h) r.
Proof.
  intros Hrl (l & t & k & sn & -> & Hl & Hs). exists l, t, k, sn.
  split; [done|]. split; [|done].
  rewrite list_lookup_insert_ne; [done|]. intros E. subst l.
  assert (E : Some (OList rs)
              = Some (ODict [("title", t); ("link", k); ("snippet", sn)])).
  { rewrite <- Hrl. exact Hl. }
  discriminate E.
Qed.

Lemma str_take_length n s : String.length (WebSearch.str_take n s) <= n.
Proof.
  revert s. induction n as [|n IH]; intros [|c s]; simpl; try lia.
  specialize (IH s). lia.
Qed.

Lemma length_append (a b : string) :
  String.length (a +:+ b) = String.length a + String.length b.
Proof.
  induction a as [|c a IH]; [done|].
  change (S (String.length (a +:+ b)) = S (String.length a) + String.length b).
  by rewrite IH.
Qed.

(** The snippet a round of the loop keeps is short. *)
Lemma shortened_snippet snippet n s v s' :
  WebSearch.py_len snippet s = (Ok n, s) ->
  (if 300 <? n
   then x <- WebSearch.py_slice_to snippet 297;; WebSearch.py_add_str x "..."
   else ret snippet) s = (Ok v, s') ->
  s' = s /\ WebSearch.short v.
Proof.
  intros Hlen. destruct (300 <? n) eqn:Hn.
  - intros E. apply bind_Ok in E as (x & s1 & E1 & E2).
    destruct snippet as [| | |t|l].
    1-3: by unfold WebSearch.py_slice_to, bind, get_heap, raise in E1.
    + unfold WebSearch.py_slice_to, bind, get_heap, ret in E1.
      pose proof (str_take_length 297 t) as Hu.
      remember (WebSearch.str_take 297 t) as u eqn:Eu. clear Eu.
      injection E1 as <- <-.
      unfold WebSearch.py_add_str, bind, get_heap, ret in E2.
      injection E2 as <- <-. split; [done|].
      intros t' [= <-]. rewrite length_append.
      change (String.length "...") with 3. lia.
    + unfold WebSearch.py_slice_to, bind, get_heap in E1.
      destruct (st_heap s !! l) as [[dd|vs]|] eqn:El; try by invc E1.
      unfold alloc in E1. injection E1 as <- <-.
      unfold WebSearch.py_add_str, bind, get_heap in E2. cbn [st_heap] in E2.
      rewrite lookup_fresh_0 in E2. by invc E2.
  - intros [= <- <-]. split; [done|]. intros t ->.
    unfold WebSearch.py_len, bind, get_heap, ret in Hlen.
    injection Hlen as <-. apply Nat.ltb_ge in Hn. exact Hn.
Qed.

(** One round of the loop. *)
Lemma add_result_Ok rl item s u s' :
  WebSearch.add_result (VRef rl) item s = (Ok u, s') ->
  WebSearch.collected rl s ->
  WebSearch.collected rl s' /\ st_trace s' = st_trace s.
Proof.
  intros E (rs & Hrl & Hrs). unfold WebSearch.add_result in E.
  apply bind_Ok in E as (snippet & s1 & E1 & E).
  pose proof (stable_py_get _ _ _ _ _ _ E1); subst s1.
  apply bind_Ok in E as (n & s1 & E2 & E).
  assert (s1 = s) as ->.
  { revert E2. unfold WebSearch.py_len, bind, get_heap, ret, raise.
    destruct snippet as [| | |t|l]; try by intros [= _ <-].
    destruct (st_heap s !! l) as [[?|?]|]; by intros [= _ <-]. }
  apply bind_Ok in E as (snippet' & s1 & E3 & E).
  destruct (shortened_snippet _ _ _ _ _ E2 E3) as [-> Hshort].
  apply bind_Ok in E as (title & s1 & E4 & E).
  pose proof (stable_py_get _ _ _ _ _ _ E4); subst s1.
  apply bind_Ok in E as (link & s1 & E5 & E).
  pose proof (stable_py_get _ _ _ _ _ _ E5); subst s1.
  unfold bind at 1, alloc at 1 in E.
  unfold WebSearch.py_append, bind, get_heap in E. cbn [st_heap st_trace] in E.
  assert (Hrl' : (st_heap s
                  ++ [ODict [("title", title); ("link", link); ("snippet", snippet')]])
                 !! rl = Some (OList rs)) by by apply lookup_app_l_Some.
  unfold as_list in E. rewrite Hrl' in E. unfold store in E.
  cbn [st_heap st_trace] in E. injection E as _ <-. split; [|done].
  exists (rs ++ [VRef (length (st_heap s))]). cbn [st_heap]. split.
  - apply list_lookup_insert_eq. by eapply lookup_lt_Some.
  - apply Forall_app. split.
    + eapply Forall_impl; [exact Hrs|]. intros r Hr. cbv beta.
      eapply search_result_insert; [exact Hrl'|]. by apply search_result_app.
    + apply Forall_singleton.
      exists (length (st_heap s)), title, link, snippet'.
      split; [done|]. split; [|done].
      rewrite list_lookup_insert_ne.
      * apply lookup_fresh_0.
      * apply lookup_lt_Some in Hrl. lia.
Qed.

Lemma for_each_Ok rl its s u s' :
  WebSearch.for_each its (WebSearch.add_result (VRef rl)) s = (Ok u, s') ->
  WebSearch.collected rl s ->
  WebSearch.collected rl s' /\ st_trace s' = st_trace s.
Proof.
  revert s. induction its as [|item its IH]; intros s; simpl.
  - by intros [= _ <-].
  - intros E Hc. apply bind_Ok in E as (u1 & s1 & E1 & E).
    destruct (add_result_Ok _ _ _ _ _ E1 Hc) as [Hc1 T1].
    destruct (IH _ E Hc1) as [Hc' T]. split; [done|]. by rewrite T.
Qed.

Lemma stable_py_iter v : stable (WebSearch.py_iter v).
Proof. unfold WebSearch.py_iter. stable. Qed.

Lemma stable_block idx item : stable (WebSearch.block idx item).
Proof. unfold WebSearch.block. stable. Qed.

Lemma stable_blocks idx items : stable (WebSearch.blocks idx items).
Proof.
  revert idx. induction items as [|x l IH]; intros idx; simpl; [stable|].
  pose proof (stable_block idx x). pose proof (IH (S idx)). stable.
Qed.

Lemma stable_format_results_for_slack results :
  stable (WebSearch.format_results_for_slack results).
Proof.
  pose proof stable_py_iter. pose proof stable_blocks.
  unfold WebSearch.format_results_for_slack. stable.
Qed.

(** A Result of the agent in the store [h]: a mapping with a text under
    "report" and, under "data", a list of results. *)
Lemma report_data_result text s :
  exists l dl rs,
    report_data (VStr text) s
    = (Ok (VRef l),
       {| st_heap := st_heap s
            ++ [OList []; ODict [("report", VStr text); ("data", VRef dl)]];
          st_trace := st_trace s |})
    /\ (st_heap s ++ [OList []; ODict [("report", VStr text); ("data", VRef dl)]])
       !! l = Some (ODict [("report", VStr text); ("data", VRef dl)])
    /\ (st_heap s ++ [OList []; ODict [("report", VStr text); ("data", VRef dl)]])
       !! dl = Some (OList rs)
    /\ Forall (WebSearch.search_result
                 (st_heap s
                  ++ [OList []; ODict [("report", VStr text); ("data", VRef dl)]]))
         rs.
Proof.
  exists (S (length (st_heap s))), (length (st_heap s)), [].
  rewrite report_data_eq. split; [done|]. split; [apply lookup_fresh_1|].
  split; [apply lookup_fresh_0|constructor].
Qed.

(** The [try] block, when it returns. *)
Lemma search_Ok (get : list (string * val) -> heap -> outcome lit) params
  (capped : bool) s v s' :
  (h <- get_heap;;
   body <- lift (get params h);;
   data <- alloc_lit body;;
   empty <- alloc (OList []);;
   items <- py_get data "items" empty;;
   h <- get_heap;;
   if negb (truthy h items) then report_data (VStr "No results found.")
   else
     results <- alloc (OList []);;
     its <- WebSearch.py_iter items;;
     _ <- WebSearch.for_each its (WebSearch.add_result results);;
     formatted <- WebSearch.format_results_for_slack results;;
     let formatted := if capped then WebSearch.note +:+ formatted else formatted in
     alloc (ODict [("report", VStr formatted); ("data", results)])) s
  = (Ok v, s') ->
  exists l text dl rs,
    v = VRef l
    /\ st_heap s' !! l = Some (ODict [("report", VStr text); ("data", VRef dl)])
    /\ st_heap s' !! dl = Some (OList rs)
    /\ Forall (WebSearch.search_result (st_heap s')) rs.
Proof.
  intros E.
  apply bind_Ok in E as (h0 & s1 & _ & E).
  apply bind_Ok in E as (body & s2 & _ & E).
  apply bind_Ok in E as (data & s3 & _ & E).
  apply bind_Ok in E as (empty & s4 & _ & E).
  apply bind_Ok in E as (items & s5 & _ & E).
  apply bind_Ok in E as (h1 & s6 & _ & E).
  destruct (negb (truthy h1 items)).
  - destruct (report_data_result "No results found." s6)
      as (l & dl & rs & Hr & Hl & Hdl & Hrs).
    rewrite Hr in E. injection E as <- <-.
    by exists l, "No results found.", dl, rs.
  - apply bind_Ok in E as (results & s7 & Ea & E).
    unfold alloc in Ea. injection Ea as <- <-.
    apply bind_Ok in E as (its & s8 & Ei & E).
    pose proof (stable_py_iter _ _ _ _ Ei); subst s8.
    apply bind_Ok in E as (u & s9 & Ef & E).
    apply for_each_Ok in Ef as [(rs & Hrl & Hrs) _].
    2:{ exists []. cbn [st_heap]. split; [apply lookup_fresh_0|constructor]. }
    apply bind_Ok in E as (formatted & s10 & Efmt & E).
    pose proof (stable_format_results_for_slack _ _ _ _ Efmt); subst s10.
    unfold alloc in E. injection E as <- <-. cbn [st_heap].
    eexists (length (st_heap s9)), _, (length (st_heap s6)), rs.
    split; [done|]. split; [apply lookup_fresh_0|].
    split; [by apply lookup_app_l_Some|].
    eapply Forall_impl; [exact Hrs|]. intros r Hr. by apply search_result_app.
Qed.

(** The agent on a task with a payload and a number of results that
    converts. *)
Lemma handle_eq key cse int_of_str get task s d p pd n :
  as_dict (st_heap s) task = Some d ->
  assoc_get "payload" d = Some p ->
  as_dict (st_heap s) p = Some pd ->
  WebSearch.int_of int_of_str (default (VInt 3) (assoc_get "num_results" pd)) = Some n ->
  let query := default VNone (assoc_get "query" pd) in
  let capped := (10 <? n)%Z in
  let params := [("key", WebSearch.getenv key); ("cx", WebSearch.getenv cse);
                 ("q", query); ("num", VInt (if capped then 10%Z else n))] in
  WebSearch.handle key cse int_of_str get task s
  = if negb (truthy (st_heap s) query)
    then report_data (VStr "No search query provided.") s
    else
      (r <- try_ (
         h <- get_heap;;
         body <- lift (get params h);;
         data <- alloc_lit body;;
         empty <- alloc (OList []);;
         items <- py_get data "items" empty;;
         h <- get_heap;;
         if negb (truthy h items) then report_data (VStr "No results found.")
         else
           results <- alloc (OList []);;
           its <- WebSearch.py_iter items;;
           _ <- WebSearch.for_each its (WebSearch.add_result results);;
           formatted <- WebSearch.format_results_for_slack results;;
           let formatted :=
             if capped then WebSearch.note +:+ formatted else formatted in
           alloc (ODict [("report", VStr formatted); ("data", results)]));;
       match r with
       | Ok v => ret v
       | Raise e =>
           report_data (VStr ("Error during web search: " +:+ exn_msg e))
       end)
        {| st_heap := st_heap s ++ [ODict params]; st_trace := st_trace s |}.
Proof.
  intros Hd Hp Hpd Hn query capped params. unfold WebSearch.handle.
  unfold bind at 1. rewrite (py_getitem_dict _ _ _ _ _ Hd Hp).
  unfold bind at 1. rewrite (py_get_dict _ _ _ _ _ Hpd).
  unfold bind at 1. rewrite (py_getitem_dict _ _ _ _ _ Hd Hp).
  unfold bind at 1. rewrite (py_get_dict _ _ _ _ _ Hpd).
  unfold bind at 1. rewrite (py_int_of _ _ _ _ Hn).
  unfold bind at 1, get_heap at 1. fold query.
  destruct (negb (truthy (st_heap s) query)); [done|].
  unfold bind at 1, alloc at 1. reflexivity.
Qed.

(** X28.  On a task whose payload is a mapping and whose number of results
    converts to an integer (or is left out), the agent never raises,
    whatever the service answers or raises: it returns a new mapping with a
    text under "report" and, under "data", a list whose elements are new
    mappings with exactly a title, a link and a snippet; a snippet that is a
    string has at most 300 characters. *)
Theorem web_search_always_reports
  (GOOGLE_SEARCH_API_KEY GOOGLE_CSE_ID : option string)
  (int_of_str : string -> outcome Z)
  (get : list (string * val) -> heap -> outcome lit)
  (task : val) (h : heap) (d : list (string * val)) (p : val)
  (pd : list (string * val)) (n : Z) :
  as_dict h task = Some d ->
  assoc_get "payload" d = Some p ->
  as_dict h p = Some pd ->
  WebSearch.int_of int_of_str (default (VInt 3) (assoc_get "num_results" pd))
  = Some n ->
  exists l h' text dl rs,
    WebSearch.WebSearchAgent GOOGLE_SEARCH_API_KEY GOOGLE_CSE_ID int_of_str get
      task h = (Ok (VRef l), h')
    /\ h' !! l = Some (ODict [("report", VStr text); ("data", VRef dl)])
    /\ h' !! dl = Some (OList rs)
    /\ Forall (WebSearch.search_result h') rs.
Proof.
  intros Hd Hp Hpd Hn. unfold WebSearch.WebSearchAgent, handler.
  rewrite (handle_eq _ _ _ _ _ {| st_heap := h; st_trace := [] |} d p pd n Hd Hp Hpd Hn).
  cbn [st_heap st_trace].
  destruct (negb (truthy h (default VNone (assoc_get "query" pd)))).
  - destruct (report_data_result "No search query provided."
                {| st_heap := h; st_trace := [] |})
      as (l & dl & rs & Hr & Hl & Hdl & Hrs).
    rewrite Hr. cbn [st_heap] in *.
    by eexists l, _, "No search query provided.", dl, rs.
  - unfold bind at 1, try_ at 1.
    match goal with
    | |- context [let (_, _) := ?m ?s in _] =>
        destruct (m s) as [[v|e] s'] eqn:E
    end.
    + apply search_Ok in E as (l & text & dl & rs & -> & Hl & Hdl & Hrs).
      by eexists l, _, text, dl, rs.
    + destruct (report_data_result ("Error during web search: " +:+ exn_msg e) s')
        as (l & dl & rs & Hr & Hl & Hdl & Hrs).
      rewrite Hr.
      by eexists l, _, ("Error during web search: " +:+ exn_msg e), dl, rs.
Qed.

(** ** What it asks *)

Lemma bind_ext {A B} (m : M A) (f g : A -> M B) s :
  (forall a s1, m s = (Ok a, s1) -> f a s1 = g a s1) ->
  bind m f s = bind m g s.
Proof.
  intros H. unfold bind. destruct (m s) as [[a|e] s1]; [by apply H|done].
Qed.

Lemma try_bind_ext {A B} (m m' : M A) (k : outcome A -> M B) s :
  m s = m' s -> bind (try_ m) k s = bind (try_ m') k s.
Proof. intros E. unfold bind, try_. by rewrite E. Qed.

(** X29.  The agent asks the service for at most ten results, and does not
    ask it without a query.  Two services that agree on the requests for at
    most ten results make the same agent, on every task and store; and on a
    task whose query is missing or false (its payload being a mapping and
    its number of results converting), the Result is "No search query
    provided." with an empty list of data, whatever the service. *)
Theorem web_search_requests
  (GOOGLE_SEARCH_API_KEY GOOGLE_CSE_ID : option string)
  (int_of_str : string -> outcome Z) (task : val) (h : heap) :
  let agent := WebSearch.WebSearchAgent GOOGLE_SEARCH_API_KEY GOOGLE_CSE_ID
                 int_of_str in
  (forall get get' : list (string * val) -> heap -> outcome lit,
     (forall params store n,
        assoc_get "num" params = Some (VInt n) -> (n <= 10)%Z ->
        get params store = get' params store) ->
     agent get task h = agent get' task h)
  /\ (forall d p pd n,
        as_dict h task = Some d ->
        assoc_get "payload" d = Some p ->
        as_dict h p = Some pd ->
        WebSearch.int_of int_of_str
          (default (VInt 3) (assoc_get "num_results" pd)) = Some n ->
        truthy h (default VNone (assoc_get "query" pd)) = false ->
        forall get,
          agent get task h
          = (Ok (VRef (S (length h))),
             h ++ [OList [];
                   ODict [("report", VStr "No search query provided.");
                          ("data", VRef (length h))]])).
Proof.
  intros agent. subst agent. split.
  - intros get get' Hagree. unfold WebSearch.WebSearchAgent, handler.
    assert (E : WebSearch.handle GOOGLE_SEARCH_API_KEY GOOGLE_CSE_ID int_of_str
                  get task {| st_heap := h; st_trace := [] |}
                = WebSearch.handle GOOGLE_SEARCH_API_KEY GOOGLE_CSE_ID int_of_str
                    get' task {| st_heap := h; st_trace := [] |});
      [|by rewrite E].
    unfold WebSearch.handle.
    apply bind_ext. intros payload s1 _.
    apply bind_ext. intros query s2 _.
    apply bind_ext. intros payload' s3 _.
    apply bind_ext. intros n s4 _.
    apply bind_ext. intros num_results s5 _.
    apply bind_ext. intros h0 s6 _.
    destruct (negb (truthy h0 query)); [done|].
    apply bind_ext. intros u s7 _.
    apply try_bind_ext. apply bind_ext. intros h1 s8 _.
    rewrite (Hagree _ h1 (if (10 <? num_results)%Z then 10%Z else num_results));
      [done|done|].
    destruct (10 <? num_results)%Z eqn:Hc; [done|]. by apply Z.ltb_ge.
  - intros d p pd n Hd Hp Hpd Hn Hq get.
    unfold WebSearch.WebSearchAgent, handler.
    rewrite (handle_eq _ _ _ _ _ {| st_heap := h; st_trace := [] |} d p pd n
               Hd Hp Hpd Hn).
    cbn [st_heap st_trace]. rewrite Hq. cbn [negb].
    by rewrite report_data_eq.
Qed.

(** * The further properties at concrete inputs *)

Lemma route_task_registered_witness :
  let self := Fixture.orchestrator_instance None in
  let s := Fixture.sub_tasks_store in
  type_of (st_heap s) (VRef 1) = Some (VStr "data_retrieval")
  /\ (route_task self (VRef 1) s).1 = Ok (VRef 6)
  /\ map d_task (st_trace (route_task self (VRef 1) s).2) = [VRef 1].
Proof.
  intros self s. split; [reflexivity|].
  rewrite (route_task_registered self (VRef 1) s "data_retrieval"
             (Fixture.DummyAgent "DataRetrievalAgent"));
    [|reflexivity|reflexivity|left; reflexivity].
  split; vm_compute; reflexivity.
Defined.

Lemma route_task_oracle_overrides_type_witness :
  let self := Fixture.orchestrator_instance (Some (Fixture.replies "data_retrieval")) in
  let s := Fixture.task_store in
  type_of (st_heap s) Fixture.task = Some (VStr "complex_report")
  /\ route_task self Fixture.task s
     = routed (Fixture.DummyAgent "DataRetrievalAgent") (VStr "data_retrieval")
         Fixture.task s.
Proof.
  intros self s. split; [reflexivity|].
  apply (route_task_oracle_overrides_type self Fixture.task s
           (Fixture.replies "data_retrieval")
           [("type", VStr "complex_report"); ("payload", VRef 0);
            ("user", VStr "U1"); ("context", VRef 1)]
           "data_retrieval" "data_retrieval").
  - reflexivity.
  - reflexivity.
  - reflexivity.
  - vm_compute. reflexivity.
  - discriminate.
  - reflexivity.
Defined.

Lemma route_task_default_needs_oracle_witness :
  let self := Fixture.orchestrator_instance (Some Sample.unavailable) in
  type_of (st_heap Sample.untyped_store) Sample.untyped_task = Some VNone
  /\ route_task self Sample.untyped_task Sample.untyped_store
     = routed (Fixture.DummyAgent "DummyAgent") (VStr "web_search")
         Sample.untyped_task Sample.untyped_store.
Proof.
  intros self. split; [reflexivity|].
  destruct (route_task_default_needs_oracle self Sample.untyped_task
              Sample.untyped_store [("payload", VRef 0)]
              (Fixture.DummyAgent "DummyAgent")) as [Hdefault _].
  - reflexivity.
  - reflexivity.
  - reflexivity.
  - apply (Hdefault Sample.unavailable (Exn "RuntimeError" "quota exceeded"));
      reflexivity.
Defined.

Lemma classify_task_never_raises_witness :
  let self := Fixture.orchestrator_instance (Some (Fixture.replies "{'type': ")) in
  let s := {| st_heap := []; st_trace := [] |} in
  exists task s',
    classify_task LiteralEval.literal_eval self (VStr "hello there") (VStr "U1")
      (VStr "C1") s = (Ok task, s')
    /\ st_trace s' = []
    /\ classified_task (st_heap s') task (VStr "U1") (VStr "C1").
Proof.
  intros self s.
  apply (classify_task_never_raises LiteralEval.literal_eval self
           (VStr "hello there") (VStr "U1") (VStr "C1") s).
  right. exists "hello there". reflexivity.
Defined.

Lemma classify_task_oracle_failure_is_silent_witness :
  let self := Fixture.orchestrator_instance (Some Sample.unavailable) in
  let s := {| st_heap := []; st_trace := [] |} in
  classify_task LiteralEval.literal_eval self (VStr "search the web") (VStr "U1")
    (VStr "C1") s
  = classify_task LiteralEval.literal_eval (Fixture.orchestrator_instance None)
      (VStr "search the web") (VStr "U1") (VStr "C1") s.
Proof.
  intros self s.
  apply (classify_task_oracle_failure_is_silent LiteralEval.literal_eval self
           (VStr "search the web") (VStr "U1") (VStr "C1") s Sample.unavailable).
  - reflexivity.
  - exact I.
Defined.

Lemma classify_task_ignores_case_witness :
  let self := Fixture.orchestrator_instance None in
  let s := {| st_heap := []; st_trace := [] |} in
  let run text :=
    classify_task LiteralEval.literal_eval self (VStr text) (VStr "U1") (VStr "C1") s in
  exists ty,
    (run "Generate a REPORT").1 = Ok (VRef 2)
    /\ (run "generate a report").1 = Ok (VRef 2)
    /\ type_of (st_heap (run "Generate a REPORT").2) (VRef 2) = Some (VStr ty)
    /\ type_of (st_heap (run "generate a report").2) (VRef 2) = Some (VStr ty).
Proof.
  intros self s run.
  exact (classify_task_ignores_case LiteralEval.literal_eval self
           "Generate a REPORT" (VStr "U1") (VStr "C1") s eq_refl).
Defined.

Lemma classified_task_is_always_routed_witness :
  let orchestrator :=
    Instance.orchestrator Sample.offline (Fixture.DummyAgent "WebSearchAgent") in
  let s := {| st_heap := []; st_trace := [] |} in
  exists task s1 k a,
    classify_task LiteralEval.literal_eval orchestrator (VStr "how are you?")
      (VStr "U1") (VStr "C1") s = (Ok task, s1)
    /\ mjoin (registry_get k (agents orchestrator)) = Some a
    /\ route_task orchestrator task s1 = routed a (VStr k) task s1.
Proof.
  intros orchestrator s.
  apply (classified_task_is_always_routed LiteralEval.literal_eval Sample.offline
           (Fixture.DummyAgent "WebSearchAgent") (VStr "how are you?")
           (VStr "U1") (VStr "C1") s).
  - reflexivity.
  - right. exists "how are you?". reflexivity.
Defined.

Lemma handle_task_single_success_witness :
  let self := Fixture.orchestrator_instance None in
  let s := Fixture.sub_tasks_store in
  agent_of self (st_heap s) (VRef 1) = Some (Fixture.DummyAgent "DataRetrievalAgent")
  /\ (handle_task LiteralEval.literal_eval self (VRef 1) s).1 = Ok (VRef 6)
  /\ length (st_heap (handle_task LiteralEval.literal_eval self (VRef 1) s).2) = 7.
Proof.
  intros self s. split; [reflexivity|].
  rewrite (handle_task_single_success LiteralEval.literal_eval self (VRef 1) s
             (VStr "data_retrieval") (Fixture.DummyAgent "DataRetrievalAgent")
             (VRef 6)
             (Fixture.DummyAgent "DataRetrievalAgent" (VRef 1) (st_heap s)).2).
  - split; reflexivity.
  - reflexivity.
  - reflexivity.
  - reflexivity.
  - vm_compute. reflexivity.
  - vm_compute. reflexivity.
Defined.

Lemma handle_task_single_failure_is_wrapped_witness :
  let self := Fixture.orchestrator_instance None in
  let s := Fixture.task_store in
  agent_of self (st_heap s) Fixture.task = None
  /\ handle_task LiteralEval.literal_eval self Fixture.task s
     = (Ok (VRef 5),
        {| st_heap := st_heap s
             ++ [no_agent_error (VStr "complex_report"); OList [VRef 3];
                 composite (VRef 4)];
           st_trace := [] |}).
Proof.
  intros self s. split; [reflexivity|].
  destruct (handle_task_single_failure_is_wrapped LiteralEval.literal_eval self
              Fixture.task s (VStr "complex_report")) as [Hnone _].
  - reflexivity.
  - reflexivity.
  - discriminate.
  - apply Hnone. reflexivity.
Defined.

Lemma gather_dispatches_the_sub_tasks_themselves_witness :
  let self := Fixture.orchestrator_instance None in
  let s := Sample.unhashable_store in
  let run := gather self 0 Sample.unhashable_sub_tasks s in
  run.1 = Raise (TypeError "unhashable type: 'list'")
  /\ map d_task (new_dispatches s run.2) = [VRef 1; VRef 4].
Proof.
  intros self s run. split; [reflexivity|].
  destruct (gather_dispatches_the_sub_tasks_themselves self
              Sample.unhashable_sub_tasks 0 s run.2 run.1)
    as (_ & _ & Hexact).
  - apply surjective_pairing.
  - rewrite Hexact; [reflexivity| |].
    + repeat constructor.
    + repeat constructor; intros a [= <-] t h; eexists [_]; reflexivity.
Defined.

Lemma execute_sub_tasks_dispatch_bound_witness :
  let self := Fixture.orchestrator_instance None in
  let s := Sample.unhashable_store in
  let run := execute_sub_tasks self Sample.unhashable_sub_tasks s in
  run.1 = Raise (TypeError "unhashable type: 'list'")
  /\ length (new_dispatches s run.2) <= 3.
Proof.
  intros self s run. split; [reflexivity|].
  apply (execute_sub_tasks_dispatch_bound self Sample.unhashable_sub_tasks s
           run.2 run.1).
  apply surjective_pairing.
Defined.

Lemma handle_task_on_empty_decomposition_witness :
  let self := Fixture.orchestrator_instance (Some (Fixture.replies "```python
[]
```")) in
  handle_task LiteralEval.literal_eval self Fixture.task Fixture.task_store
  = (Ok (VRef 4),
     {| st_heap := st_heap Fixture.task_store ++ [OList []; no_results_error];
        st_trace := [] |}).
Proof.
  intros self.
  apply (handle_task_on_empty_decomposition LiteralEval.literal_eval self
           Fixture.task Fixture.task_store
           (Fixture.replies "```python
[]
```") "```python
[]
```" "[]").
  - reflexivity.
  - reflexivity.
  - vm_compute. reflexivity.
  - vm_compute. reflexivity.
Defined.

Lemma chain_input_writes_the_shared_payload_witness :
  let s := Fixture.sub_tasks_store in
  (chain_input (VRef 3) (VStr "rows") s).1 = Ok (VRef 6)
  /\ payload_input (st_heap (chain_input (VRef 3) (VStr "rows") s).2) (VRef 3)
     = Some (VStr "rows")
  /\ payload_input (st_heap s) (VRef 3) = Some (VStr "sales").
Proof.
  intros s.
  destruct (chain_input_writes_the_shared_payload (VRef 3) (VStr "rows") s
              [("type", VStr "analysis"); ("payload", VRef 2)]
              [("analysis_type", VStr "trend"); ("input", VStr "sales")] 2)
    as (Hrun & _ & _ & _ & Hin).
  - reflexivity.
  - reflexivity.
  - reflexivity.
  - rewrite Hrun. split; [reflexivity|]. split; [exact Hin|reflexivity].
Defined.

Lemma chain_input_without_payload_adds_only_witness :
  let s := Sample.bare_store in
  chain_input (VRef 0) (VStr "rows") s
  = (Ok (VRef 1),
     {| st_heap := [ ODict [("type", VStr "analysis")];
                     ODict [("type", VStr "analysis"); ("payload", VRef 2)];
                     ODict [("input", VStr "rows")] ];
        st_trace := [] |}).
Proof.
  intros s.
  destruct (chain_input_without_payload_adds_only (VRef 0) (VStr "rows") s
              [("type", VStr "analysis")]) as [Hrun _].
  - reflexivity.
  - reflexivity.
  - exact Hrun.
Defined.

Lemma sequential_step_raises_on_non_mapping_payload_witness :
  let self := Fixture.orchestrator_instance None in
  let s := Sample.text_payload_store in
  exists msg s',
    sequential_step self 1 (VRef 0) (VStr "rows") s = (Raise (TypeError msg), s')
    /\ st_trace s' = []
    /\ forall sub_tasks results,
         run_sequential self 1 (VRef 0 :: sub_tasks) (VStr "rows") results s
         = (Raise (TypeError msg), s').
Proof.
  intros self s.
  apply (sequential_step_raises_on_non_mapping_payload self 1 (VRef 0)
           (VStr "rows") (VStr "sales") s
           [("type", VStr "analysis"); ("payload", VStr "sales")]
           (Fixture.DummyAgent "AnalysisAgent")).
  - lia.
  - discriminate.
  - reflexivity.
  - reflexivity.
  - reflexivity.
  - left. discriminate.
Defined.

Lemma handle_message_event_answers_once_witness :
  exists w',
    Slack.handle_message_event LiteralEval.literal_eval
      (Fixture.orchestrator_instance None) (Some "B1") Sample.refusing (VRef 0)
      (Sample.message "fetch the data") = (Ok tt, w')
    /\ length (new_dispatches (Slack.w_state (Sample.message "fetch the data"))
                 (Slack.w_state w')) <= 1
    /\ length (Slack.w_calls w') = 2.
Proof.
  destruct (handle_message_event_answers_once LiteralEval.literal_eval
              (Fixture.orchestrator_instance None) (Some "B1") nat Sample.refusing
              (VRef 0)
              [("user", VStr "U1"); ("text", VStr "fetch the data");
               ("channel", VStr "C1")]
              (Sample.message "fetch the data") eq_refl)
    as (w' & Hrun & Hlen & _).
  exists w'. split; [exact Hrun|]. split; [exact Hlen|].
  vm_compute in Hrun. injection Hrun as <-. reflexivity.
Defined.

Lemma offline_message_gets_the_fallback_answer_witness :
  exists w' o rest,
    Slack.handle_message_event LiteralEval.literal_eval
      (Instance.orchestrator Sample.offline (Fixture.DummyAgent "WebSearchAgent"))
      None Sample.accepting (VRef 0) (Sample.message "Hello there")
    = (Ok tt, w')
    /\ Slack.w_calls w'
       = Slack.Call (Slack.chat_postMessage (VStr "C1")
                       (VStr "LLM is not available.")) o :: rest.
Proof.
  destruct (offline_message_gets_the_fallback_answer LiteralEval.literal_eval
              Sample.offline (Fixture.DummyAgent "WebSearchAgent") None nat
              Sample.accepting (VRef 0)
              [("user", VStr "U1"); ("text", VStr "Hello there");
               ("channel", VStr "C1")]
              "Hello there" (Sample.message "Hello there"))
    as (w' & o & rest & Hrun & Hcalls & _).
  - reflexivity.
  - reflexivity.
  - discriminate.
  - reflexivity.
  - reflexivity.
  - repeat constructor.
  - exists w', o, rest. split; [exact Hrun|exact Hcalls].
Defined.


Lemma rejected_request_triggers_nothing_witness :
  Slack.slack_events LiteralEval.literal_eval (Fixture.orchestrator_instance None)
    None Sample.accepting Sample.environ Sample.int_of_str Sample.late
    Sample.HTTPException_str Sample.hexdigest
    (Sample.replayed Sample.event_callback) Sample.nothing
  = (Ok (VRef 0),
     Slack.World
       {| st_heap := [Slack.error_answer (Exn "HTTPException" "400: Invalid timestamp")];
          st_trace := [] |} 0 []).
Proof.
  apply (rejected_request_triggers_nothing LiteralEval.literal_eval
           (Fixture.orchestrator_instance None) None nat Sample.accepting
           Sample.environ Sample.int_of_str Sample.late Sample.HTTPException_str
           Sample.hexdigest (Sample.replayed Sample.event_callback) Sample.nothing
           (Exn "HTTPException" "400: Invalid timestamp")).
  left. reflexivity.
Defined.

Lemma verify_slack_signature_never_returns_witness :
  Slack.getenv Sample.environ "SLACK_SIGNING_SECRET" = Some "8f742231b10e"
  /\ Slack.SLACK_SIGNING_SECRET Sample.environ = None
  /\ Slack.verify_slack_signature Sample.environ Sample.int_of_str Sample.late
       Sample.HTTPException_str Sample.hexdigest
       (Sample.signed Sample.url_verification)
     = Raise (Exn "AttributeError" "'NoneType' object has no attribute 'encode'").
Proof.
  split; [reflexivity|].
  destruct (verify_slack_signature_never_returns Sample.environ Sample.int_of_str
              Sample.late Sample.HTTPException_str Sample.hexdigest
              (Sample.signed Sample.url_verification)) as (Hsecret & Hrun & _).
  split; [exact Hsecret|]. rewrite Hrun. reflexivity.
Defined.

Lemma slack_events_rejects_every_request_witness :
  Slack.slack_events LiteralEval.literal_eval (Fixture.orchestrator_instance None)
    None Sample.accepting Sample.environ Sample.int_of_str Sample.late
    Sample.HTTPException_str Sample.hexdigest
    (Sample.signed Sample.url_verification) Sample.nothing
  = (Ok (VRef 0),
     Slack.World
       {| st_heap :=
            [ODict [("ok", VBool false);
                    ("error", VStr "'NoneType' object has no attribute 'encode'")]];
          st_trace := [] |} 0 []).
Proof.
  rewrite (slack_events_rejects_every_request LiteralEval.literal_eval
             (Fixture.orchestrator_instance None) None nat Sample.accepting
             Sample.environ Sample.int_of_str Sample.late Sample.HTTPException_str
             Sample.hexdigest (Sample.signed Sample.url_verification)
             Sample.nothing).
  reflexivity.
Defined.

Lemma handle_reaction_event_adds_the_reaction_witness :
  (Slack.handle_reaction_event Sample.accepting (VRef 1) Sample.reaction).1 = Ok tt
  /\ Slack.w_calls
       (Slack.handle_reaction_event Sample.accepting (VRef 1) Sample.reaction).2
     = [Slack.Call (Slack.reactions_add (VStr "C1") (VStr "1.2") (VStr "eyes"))
          (Ok tt)].
Proof.
  rewrite (handle_reaction_event_adds_the_reaction nat Sample.accepting (VRef 1)
             [("reaction", VStr "eyes"); ("item", VRef 0)]
             [("channel", VStr "C1"); ("ts", VStr "1.2")] Sample.reaction);
    [|reflexivity|reflexivity].
  split; reflexivity.
Defined.

Lemma llm_agent_without_query_does_not_ask_witness :
  LLMResponseAgent (Some (Fixture.replies "hi")) Fixture.task
    (st_heap Fixture.task_store)
  = (Ok (VRef 5),
     st_heap Fixture.task_store
       ++ [ODict []; OList [];
           ODict [("report", VStr "No input provided."); ("data", VRef 4)]]).
Proof.
  apply (llm_agent_without_query_does_not_ask Fixture.task
           (st_heap Fixture.task_store)
           [("type", VStr "complex_report"); ("payload", VRef 0);
            ("user", VStr "U1"); ("context", VRef 1)]
           [("topic", VStr "Q3 Sales Performance"); ("output_format", VStr "pdf")]).
  - reflexivity.
  - reflexivity.
  - reflexivity.
Defined.

Lemma llm_agent_answers_with_the_model_witness :
  LLMResponseAgent (Some Sample.unavailable) Sample.untyped_task
    (st_heap Sample.untyped_store)
  = (Raise (Exn "RuntimeError" "quota exceeded"),
     st_heap Sample.untyped_store ++ [ODict []]).
Proof.
  rewrite (llm_agent_answers_with_the_model (Some Sample.unavailable)
             Sample.untyped_task (st_heap Sample.untyped_store)
             [("payload", VRef 0)] [("query", VStr "hello")]);
    reflexivity.
Defined.

Lemma web_search_always_reports_witness :
  exists l h' text dl rs,
    WebSearch.WebSearchAgent None None Sample.no_int Sample.one_item (VRef 1)
      Sample.search_store = (Ok (VRef l), h')
    /\ h' !! l = Some (ODict [("report", VStr text); ("data", VRef dl)])
    /\ h' !! dl = Some (OList rs)
    /\ Forall (WebSearch.search_result h') rs.
Proof.
  apply (web_search_always_reports None None Sample.no_int Sample.one_item
           (VRef 1) Sample.search_store
           [("type", VStr "web_search"); ("payload", VRef 0)] (VRef 0)
           [("query", VStr "rocq"); ("num_results", VInt 25)] 25%Z);
    reflexivity.
Defined.
